(** * websocket-push-system: connection registry, fan-out, heartbeat,
      request correlation, reconnect back-off and batched results

    A shallow embedding of the two server variants
    ([simple-ws-push] with in-process tasks, [system-with-MessageQ] with a
    broker), of the browser client [WSClient] and of the task processors.

    Conventions.
    - JavaScript [Map]s are [gmap]s; JavaScript [Set]s are insertion-ordered
      lists without duplicates, because [sendToUser] iterates over them.
    - A value that is either [undefined]/[null] or a string is an
      [option string]; JavaScript truthiness is [truthy].
    - [Date.now()] is an integer number of milliseconds ([Z]) handed to every
      handler; [uuidv4()] results and [Math.random()] draws are inputs too.
    - Code that can throw lives in the monad [M]: a state transformer whose
      result is a value or an exception; mutations made before a [throw]
      persist, as in JavaScript. *)

From Stdlib Require Import ZArith QArith Qpower Qminmax Lia Lqa.
From stdpp Require Import gmap strings list fin_maps.

Local Open Scope Z_scope.
Local Open Scope string_scope.

(** ** JavaScript values and truthiness *)

(** [undefined] (or [null]) is [None]. *)
Abbreviation JsStr := (option string).

(** [!!v] for a value that is a string or undefined: the empty string and
    [undefined] are falsy. *)
Definition truthy (v : JsStr) : bool :=
  match v with
  | Some s => negb (String.eqb s "")
  | None => false
  end.

(** [a || b] on such values. *)
Definition js_or (a b : JsStr) : JsStr := if truthy a then a else b.

(** ** The exception/state monad *)

Inductive Exn := WriteError | TypeError | SyntaxError | CallbackError.

Inductive Outcome (A : Type) :=
| Ok (a : A)
| Throw (e : Exn).
Arguments Ok {A} a.
Arguments Throw {A} e.

Definition M (S A : Type) : Type := S -> Outcome A * S.

Definition ret {S A} (a : A) : M S A := fun s => (Ok a, s).

Definition bind {S A B} (c : M S A) (k : A -> M S B) : M S B :=
  fun s => match c s with
           | (Ok a, s') => k a s'
           | (Throw e, s') => (Throw e, s')
           end.

Definition throw {S A} (e : Exn) : M S A := fun s => (Throw e, s).

(** [try { c } catch (error) { h }] *)
Definition try_catch {S A} (c : M S A) (h : Exn -> M S A) : M S A :=
  fun s => match c s with
           | (Ok a, s') => (Ok a, s')
           | (Throw e, s') => h e s'
           end.

Definition get {S} : M S S := fun s => (Ok s, s).
Definition modify {S} (f : S -> S) : M S unit := fun s => (Ok tt, f s).

Notation "'let*' x ':=' c 'in' k" := (bind c (fun x => k))
  (at level 10, x name, c at level 100, k at level 200).
Notation "c ';;' k" := (bind c (fun _ => k))
  (at level 100, k at level 200, right associativity).

(** The final state of a computation, however it ends. *)
Definition exec {S A} (c : M S A) (s : S) : S := (c s).2.

(** ** JavaScript [Set] as an insertion-ordered list *)

Definition set_add (x : string) (l : list string) : list string :=
  if decide (x ∈ l) then l else l ++ [x].

Definition set_delete (x : string) (l : list string) : list string :=
  filter (fun y => y ≠ x) l.

(** ** Task results (payload of a [data] frame) *)

Inductive Status := pending | processing | completed | failed.

(** Items of the source dataset are opaque; they are numbered. *)
Definition Item : Type := nat.

(** The [results] field is the slice of a batch in the direct variant and a
    summary object in the queued one. *)
Inductive Results :=
| Items (batchItems : list Item)
| Summary (totalItems processedItems : nat).

(** [result.data]; a field missing from the object literal is [None].
    [progress] (a rounded floating-point percentage) is left out. *)
Record ResultData := {
  d_totalItems : option nat;
  d_processedItems : option nat;
  d_isFinal : option bool;
  d_results : Results
}.

Record Result := {
  r_taskId : string;
  r_status : Status;
  r_requestId : JsStr;
  r_batchNumber : option nat;
  r_data : option ResultData
}.

(** ** Frames sent by a server *)

Inductive Frame :=
| Welcome (clientId : string)
| AuthSuccess (userId : JsStr)
| AuthFailure (message : string)
| Ping (timestamp : Z)
| Pong (timestamp : Z) (echo : option Z)
| RequestAccepted (requestId : JsStr) (taskId : string)
| ErrorFrame (requestId : JsStr) (message : string)
| Data (payload : Result).

(** ** Frames received by a server, after [JSON.parse] *)

(** The fields the servers read.  A field that is absent, or is not of the
    expected kind, is [None]. *)
Record Message := {
  msg_type : JsStr;
  msg_token : JsStr;
  msg_requestId : JsStr;
  msg_timestamp : option Z
}.

(** What [JSON.parse(data)] does with the raw frame: it throws a
    [SyntaxError], yields [null], or yields a value whose properties can be
    read (for a number, string or boolean every property is [undefined]). *)
Inductive Parsed :=
| NotJson
| JsonNull
| JsonValue (m : Message).

Definition JSON_parse {S} (raw : Parsed) : M S Parsed :=
  match raw with
  | NotJson => throw SyntaxError
  | v => ret v
  end.

(** [parsed.type]: reading a property of [null] throws a [TypeError]. *)
Definition get_type {S} (p : Parsed) : M S JsStr :=
  match p with
  | JsonValue m => ret (msg_type m)
  | _ => throw TypeError
  end.

Definition the_message (p : Parsed) : Message :=
  match p with
  | JsonValue m => m
  | _ => {| msg_type := None; msg_token := None; msg_requestId := None;
            msg_timestamp := None |}
  end.

(** ** The [ws] socket object *)

Inductive ReadyState := CONNECTING | OPEN | CLOSING | CLOSED.

#[global] Instance ReadyState_eq_dec : EqDecision ReadyState.
Proof. solve_decision. Defined.

(** Calls made on the socket, oldest first. [Sent f]: [ws.send] accepted the
    write; [SendFailed f]: [ws.send] was called and threw. *)
Inductive WsCall :=
| Sent (f : Frame)
| SendFailed (f : Frame)
| Terminated.

(** [sendThrows] says whether a write on this socket throws. *)
Record WebSocket := {
  readyState : ReadyState;
  sendThrows : bool;
  calls : list WsCall
}.

Definition log_call (c : WsCall) (ws : WebSocket) : WebSocket :=
  {| readyState := readyState ws; sendThrows := sendThrows ws;
     calls := calls ws ++ [c] |}.

(** ** Per-connection state and the registry *)

(** [heartbeat] is the interval timer of the connection: [true] while it is
    scheduled, [false] after [clearInterval]. *)
Record ClientState := {
  clientId : string;
  ws : WebSocket;
  userId : JsStr;
  authenticated : bool;
  lastHeartbeat : Z;
  heartbeat : bool
}.

Definition set_ws (w : WebSocket) (c : ClientState) : ClientState :=
  {| clientId := clientId c; ws := w; userId := userId c;
     authenticated := authenticated c; lastHeartbeat := lastHeartbeat c;
     heartbeat := heartbeat c |}.

Definition set_lastHeartbeat (t : Z) (c : ClientState) : ClientState :=
  {| clientId := clientId c; ws := ws c; userId := userId c;
     authenticated := authenticated c; lastHeartbeat := t;
     heartbeat := heartbeat c |}.

Definition set_auth (u : JsStr) (c : ClientState) : ClientState :=
  {| clientId := clientId c; ws := ws c; userId := u;
     authenticated := true; lastHeartbeat := lastHeartbeat c;
     heartbeat := heartbeat c |}.

Definition clear_heartbeat (c : ClientState) : ClientState :=
  {| clientId := clientId c; ws := ws c; userId := userId c;
     authenticated := authenticated c; lastHeartbeat := lastHeartbeat c;
     heartbeat := false |}.

(** A task handed to the task backend: [{taskId, userId, requestData}]. *)
Record Task := {
  t_taskId : string;
  t_userId : JsStr;
  t_requestId : JsStr
}.

(** [clients] holds the [clientState] objects by connection id: the
    [this.clients] map of the queued server, and the objects captured by the
    connection closures of the direct server, whose [Set]s hold references
    to them.  [userConnections] is the map user id -> Set.  [submitted] is
    what went to the task backend (the processor's task map, or the broker's
    task queue), oldest first. *)
Record Server := {
  clients : gmap string ClientState;
  userConnections : gmap JsStr (list string);
  submitted : list Task
}.

Definition set_clients (f : gmap string ClientState -> gmap string ClientState)
    (s : Server) : Server :=
  {| clients := f (clients s); userConnections := userConnections s;
     submitted := submitted s |}.

Definition set_userConnections
    (f : gmap JsStr (list string) -> gmap JsStr (list string))
    (s : Server) : Server :=
  {| clients := clients s; userConnections := f (userConnections s);
     submitted := submitted s |}.

Definition submit (t : Task) (s : Server) : Server :=
  {| clients := clients s; userConnections := userConnections s;
     submitted := submitted s ++ [t] |}.

(** [ws.send(JSON.stringify(data))] on the socket of connection [cid]. *)
Definition ws_send (cid : string) (data : Frame) : M Server unit :=
  fun s =>
    match clients s !! cid with
    | Some c =>
        if sendThrows (ws c)
        then (Throw WriteError,
              set_clients (insert cid (set_ws (log_call (SendFailed data) (ws c)) c)) s)
        else (Ok tt,
              set_clients (insert cid (set_ws (log_call (Sent data) (ws c)) c)) s)
    | None => (Throw TypeError, s)
    end.

(** [sendToClient(ws, data)] / [_sendToClient(clientState, data)]: the
    write is guarded by the ready state and wrapped in try/catch. *)
Definition sendToClient (cid : string) (data : Frame) : M Server bool :=
  let* s := get in
  match clients s !! cid with
  | Some c =>
      if decide (readyState (ws c) = OPEN)
      then try_catch (ws_send cid data ;; ret true) (fun _ => ret false)
      else ret false
  | None => throw TypeError
  end.

(** [ws.terminate()]: the transport is destroyed; the socket leaves the
    open state at once (a socket already closed stays as it is). *)
Definition ws_terminate (w : WebSocket) : WebSocket :=
  {| readyState := match readyState w with CLOSED => CLOSED | _ => CLOSING end;
     sendThrows := sendThrows w;
     calls := calls w ++ [Terminated] |}.

(** In-place update of the [clientState] object of connection [cid]. *)
Definition update_client (cid : string) (f : ClientState -> ClientState)
  : M Server unit :=
  modify (set_clients (alter f cid)).

(** A fresh connection object, as built on the [connection] event. *)
Definition new_client (cid : string) (sock : WebSocket) (now : Z) : ClientState :=
  {| clientId := cid; ws := sock; userId := None; authenticated := false;
     lastHeartbeat := now; heartbeat := true |}.

(** The decoded payload of a verified token: the two fields the servers
    read. *)
Record Decoded := {
  dec_userId : JsStr;
  dec_sub : JsStr
}.

(** The registration step shared by both [handleAuth]s:
    [if (!userConnections.has(userId)) userConnections.set(userId, new Set());
     userConnections.get(userId).add(...)]. *)
Definition register (uid : JsStr) (cid : string)
    (m : gmap JsStr (list string)) : gmap JsStr (list string) :=
  let m' := match m !! uid with
            | Some _ => m
            | None => <[uid := []]> m
            end in
  alter (set_add cid) uid m'.

(** The cleanup of the [close] handlers:
    [if (clientState.userId) { const c = userConnections.get(userId);
       if (c) { c.delete(...); if (c.size === 0) userConnections.delete(userId) } }]. *)
Definition unregister (uid : JsStr) (cid : string)
    (m : gmap JsStr (list string)) : gmap JsStr (list string) :=
  if truthy uid then
    match m !! uid with
    | Some l =>
        let l' := set_delete cid l in
        if decide (length l' = 0%nat) then delete uid m else <[uid := l']> m
    | None => m
    end
  else m.

(** [connectionsFor(userId)]: the bucket of a user, empty when absent. *)
Definition connectionsFor (s : Server) (uid : JsStr) : list string :=
  default [] (userConnections s !! uid).

(** ** The direct server ([simple-ws-push], server.js) *)

(** The texts of its [auth_failure] and [error] frames are Chinese in the
    source; they are rendered in English here. *)
Module Direct.

Definition WS_HEARTBEAT_INTERVAL : Z := 30000.

Section WithVerifier.

(** [auth.verifyToken]: [jwt.verify] wrapped in try/catch, [null] on
    failure. *)
Variable verifyToken : string -> option Decoded.

(** The [connection] handler: state object, heartbeat timer, welcome. *)
Definition onConnection (cid : string) (sock : WebSocket) (now : Z)
  : M Server bool :=
  modify (set_clients (insert cid (new_client cid sock now))) ;;
  sendToClient cid (Welcome cid).

(** One firing of [heartbeatTimer]. The ping is sent outside any
    try/catch. *)
Definition heartbeatTimer (cid : string) (now : Z) : M Server unit :=
  let* s := get in
  match clients s !! cid with
  | Some c =>
      if heartbeat c then
        let timeSinceLastHeartbeat := now - lastHeartbeat c in
        if decide (timeSinceLastHeartbeat > 2 * WS_HEARTBEAT_INTERVAL)
        then update_client cid
               (fun c => clear_heartbeat (set_ws (ws_terminate (ws c)) c))
        else if decide (readyState (ws c) = OPEN)
             then ws_send cid (Ping now)
             else ret tt
      else ret tt
  | None => throw TypeError
  end.

Definition handleAuth (cid : string) (message : Message) : M Server unit :=
  let token := msg_token message in
  if negb (truthy token) then
    sendToClient cid (AuthFailure "no token") ;; ret tt
  else
    match verifyToken (default "" token) with
    | None => sendToClient cid (AuthFailure "invalid token") ;; ret tt
    | Some decoded =>
        let userId := dec_userId decoded in
        update_client cid (set_auth userId) ;;
        modify (set_userConnections (register userId cid)) ;;
        sendToClient cid (AuthSuccess userId) ;; ret tt
    end.

(** [taskId] is the id [createTask] draws. [processTask] runs later and
    re-enters through [sendToUser]. *)
Definition handleDataRequest (cid : string) (message : Message)
    (taskId : string) : M Server unit :=
  let* s := get in
  match clients s !! cid with
  | Some c =>
      if negb (authenticated c) then
        sendToClient cid
          (ErrorFrame (msg_requestId message) "authentication required") ;;
        ret tt
      else
        modify (submit {| t_taskId := taskId; t_userId := userId c;
                          t_requestId := msg_requestId message |}) ;;
        sendToClient cid (RequestAccepted (msg_requestId message) taskId) ;;
        ret tt
  | None => throw TypeError
  end.

(** The [switch (message.type)] of the [message] handler. *)
Definition dispatch (cid : string) (message : Parsed) (taskId : string)
  : M Server unit :=
  let* type := get_type message in
  if decide (type = Some "auth") then
    handleAuth cid (the_message message)
  else if decide (type = Some "pong") then
    ret tt
  else if decide (type = Some "request_data") then
    handleDataRequest cid (the_message message) taskId
  else
    sendToClient cid (ErrorFrame None "unknown message type") ;; ret tt.

(** The [message] handler: parsing, the refresh of [lastHeartbeat] and the
    switch are all inside one try block. *)
Definition onMessage (cid : string) (data : Parsed) (now : Z)
    (taskId : string) : M Server unit :=
  try_catch
    (let* message := JSON_parse data in
     update_client cid (set_lastHeartbeat now) ;;
     dispatch cid message taskId)
    (fun _ =>
       sendToClient cid (ErrorFrame None "bad message format") ;; ret tt).

(** The [close] handler. *)
Definition onClose (cid : string) : M Server unit :=
  let* s := get in
  match clients s !! cid with
  | Some c =>
      modify (set_userConnections (unregister (userId c) cid)) ;;
      update_client cid clear_heartbeat
  | None => throw TypeError
  end.

End WithVerifier.

(** The loop of [sendToUser], [successCount] being its counter. *)
Fixpoint send_loop (data : Frame) (connections : list string)
    (successCount : nat) : M Server nat :=
  match connections with
  | [] => ret successCount
  | client :: rest =>
      let* ok := sendToClient client data in
      send_loop data rest (if ok then S successCount else successCount)
  end.

Definition sendToUser (userId : JsStr) (data : Frame) : M Server nat :=
  let* s := get in
  match userConnections s !! userId with
  | None => ret 0%nat
  | Some connections =>
      if decide (length connections = 0%nat) then ret 0%nat
      else send_loop data connections 0
  end.

End Direct.

(** ** The queued server ([system-with-MessageQ], server.js) *)

Module Queued.

(** config.js, [ws] section. *)
Definition heartbeatInterval : Z := 30000.
Definition heartbeatTimeout : Z := 60000.

Section WithVerifier.

(** [jwtUtils.verifyToken]: [jwt.verify] wrapped in try/catch, [null] on
    failure. *)
Variable verifyToken : string -> option Decoded.

Definition onConnection (cid : string) (sock : WebSocket) (now : Z)
  : M Server bool :=
  modify (set_clients (insert cid (new_client cid sock now))) ;;
  sendToClient cid (Welcome cid).

(** One firing of [heartbeatCheck] (every 10 s). When the connection is no
    longer in [this.clients] the timer only clears itself. *)
Definition heartbeatCheck (cid : string) (now : Z) : M Server unit :=
  let* s := get in
  match clients s !! cid with
  | None => ret tt
  | Some client =>
      if heartbeat client then
        let timeSinceLastHeartbeat := now - lastHeartbeat client in
        if decide (timeSinceLastHeartbeat > heartbeatTimeout)
        then update_client cid
               (fun c => clear_heartbeat (set_ws (ws_terminate (ws c)) c))
        else ret tt
      else ret tt
  end.

Definition _handleAuth (message : Message) (cid : string) : M Server unit :=
  let token := msg_token message in
  if negb (truthy token) then
    sendToClient cid (AuthFailure "No authentication token provided") ;; ret tt
  else
    match verifyToken (default "" token) with
    | None =>
        sendToClient cid (AuthFailure "Invalid authentication token") ;; ret tt
    | Some decoded =>
        let userId := js_or (dec_userId decoded) (dec_sub decoded) in
        if negb (truthy userId) then
          sendToClient cid (AuthFailure "Invalid token: no user ID") ;; ret tt
        else
          update_client cid (set_auth userId) ;;
          modify (set_userConnections (register userId cid)) ;;
          sendToClient cid (AuthSuccess userId) ;; ret tt
    end.

Definition _handlePing (message : Message) (cid : string) (now : Z)
  : M Server unit :=
  sendToClient cid (Pong now (msg_timestamp message)) ;; ret tt.

(** [mqConnected] is [messageQueue.connected]. The acknowledgement
    ([request_accepted], or [error] when publishing fails) is sent from the
    promise callbacks, after the handler has returned: see [taskPublished]. *)
Definition _handleDataRequest (message : Message) (cid : string)
    (mqConnected : bool) (taskId : string) : M Server unit :=
  let* s := get in
  match clients s !! cid with
  | Some c =>
      if mqConnected then
        modify (submit {| t_taskId := taskId; t_userId := userId c;
                          t_requestId := msg_requestId message |})
      else
        sendToClient cid
          (ErrorFrame (msg_requestId message)
             "Server error: Message queue not connected") ;;
        ret tt
  | None => throw TypeError
  end.


(** The [switch (parsedMessage.type)] of [_handleMessage]; an unknown type
    is only logged to the console. *)
Definition dispatch (parsedMessage : Parsed) (cid : string) (now : Z)
    (mqConnected : bool) (taskId : string) : M Server unit :=
  let* type := get_type parsedMessage in
  if decide (type = Some "auth") then
    _handleAuth (the_message parsedMessage) cid
  else if decide (type = Some "ping") then
    _handlePing (the_message parsedMessage) cid now
  else if decide (type = Some "request_data") then
    let* s := get in
    match clients s !! cid with
    | Some c =>
        if negb (authenticated c) then
          sendToClient cid (ErrorFrame None "Authentication required") ;;
          ret tt
        else
          _handleDataRequest (the_message parsedMessage) cid
            mqConnected taskId
    | None => throw TypeError
    end
  else
    ret tt.

(** [_handleMessage]: only [JSON.parse] is inside the try block, and its
    catch clause returns. *)
Definition _handleMessage (data : Parsed) (cid : string) (now : Z)
    (mqConnected : bool) (taskId : string) : M Server unit :=
  let* parsed :=
    try_catch (let* p := JSON_parse data in ret (Some p))
              (fun _ => ret None) in
  match parsed with
  | None => sendToClient cid (ErrorFrame None "Invalid JSON message") ;; ret tt
  | Some parsedMessage =>
      update_client cid (set_lastHeartbeat now) ;;
      dispatch parsedMessage cid now mqConnected taskId
  end.

(** The [close] handler. A connection missing from [this.clients] is one
    closed after [stop()] emptied both maps: nothing is left to clean. *)
Definition onClose (cid : string) : M Server unit :=
  let* s := get in
  match clients s !! cid with
  | Some c =>
      modify (set_userConnections (unregister (userId c) cid)) ;;
      modify (set_clients (delete cid))
  | None => ret tt
  end.

End WithVerifier.

(** The loop of [_sendToUser]. *)
Fixpoint send_loop (data : Frame) (connections : list string)
    (successCount : nat) : M Server nat :=
  match connections with
  | [] => ret successCount
  | clientId :: rest =>
      let* s := get in
      match clients s !! clientId with
      | Some _ =>
          let* ok := sendToClient clientId data in
          send_loop data rest (if ok then S successCount else successCount)
      | None => send_loop data rest successCount
      end
  end.

Definition _sendToUser (userId : JsStr) (data : Frame) : M Server nat :=
  let* s := get in
  match userConnections s !! userId with
  | None => ret 0%nat
  | Some connections =>
      if decide (length connections = 0%nat) then ret 0%nat
      else send_loop data connections 0
  end.

End Queued.

(** ** The browser client ([WSClient], websocket-client.js) *)

Module Client.

(** A callback handed in by the application: calling it returns or throws.
    Callbacks do not call back into the client. *)
Inductive Callback := Returns | Throws.

(** What the client did, oldest first: callbacks invoked, frames written,
    errors logged to the console. *)
Inductive Event :=
| CalledOnAccepted (requestId : string)
| CalledOnData (requestId : string)
| CalledOnError (requestId : string)
| CalledOnMessage
| CalledOnAuthSuccess
| CalledOnAuthFailure
| CalledOnConnect
| CalledOnDisconnect
| CalledOnReconnect (attempt : nat)
| WroteAuth (token : string)
| WrotePing (timestamp : Z)
| WrotePong (timestamp : Z) (echo : option Z)
| WroteRequest (requestId : string)
| ConsoleError.

(** An entry of [requestCallbacks]. *)
Record Entry := {
  onAccepted : option Callback;
  onData : option Callback;
  onError : option Callback;
  once : bool
}.

(** The [callbacks] argument of [requestData]; [cb_once] is the field
    [once], possibly missing. *)
Record Callbacks := {
  cb_onAccepted : option Callback;
  cb_onData : option Callback;
  cb_onError : option Callback;
  cb_once : option bool
}.

(** [this.options] after the defaults are merged in.  The two intervals
    are rationals; what this means for the delay the client computes from
    [reconnectInterval] is said at [reconnectDelay]. *)
Record Options := {
  reconnectInterval : Q;
  heartbeatInterval : Q;
  authToken : JsStr;
  onMessage : Callback;
  onReconnect : Callback;
  onConnect : Callback;
  onDisconnect : Callback;
  onAuthSuccess : Callback;
  onAuthFailure : Callback
}.

(** The [options] argument of the constructor, every field optional. *)
Record UserOptions := {
  u_reconnectInterval : option Q;
  u_heartbeatInterval : option Q;
  u_authToken : JsStr;
  u_onMessage : option Callback;
  u_onReconnect : option Callback;
  u_onConnect : option Callback;
  u_onDisconnect : option Callback;
  u_onAuthSuccess : option Callback;
  u_onAuthFailure : option Callback
}.

(** [x || d] on an optional number: 0 is falsy. *)
Definition num_or (x : option Q) (d : Q) : Q :=
  match x with
  | Some v => if Qeq_bool v 0 then d else v
  | None => d
  end.

Definition merge_options (o : UserOptions) : Options :=
  {| reconnectInterval := num_or (u_reconnectInterval o) 3000;
     heartbeatInterval := num_or (u_heartbeatInterval o) 30000;
     authToken := js_or (u_authToken o) None;
     onMessage := default Returns (u_onMessage o);
     onReconnect := default Returns (u_onReconnect o);
     onConnect := default Returns (u_onConnect o);
     onDisconnect := default Returns (u_onDisconnect o);
     onAuthSuccess := default Returns (u_onAuthSuccess o);
     onAuthFailure := default Returns (u_onAuthFailure o) |}.

Definition no_options : UserOptions :=
  {| u_reconnectInterval := None; u_heartbeatInterval := None;
     u_authToken := None; u_onMessage := None; u_onReconnect := None;
     u_onConnect := None; u_onDisconnect := None; u_onAuthSuccess := None;
     u_onAuthFailure := None |}.

(** [socket] is [None] for [null], else the ready state of the socket;
    [writeThrows] says whether [socket.send] throws. *)
Record WSClient := {
  options : Options;
  socket : option ReadyState;
  writeThrows : bool;
  reconnectAttempts : nat;
  heartbeatTimer : bool;
  authenticated : bool;
  isConnecting : bool;
  userId : JsStr;
  requestCallbacks : gmap string Entry;
  log : list Event
}.

Definition with_log (e : Event) (c : WSClient) : WSClient :=
  {| options := options c; socket := socket c; writeThrows := writeThrows c;
     reconnectAttempts := reconnectAttempts c;
     heartbeatTimer := heartbeatTimer c; authenticated := authenticated c;
     isConnecting := isConnecting c; userId := userId c;
     requestCallbacks := requestCallbacks c; log := log c ++ [e] |}.

Definition with_requestCallbacks (f : gmap string Entry -> gmap string Entry)
    (c : WSClient) : WSClient :=
  {| options := options c; socket := socket c; writeThrows := writeThrows c;
     reconnectAttempts := reconnectAttempts c;
     heartbeatTimer := heartbeatTimer c; authenticated := authenticated c;
     isConnecting := isConnecting c; userId := userId c;
     requestCallbacks := f (requestCallbacks c); log := log c |}.

Definition with_auth (a : bool) (u : JsStr) (c : WSClient) : WSClient :=
  {| options := options c; socket := socket c; writeThrows := writeThrows c;
     reconnectAttempts := reconnectAttempts c;
     heartbeatTimer := heartbeatTimer c; authenticated := a;
     isConnecting := isConnecting c; userId := u;
     requestCallbacks := requestCallbacks c; log := log c |}.

Definition with_authToken (t : JsStr) (c : WSClient) : WSClient :=
  let o := options c in
  {| options :=
       {| reconnectInterval := reconnectInterval o;
          heartbeatInterval := heartbeatInterval o; authToken := t;
          onMessage := onMessage o; onReconnect := onReconnect o;
          onConnect := onConnect o; onDisconnect := onDisconnect o;
          onAuthSuccess := onAuthSuccess o;
          onAuthFailure := onAuthFailure o |};
     socket := socket c; writeThrows := writeThrows c;
     reconnectAttempts := reconnectAttempts c;
     heartbeatTimer := heartbeatTimer c; authenticated := authenticated c;
     isConnecting := isConnecting c; userId := userId c;
     requestCallbacks := requestCallbacks c; log := log c |}.

(** The connection fields: socket, attempt counter, timer, flags. *)
Definition with_link (sock : option ReadyState) (attempts : nat)
    (timer connecting auth : bool) (c : WSClient) : WSClient :=
  {| options := options c; socket := sock; writeThrows := writeThrows c;
     reconnectAttempts := attempts; heartbeatTimer := timer;
     authenticated := auth; isConnecting := connecting; userId := userId c;
     requestCallbacks := requestCallbacks c; log := log c |}.

(** The constructor, without the automatic [connect()]. *)
Definition new_WSClient (o : UserOptions) : WSClient :=
  {| options := merge_options o; socket := None; writeThrows := false;
     reconnectAttempts := 0; heartbeatTimer := false; authenticated := false;
     isConnecting := false; userId := None; requestCallbacks := ∅;
     log := [] |}.

(** Invoking a callback: the call is recorded, then it returns or throws. *)
Definition call (cb : Callback) (e : Event) : M WSClient unit :=
  modify (with_log e) ;;
  match cb with
  | Returns => ret tt
  | Throws => throw CallbackError
  end.

(** [send(data)]; [e] records the frame written. *)
Definition send (e : Event) : M WSClient bool :=
  let* c := get in
  match socket c with
  | Some OPEN =>
      try_catch
        (if writeThrows c then throw WriteError
         else modify (with_log e) ;; ret true)
        (fun _ => modify (with_log ConsoleError) ;; ret false)
  | _ => modify (with_log ConsoleError) ;; ret false
  end.

Definition authenticate (token : string) : M WSClient bool :=
  modify (with_authToken (Some token)) ;;
  send (WroteAuth token).

(** [connect()]: nothing when a socket is open or connecting, or when a
    connection attempt is under way; else a new socket, connecting. *)
Definition connect (c : WSClient) : WSClient :=
  match socket c with
  | Some OPEN | Some CONNECTING => c
  | _ =>
      if isConnecting c then c
      else with_link (Some CONNECTING) (reconnectAttempts c)
             (heartbeatTimer c) true (authenticated c) c
  end.

(** [_handleOpen()]; the socket that fires the event is open. *)
Definition _handleOpen : M WSClient unit :=
  modify (fun c => with_link (Some OPEN) 0 (heartbeatTimer c) false
                     (authenticated c) c) ;;
  let* c := get in
  (if truthy (authToken (options c))
   then authenticate (default "" (authToken (options c))) ;; ret tt
   else ret tt) ;;
  modify (fun c => with_link (socket c) (reconnectAttempts c) true
                     (isConnecting c) (authenticated c) c) ;;
  let* c := get in
  call (onConnect (options c)) CalledOnConnect.

(** The delay [_reconnect()] hands to [setTimeout]:
    [Math.min(30000, reconnectInterval * Math.pow(1.5, reconnectAttempts))],
    as a rational, that is, without the rounding of double precision.
    For the default interval of 3000 this is the number the code computes:
    the double-precision product is exact up to attempt 28 (375 * 3^n stays
    below 2^53) and from attempt 6 on it is above the cap, where rounding,
    or an overflow to [Infinity], cannot change the minimum.  For another
    interval the code's product can be rounded (0.1 * 1.5 is
    0.15000000000000002 in double precision, not 3/20), and
    [reconnectDelay] then is the exact value the code's number
    approximates: a statement that gives the delay as a number is made for
    the default interval only. *)
Definition reconnectDelay (c : WSClient) : Q :=
  Qmin 30000 (reconnectInterval (options c)
              * Qpower (3 # 2) (Z.of_nat (reconnectAttempts c))).

(** The function [_reconnect()] schedules, run when the delay is over. *)
Definition reconnectTimeout : M WSClient unit :=
  modify (fun c => with_link (socket c) (S (reconnectAttempts c))
                     (heartbeatTimer c) (isConnecting c) (authenticated c) c) ;;
  let* c := get in
  call (onReconnect (options c)) (CalledOnReconnect (reconnectAttempts c)) ;;
  modify connect.

(** [_handleClose(event)]; the socket that fires the event is closed. The
    value returned is the delay of the reconnect it schedules. *)
Definition _handleClose : M WSClient Q :=
  modify (fun c => with_link (Some CLOSED) (reconnectAttempts c) false false
                     false c) ;;
  let* c := get in
  call (onDisconnect (options c)) CalledOnDisconnect ;;
  let* c := get in
  ret (reconnectDelay c).

(** [requestData(requestId, params, callbacks)]. *)
Definition requestData (requestId : string) (callbacks : Callbacks)
  : M WSClient bool :=
  let* c := get in
  if negb (authenticated c) then
    modify (with_log ConsoleError) ;;
    match cb_onError callbacks with
    | Some cb => call cb (CalledOnError requestId) ;; ret false
    | None => ret false
    end
  else
    modify (with_requestCallbacks
              (insert requestId
                 {| onAccepted := cb_onAccepted callbacks;
                    onData := cb_onData callbacks;
                    onError := cb_onError callbacks;
                    once := negb (bool_decide (cb_once callbacks = Some false)) |})) ;;
    send (WroteRequest requestId).

(** [disconnect()]. *)
Definition disconnect (c : WSClient) : WSClient :=
  with_requestCallbacks (fun _ => ∅)
    (with_link None (reconnectAttempts c) false (isConnecting c) false c).

(** [_handleClose(event)] fired by a socket that is no longer
    [this.socket]: [disconnect()] closes the socket and sets [this.socket]
    to [null], and leaves the socket's [onclose] handler in place. *)
Definition _handleClose_detached : M WSClient Q :=
  modify (fun c => with_link (socket c) (reconnectAttempts c) false false
                     false c) ;;
  let* c := get in
  call (onDisconnect (options c)) CalledOnDisconnect ;;
  let* c := get in
  ret (reconnectDelay c).

(** A frame from the server after [JSON.parse]: the fields the client
    reads.  [in_payload] is [Some r] when [payload] is an object, [r] being
    its [requestId]. *)
Record Incoming := {
  in_type : JsStr;
  in_requestId : JsStr;
  in_userId : JsStr;
  in_timestamp : option Z;
  in_payload : option JsStr
}.

Inductive ParsedIn :=
| BadJson
| NullJson
| Value (data : Incoming).

(** [JSON.parse(event.data)] followed by the read of [data.type], which
    throws on [null]. *)
Definition parse (raw : ParsedIn) : M WSClient Incoming :=
  match raw with
  | BadJson => throw SyntaxError
  | NullJson => throw TypeError
  | Value data => ret data
  end.

(** [key && this.requestCallbacks.has(key)], yielding the entry. *)
Definition pending (key : JsStr) (c : WSClient) : option (string * Entry) :=
  if truthy key then
    match requestCallbacks c !! default "" key with
    | Some e => Some (default "" key, e)
    | None => None
    end
  else None.

(** The [switch (data.type)] of [_handleMessage]. *)
Definition dispatch (data : Incoming) (now : Z) : M WSClient unit :=
  let* c := get in
  let type := in_type data in
  if decide (type = Some "auth_success") then
    modify (with_auth true (in_userId data)) ;;
    call (onAuthSuccess (options c)) CalledOnAuthSuccess
  else if decide (type = Some "auth_failure") then
    modify (fun c => with_auth false (userId c) c) ;;
    call (onAuthFailure (options c)) CalledOnAuthFailure
  else if decide (type = Some "ping") then
    send (WrotePong now (in_timestamp data)) ;; ret tt
  else if decide (type = Some "request_accepted") then
    match pending (in_requestId data) c with
    | Some (requestId, callback) =>
        match onAccepted callback with
        | Some cb => call cb (CalledOnAccepted requestId)
        | None => ret tt
        end
    | None => ret tt
    end
  else if decide (type = Some "data") then
    match in_payload data with
    | Some payloadRequestId =>
        match pending payloadRequestId c with
        | Some (requestId, callback) =>
            match onData callback with
            | Some cb =>
                call cb (CalledOnData requestId) ;;
                if once callback
                then modify (with_requestCallbacks (delete requestId))
                else ret tt
            | None => ret tt
            end
        | None => ret tt
        end
    | None => ret tt
    end
  else if decide (type = Some "error") then
    match pending (in_requestId data) c with
    | Some (requestId, callback) =>
        match onError callback with
        | Some cb =>
            call cb (CalledOnError requestId) ;;
            if once callback
            then modify (with_requestCallbacks (delete requestId))
            else ret tt
        | None => ret tt
        end
    | None => ret tt
    end
  else ret tt.

(** [_handleMessage(event)]: everything is inside one try block whose
    catch clause logs to the console. *)
Definition _handleMessage (raw : ParsedIn) (now : Z) : M WSClient unit :=
  try_catch
    (let* data := parse raw in
     dispatch data now ;;
     let* c := get in
     call (onMessage (options c)) CalledOnMessage)
    (fun _ => modify (with_log ConsoleError)).

End Client.

(** ** The task processors *)

Module Tasks.

(** The parsed data file handed to [_sendDataInBatches]: an array, or a
    single value that is wrapped into a one-element array. *)
Inductive JsonData :=
| Arr (elements : list Item)
| Single (x : Item).

(** [items.slice(from, to)] for indices within the array. *)
Definition slice (items : list Item) (from to : nat) : list Item :=
  take (to - from) (drop from items).

(** The result sent for an empty array: no [isFinal], no [batchNumber]. *)
Definition empty_result (task : Task) : Result :=
  {| r_taskId := t_taskId task; r_status := completed;
     r_requestId := t_requestId task; r_batchNumber := None;
     r_data := Some {| d_totalItems := Some 0%nat;
                       d_processedItems := Some 0%nat;
                       d_isFinal := None;
                       d_results := Items [] |} |}.

(** [sendNextBatch] with its captured variables [processedItems] and
    [batchNumber], yielding the results handed to [onComplete], oldest
    first.  [rnd k] is the value of [Math.random() * 10], floored, drawn
    for batch [k]; only its residue modulo 10 is used.  Each firing of the
    timer is one unit of [fuel]; [None] means the fuel ran out. *)
Fixpoint sendNextBatch (fuel : nat) (rnd : nat -> nat) (task : Task)
    (items : list Item) (processedItems batchNumber : nat)
  : option (list Result) :=
  match fuel with
  | O => None
  | S fuel' =>
      let totalItems := length items in
      let batchSize :=
        Nat.min (totalItems - processedItems) (rnd batchNumber mod 10 + 1) in
      let batchItems := slice items processedItems (processedItems + batchSize) in
      let processedItems := (processedItems + batchSize)%nat in
      let batchNumber := (batchNumber + 1)%nat in
      let result :=
        {| r_taskId := t_taskId task;
           r_status := if (totalItems <=? processedItems)%nat
                       then completed else processing;
           r_requestId := t_requestId task;
           r_batchNumber := Some batchNumber;
           r_data := Some {| d_totalItems := Some totalItems;
                             d_processedItems := Some processedItems;
                             d_isFinal := Some (totalItems <=? processedItems)%nat;
                             d_results := Items batchItems |} |} in
      if (processedItems <? totalItems)%nat
      then option_map (cons result)
             (sendNextBatch fuel' rnd task items processedItems batchNumber)
      else Some [result]
  end.

(** [_sendDataInBatches(task, data, onComplete)]. A batch holds at least
    one item, so [totalItems] firings suffice. *)
Definition _sendDataInBatches (rnd : nat -> nat) (task : Task)
    (data : JsonData) : option (list Result) :=
  let items := match data with
               | Arr elements => elements
               | Single x => [x]
               end in
  let totalItems := length items in
  if decide (totalItems = 0%nat) then Some [empty_result task]
  else sendNextBatch totalItems rnd task items 0 0.

(** [processTask] of the queued task processor: one result, whose two
    counters are two independent draws of [Math.random() * 100], floored. *)
Definition queued_processTask (task : Task) (draw1 draw2 : nat) : Result :=
  {| r_taskId := t_taskId task; r_status := completed;
     r_requestId := t_requestId task; r_batchNumber := None;
     r_data := Some {| d_totalItems := None;
                       d_processedItems := None;
                       d_isFinal := None;
                       d_results := Summary (draw1 mod 100) (draw2 mod 100) |} |}.

End Tasks.

(** ** The broker client ([utils/message-queue.js]) and its consumers *)

Module Broker.

(** The content of a message taken from a queue, as [JSON.parse] sees it:
    not JSON, [null], or the object its producer serialised ([sendTask] for
    the task queue, [sendResult] for the result queue).  Other JSON values
    are not produced by this system and are not modelled. *)
Inductive Content (A : Type) :=
| Garbage
| NullContent
| Object (a : A).
Arguments Garbage {A}.
Arguments NullContent {A}.
Arguments Object {A} a.

(** A delivery: the message, under the tag by which it is acknowledged. *)
Record Delivery (A : Type) := {
  tag : nat;
  content : Content A
}.
Arguments tag {A} _.
Arguments content {A} _.

(** The [messageQueue] object of a process, with what it has published
    and settled, oldest first.  [acked] and [nacked] hold delivery tags; a
    negative acknowledgement requeues the message. *)
Record Channel := {
  connected : bool;
  taskQueue : list Task;
  resultQueue : list (JsStr * Result);
  acked : list nat;
  nacked : list nat
}.

Definition publish_task (t : Task) (ch : Channel) : Channel :=
  {| connected := connected ch; taskQueue := taskQueue ch ++ [t];
     resultQueue := resultQueue ch; acked := acked ch; nacked := nacked ch |}.

Definition publish_result (u : JsStr) (r : Result) (ch : Channel) : Channel :=
  {| connected := connected ch; taskQueue := taskQueue ch;
     resultQueue := resultQueue ch ++ [(u, r)];
     acked := acked ch; nacked := nacked ch |}.

Definition ack (t : nat) (ch : Channel) : Channel :=
  {| connected := connected ch; taskQueue := taskQueue ch;
     resultQueue := resultQueue ch; acked := acked ch ++ [t];
     nacked := nacked ch |}.

Definition nack (t : nat) (ch : Channel) : Channel :=
  {| connected := connected ch; taskQueue := taskQueue ch;
     resultQueue := resultQueue ch; acked := acked ch;
     nacked := nacked ch ++ [t] |}.

(** [sendTask(task)]: throws when the broker is not connected (a failed
    publish is a [WriteError] here). *)
Definition sendTask (task : Task) : M Channel unit :=
  let* ch := get in
  if negb (connected ch) then throw WriteError
  else modify (publish_task task).

(** [sendResult(userId, result)]. *)
Definition sendResult (userId : JsStr) (result : Result) : M Channel unit :=
  let* ch := get in
  if negb (connected ch) then throw WriteError
  else modify (publish_result userId result).

(** The task processor's [processTask(task)]: the work is simulated, the
    result is published; [draw1] and [draw2] are its two random counters.
    [null] cannot be destructured. *)
Definition processTask (c : Content Task) (draw1 draw2 : nat)
  : M Channel Result :=
  match c with
  | Object task =>
      let result := Tasks.queued_processTask task draw1 draw2 in
      sendResult (t_userId task) result ;;
      ret result
  | _ => throw TypeError
  end.

(** [JSON.parse(msg.content.toString())]. *)
Definition parse_content {S A} (c : Content A) : M S (Content A) :=
  match c with
  | Garbage => throw SyntaxError
  | v => ret v
  end.

(** The function [consumeTasks] hands to the channel, with the task
    processor's callback: acknowledge once the callback is through,
    requeue when anything throws.  A [null] message (consumer cancelled) is
    ignored. *)
Definition onTaskMessage (msg : option (Delivery Task)) (draw1 draw2 : nat)
  : M Channel unit :=
  match msg with
  | None => ret tt
  | Some d =>
      try_catch
        (let* task := parse_content (content d) in
         processTask task draw1 draw2 ;;
         modify (ack (tag d)))
        (fun _ => modify (nack (tag d)))
  end.

(** The connection-serving process: the server and its channel. *)
Record ServerProcess := {
  server : Server;
  channel : Channel
}.

(** Run a server computation inside the process. *)
Definition in_server {A} (c : M Server A) : M ServerProcess A :=
  fun p =>
    let '(r, s') := c (server p) in
    (r, {| server := s'; channel := channel p |}).

Definition in_channel (f : Channel -> Channel) : M ServerProcess unit :=
  modify (fun p => {| server := server p; channel := f (channel p) |}).

(** The callback of [_setupMessageQueueConsumer]:
    [const { userId, result } = data; this._sendToUser(userId, {type: 'data',
    payload: result})]. *)
Definition onResult (data : Content (JsStr * Result)) : M ServerProcess unit :=
  match data with
  | Object (userId, result) =>
      in_server (Queued._sendToUser userId (Data result)) ;; ret tt
  | _ => throw TypeError
  end.

(** The function [consumeResults] hands to the channel, with the server's
    callback. *)
Definition onResultMessage (msg : option (Delivery (JsStr * Result)))
  : M ServerProcess unit :=
  match msg with
  | None => ret tt
  | Some d =>
      try_catch
        (let* data := parse_content (content d) in
         onResult data ;;
         in_channel (ack (tag d)))
        (fun _ => in_channel (nack (tag d)))
  end.

End Broker.

(** ** The batching task processor as a whole ([task-processor.js]) *)

Module Processor.

(** An entry of [this.tasks]. *)
Record TaskRecord := {
  k_task : Task;
  k_status : Status;
  k_createdAt : Z;
  k_completedAt : option Z
}.

Definition with_status (st : Status) (done : option Z) (k : TaskRecord)
  : TaskRecord :=
  {| k_task := k_task k; k_status := st; k_createdAt := k_createdAt k;
     k_completedAt := done |}.

(** [createTask(userId, requestData)]; [taskId] is the id drawn, [now] the
    clock.  The value returned is [{taskId, status: 'pending'}]. *)
Definition createTask (userId requestId : JsStr) (taskId : string) (now : Z)
    (tasks : gmap string TaskRecord)
  : (string * Status) * gmap string TaskRecord :=
  ((taskId, pending),
   <[taskId := {| k_task := {| t_taskId := taskId; t_userId := userId;
                               t_requestId := requestId |};
                  k_status := pending; k_createdAt := now;
                  k_completedAt := None |}]> tasks).

(** [getTaskStatus(taskId)]: [null] for an unknown id. *)
Definition getTaskStatus (taskId : string) (tasks : gmap string TaskRecord)
  : option (string * Status * Z * option Z) :=
  match tasks !! taskId with
  | Some k => Some (t_taskId (k_task k), k_status k, k_createdAt k,
                    k_completedAt k)
  | None => None
  end.

(** A result reporting an error: [{taskId, status: 'error', requestId,
    error, timestamp}], without a [data] field. *)
Definition error_result (task : Task) : Result :=
  {| r_taskId := t_taskId task; r_status := failed;
     r_requestId := t_requestId task; r_batchNumber := None;
     r_data := None |}.

(** A line of the data file of the line-by-line variant: blank, a line
    that parses, a line that parses once repaired (trailing comma, raw line
    breaks), a line that does not. *)
Inductive Line :=
| Blank
| Parses (x : Item)
| Repaired (x : Item)
| Broken.

(** The data file as [fs.readFile] and [JSON.parse] see it. *)
Inductive File :=
| Unreadable
| Lines (ls : list Line)
| Whole (parsed : option Tasks.JsonData).

(** The objects collected from the lines, in file order. *)
Definition collect (ls : list Line) : list Item :=
  flat_map (fun l => match l with
                     | Parses x | Repaired x => [x]
                     | Blank | Broken => []
                     end) ls.

(** The callback [_processJsonFile] hands to [fs.readFile], in its two
    variants: the file read line by line ([Lines]), or parsed in one go
    ([Whole], [None] when it is not JSON).  The results handed to
    [onComplete], oldest first; [None] only if the batching ran out of
    fuel. *)
Definition readFile_callback (rnd : nat -> nat) (task : Task) (file : File)
  : option (list Result) :=
  match file with
  | Unreadable => Some [error_result task]
  | Lines ls =>
      let jsonData := collect ls in
      if decide (length jsonData = 0%nat) then Some [error_result task]
      else Tasks._sendDataInBatches rnd task (Tasks.Arr jsonData)
  | Whole None => Some [error_result task]
  | Whole (Some jsonData) => Tasks._sendDataInBatches rnd task jsonData
  end.

(** Which of the two processors runs. *)
Inductive Variant := LineByLine | WholeFile.

(** The data file on disk when a task is processed: there, with what
    reading it yields, or missing.  When it is missing the processor writes
    its sample file first: [writeThrows] says whether [fs.writeFileSync]
    throws (no such directory, no permission), [readFails] whether the file
    just written can then not be read. *)
Inductive Disk :=
| Present (file : File)
| Missing (variant : Variant) (writeThrows readFails : bool).

(** The sample file of [_createSampleData()]: an array of 100 objects,
    written by [JSON.stringify(sampleData, null, 2)] over 1202 lines (two
    brackets, twelve lines an object).  Parsed in one go it is the array.
    Read line by line no line is JSON, as it is or repaired: a line holds a
    bracket, a brace (with a comma after it for every object but the last),
    or one ["key": value] pair, and the repair only removes a comma that
    stands before a closing brace or bracket ending the line. *)
Definition sample_file (variant : Variant) : File :=
  match variant with
  | LineByLine => Lines (repeat Broken 1202)
  | WholeFile => Whole (Some (Tasks.Arr (seq 0 100)))
  end.

(** The synchronous start of [_processJsonFile]:
    [if (!fs.existsSync(path)) this._createSampleData()], whose
    [fs.writeFileSync] is inside no try block and throws ([WriteError]
    stands for the error); the value is what [fs.readFile] then yields. *)
Definition open_file (disk : Disk) : Outcome File :=
  match disk with
  | Present file => Ok file
  | Missing _ true _ => Throw WriteError
  | Missing variant false readFails =>
      Ok (if readFails then Unreadable else sample_file variant)
  end.

(** [_processJsonFile(task, onComplete)]: the results handed to
    [onComplete], or the exception thrown before the file is read. *)
Definition _processJsonFile (rnd : nat -> nat) (task : Task) (disk : Disk)
  : Outcome (option (list Result)) :=
  match open_file disk with
  | Throw e => Throw e
  | Ok file => Ok (readFile_callback rnd task file)
  end.

(** Whether the run reaches the end of [sendNextBatch], where the task is
    marked completed: the data was read and the dataset is not empty. *)
Definition reaches_completion (file : File) : bool :=
  match file with
  | Unreadable => false
  | Lines ls => negb (bool_decide (length (collect ls) = 0%nat))
  | Whole None => false
  | Whole (Some (Tasks.Arr elements)) =>
      negb (bool_decide (length elements = 0%nat))
  | Whole (Some (Tasks.Single _)) => true
  end.

Definition completes (disk : Disk) : bool :=
  match open_file disk with
  | Ok file => reaches_completion file
  | Throw _ => false
  end.

(** [processTask(taskId, onComplete)] followed to the end of the run, on
    the store [this.tasks]: [false] for an unknown task; else the task is
    marked processing and the file is processed, which can throw; the task
    is marked completed, at time [doneAt], when the last batch has been
    sent.  The value is the boolean returned with the results handed to
    [onComplete]. *)
Definition processTask (rnd : nat -> nat) (taskId : string) (disk : Disk)
    (doneAt : Z)
  : M (gmap string TaskRecord) (bool * option (list Result)) :=
  let* tasks := get in
  match tasks !! taskId with
  | None => ret (false, Some [])
  | Some k =>
      modify (insert taskId (with_status processing (k_completedAt k) k)) ;;
      match _processJsonFile rnd (k_task k) disk with
      | Throw e => throw e
      | Ok emitted =>
          (if completes disk
           then modify (insert taskId (with_status completed (Some doneAt) k))
           else ret tt) ;;
          ret (true, emitted)
      end
  end.

End Processor.

(** ** The test client ([tests/ws-client.js]) *)

Module TestClient.

Import Client (Callback, Returns, Throws).

(** A message from the server as the test client receives it: not JSON,
    [null], or one of the frames the servers write.  Other JSON values are
    not sent by the servers and are not modelled. *)
Inductive Inbound :=
| BadJson
| NullJson
| FromServer (message : Frame).

(** [message.type] and the top-level [message.requestId] of a frame, as the
    servers build them; [JSON.stringify] leaves out an undefined field. *)
Definition frame_type (f : Frame) : string :=
  match f with
  | Welcome _ => "welcome"
  | AuthSuccess _ => "auth_success"
  | AuthFailure _ => "auth_failure"
  | Ping _ => "ping"
  | Pong _ _ => "pong"
  | RequestAccepted _ _ => "request_accepted"
  | ErrorFrame _ _ => "error"
  | Data _ => "data"
  end.

Definition frame_requestId (f : Frame) : JsStr :=
  match f with
  | RequestAccepted requestId _ => requestId
  | ErrorFrame requestId _ => requestId
  | _ => None
  end.

(** [message.message], read by the handlers for an [error] frame only. *)
Definition frame_message (f : Frame) : JsStr :=
  match f with
  | ErrorFrame _ message => Some message
  | AuthFailure message => Some message
  | _ => None
  end.

(** The promise handed out by [requestData]. *)
Inductive Promise :=
| Pending
| Resolved (message : Frame)
| Rejected (reason : JsStr).

Inductive Written :=
| WroteAuth (token : string)
| WrotePing (timestamp : Z)
| WroteRequest (requestId : string).

(** [this.options], without [debug] and the two intervals. *)
Record Options := {
  autoReconnect : bool;
  onOpen : Callback;
  onMessage : Callback;
  onClose : Callback
}.

Record UserOptions := {
  u_autoReconnect : option bool;
  u_token : JsStr;
  u_onOpen : option Callback;
  u_onMessage : option Callback;
  u_onClose : option Callback
}.

(** The defaults of the constructor; [autoReconnect] is
    [options.autoReconnect || true]. *)
Definition merge_options (o : UserOptions) : Options :=
  {| autoReconnect := default false (u_autoReconnect o) || true;
     onOpen := default Returns (u_onOpen o);
     onMessage := default Returns (u_onMessage o);
     onClose := default Returns (u_onClose o) |}.

(** The test client.  [promises] holds the promises handed out, oldest
    first; a handler in [messageHandlers] settles the promise whose index
    it holds.  [hasSocket] says whether [this.ws] is set, [writeThrows]
    whether [ws.send] throws, [sockets] counts the sockets created and
    [scheduled] the calls of [connect()] waiting on a timer. *)
Record TestWSClient := {
  options : Options;
  hasSocket : bool;
  writeThrows : bool;
  connected : bool;
  authenticated : bool;
  heartbeatTimer : bool;
  token : JsStr;
  userId : JsStr;
  messageHandlers : gmap string nat;
  promises : list Promise;
  written : list Written;
  sockets : nat;
  scheduled : nat
}.

Definition with_link (sock conn auth timer : bool) (c : TestWSClient)
  : TestWSClient :=
  {| options := options c; hasSocket := sock; writeThrows := writeThrows c;
     connected := conn; authenticated := auth; heartbeatTimer := timer;
     token := token c; userId := userId c;
     messageHandlers := messageHandlers c; promises := promises c;
     written := written c; sockets := sockets c; scheduled := scheduled c |}.

Definition with_identity (t u : JsStr) (c : TestWSClient) : TestWSClient :=
  {| options := options c; hasSocket := hasSocket c;
     writeThrows := writeThrows c; connected := connected c;
     authenticated := authenticated c; heartbeatTimer := heartbeatTimer c;
     token := t; userId := u;
     messageHandlers := messageHandlers c; promises := promises c;
     written := written c; sockets := sockets c; scheduled := scheduled c |}.

Definition with_requests (h : gmap string nat) (ps : list Promise)
    (c : TestWSClient) : TestWSClient :=
  {| options := options c; hasSocket := hasSocket c;
     writeThrows := writeThrows c; connected := connected c;
     authenticated := authenticated c; heartbeatTimer := heartbeatTimer c;
     token := token c; userId := userId c;
     messageHandlers := h; promises := ps;
     written := written c; sockets := sockets c; scheduled := scheduled c |}.

Definition with_written (w : Written) (c : TestWSClient) : TestWSClient :=
  {| options := options c; hasSocket := hasSocket c;
     writeThrows := writeThrows c; connected := connected c;
     authenticated := authenticated c; heartbeatTimer := heartbeatTimer c;
     token := token c; userId := userId c;
     messageHandlers := messageHandlers c; promises := promises c;
     written := written c ++ [w]; sockets := sockets c;
     scheduled := scheduled c |}.

Definition with_timers (created waiting : nat) (c : TestWSClient)
  : TestWSClient :=
  {| options := options c; hasSocket := hasSocket c;
     writeThrows := writeThrows c; connected := connected c;
     authenticated := authenticated c; heartbeatTimer := heartbeatTimer c;
     token := token c; userId := userId c;
     messageHandlers := messageHandlers c; promises := promises c;
     written := written c; sockets := created; scheduled := waiting |}.

(** The constructor, without the automatic [connect()]. *)
Definition new_TestWSClient (o : UserOptions) : TestWSClient :=
  {| options := merge_options o; hasSocket := false; writeThrows := false;
     connected := false; authenticated := false; heartbeatTimer := false;
     token := js_or (u_token o) None; userId := None;
     messageHandlers := ∅; promises := []; written := [];
     sockets := 0; scheduled := 0 |}.

(** Invoking one of the callbacks of the options. *)
Definition call (cb : Callback) : M TestWSClient unit :=
  match cb with
  | Returns => ret tt
  | Throws => throw CallbackError
  end.

(** [resolve] and [reject] of a promise: a settled promise stays as it
    is. *)
Definition settle (p : nat) (v : Promise) (ps : list Promise) : list Promise :=
  match ps !! p with
  | Some Pending => <[p := v]> ps
  | _ => ps
  end.

(** [connect()]: a new socket, whatever the state. *)
Definition connect (c : TestWSClient) : TestWSClient :=
  with_timers (S (sockets c)) (scheduled c)
    (with_link true (connected c) (authenticated c) (heartbeatTimer c) c).

(** [send(data)]. *)
Definition send (w : Written) : M TestWSClient bool :=
  let* c := get in
  if negb (connected c) then ret false
  else
    try_catch
      (if writeThrows c then throw WriteError
       else modify (with_written w) ;; ret true)
      (fun _ => ret false).

Definition authenticate (t : string) : M TestWSClient bool :=
  modify (fun c => with_identity (Some t) (userId c) c) ;;
  let* c := get in
  if negb (connected c) then ret false
  else send (WroteAuth t).

(** The handler of the socket's [open] event. *)
Definition on_open : M TestWSClient unit :=
  modify (fun c => with_link (hasSocket c) true (authenticated c) true c) ;;
  let* c := get in
  (if truthy (token c)
   then authenticate (default "" (token c)) ;; ret tt
   else ret tt) ;;
  let* c := get in
  call (onOpen (options c)).

(** The handler [requestData] registers for promise [p]: it rejects on an
    [error] message and resolves on any other.  Its [once] flag is set. *)
Definition handler (p : nat) (message : Frame) (c : TestWSClient)
  : TestWSClient :=
  with_requests (messageHandlers c)
    (settle p (if decide (frame_type message = "error")
               then Rejected (frame_message message)
               else Resolved message)
       (promises c)) c.

(** The handler of the socket's [message] event. *)
Definition on_message (raw : Inbound) : M TestWSClient unit :=
  match raw with
  | BadJson => ret tt
  | NullJson => throw TypeError
  | FromServer message =>
      let type := frame_type message in
      (if decide (type = "welcome") then ret tt
       else if decide (type = "auth_success") then
         modify (fun c =>
           with_identity (token c)
             (match message with AuthSuccess u => u | _ => None end)
             (with_link (hasSocket c) (connected c) true (heartbeatTimer c) c))
       else if decide (type = "auth_failure") then
         modify (fun c => with_link (hasSocket c) (connected c) false
                            (heartbeatTimer c) c)
       else if decide (type = "pong") then ret tt
       else
         let* c := get in
         let requestId := frame_requestId message in
         if truthy requestId then
           match messageHandlers c !! default "" requestId with
           | Some p =>
               modify (handler p message) ;;
               modify (fun c => with_requests
                                  (delete (default "" requestId)
                                     (messageHandlers c))
                                  (promises c) c)
           | None => ret tt
           end
         else ret tt) ;;
      let* c := get in
      call (onMessage (options c))
  end.

(** The handler of the socket's [close] event. *)
Definition on_close : M TestWSClient unit :=
  modify (fun c => with_link (hasSocket c) false false false c) ;;
  let* c := get in
  (if autoReconnect (options c)
   then modify (fun c => with_timers (sockets c) (S (scheduled c)) c)
   else ret tt) ;;
  call (onClose (options c)).

(** [requestData(params)], [requestId] being the id drawn; the value is the
    index of the promise returned. *)
Definition requestData (requestId : string) : M TestWSClient nat :=
  let* c := get in
  let p := length (promises c) in
  if negb (connected c) || negb (authenticated c) then
    modify (with_requests (messageHandlers c)
              (promises c ++
                 [Rejected (Some "Not connected or not authenticated")])) ;;
    ret p
  else
    modify (with_requests (<[requestId := p]> (messageHandlers c))
              (promises c ++ [Pending])) ;;
    send (WroteRequest requestId) ;;
    ret p.

(** The function [requestData] hands to [setTimeout] for promise [p], run
    if the timer has not been cleared when the 30 seconds are over. *)
Definition requestTimeout (requestId : string) (p : nat) (c : TestWSClient)
  : TestWSClient :=
  match messageHandlers c !! requestId with
  | Some _ =>
      with_requests (delete requestId (messageHandlers c))
        (settle p (Rejected (Some "Request timeout")) (promises c)) c
  | None => c
  end.

(** [close()]. *)
Definition close (c : TestWSClient) : TestWSClient :=
  with_link false false false false c.

End TestClient.

(** ** Login and the user route ([auth.js], [api-server.js]) *)

Module Login.

(** An entry of the [users] array. *)
Record User := {
  user_id : string;
  user_username : string;
  user_password : string
}.

Definition users : list User :=
  [ {| user_id := "1"; user_username := "user1"; user_password := "password1" |};
    {| user_id := "2"; user_username := "user2"; user_password := "password2" |} ].

(** What a route answers: an error status, the login object
    [{token, user: {id, username}}], or the user object [{id, username}]. *)
Inductive Response :=
| Status (code : nat)
| LoginJson (token : string) (id username : string)
| UserJson (id username : string).

(** [s.split(sep)] for a one-character separator. *)
Fixpoint split (sep : Ascii.ascii) (s : string) : list string :=
  match s with
  | EmptyString => [EmptyString]
  | String ch rest =>
      if Ascii.eqb ch sep then EmptyString :: split sep rest
      else match split sep rest with
           | word :: words => String ch word :: words
           | [] => [String ch EmptyString]
           end
  end.

Section WithJwt.

(** [sign userId] is [jwt.sign({ userId }, secret, { expiresIn })];
    [verifyToken] is the wrapper around [jwt.verify], which yields [null]
    where [jwt.verify] throws. *)
Variable sign : string -> string.
Variable verifyToken : string -> option Decoded.

(** [users.find(u => u.username === username && u.password === password)];
    a field of the request body that is not a string equals no string. *)
Definition find_user (username password : JsStr) : option User :=
  List.find (fun u => bool_decide (Some (user_username u) = username)
                      && bool_decide (Some (user_password u) = password))
    users.

(** [authenticateUser(username, password)]: [null], or
    [{token, user: {id, username}}]. *)
Definition authenticateUser (username password : JsStr)
  : option (string * (string * string)) :=
  match find_user username password with
  | None => None
  | Some user =>
      let token := sign (user_id user) in
      Some (token, (user_id user, user_username user))
  end.

(** [POST /api/login], in both systems. *)
Definition login (username password : JsStr) : Response :=
  match authenticateUser username password with
  | None => Status 401
  | Some (token, (id, name)) => LoginJson token id name
  end.

(** [GET /api/user] with the [Authorization] header [authHeader]. *)
Definition api_user (authHeader : JsStr) : Response :=
  if negb (truthy authHeader)
     || negb (String.prefix "Bearer " (default "" authHeader))
  then Status 401
  else
    let token := split Ascii.Space (default "" authHeader) !! 1%nat in
    match token ≫= verifyToken with
    | None => Status 401
    | Some decoded =>
        match List.find (fun u => bool_decide (Some (user_id u)
                                               = dec_userId decoded)) users with
        | None => Status 404
        | Some user => UserJson (user_id user) (user_username user)
        end
    end.

End WithJwt.

End Login.

(** * Properties *)

(** ** Fan-out *)

(** What one guarded write does to a socket. *)
Definition attempt (data : Frame) (w : WebSocket) : WebSocket :=
  if decide (readyState w = OPEN)
  then log_call (if sendThrows w then SendFailed data else Sent data) w
  else w.

(** The write on this socket succeeds. *)
Definition accepts (w : WebSocket) : bool :=
  bool_decide (readyState w = OPEN) && negb (sendThrows w).

(** The connection is registered and its write succeeds. *)
Definition writable (s : Server) (cid : string) : bool :=
  match clients s !! cid with
  | Some c => accepts (ws c)
  | None => false
  end.

(** The state after the guarded write on connection [cid]. *)
Definition deliver (data : Frame) (s : Server) (cid : string) : Server :=
  match clients s !! cid with
  | Some c =>
      if decide (readyState (ws c) = OPEN)
      then set_clients (insert cid (set_ws (attempt data (ws c)) c)) s
      else s
  | None => s
  end.

Lemma sendToClient_spec cid data s c :
  clients s !! cid = Some c ->
  sendToClient cid data s = (Ok (accepts (ws c)), deliver data s cid).
Proof.
  intros Hc. unfold sendToClient, deliver, attempt, accepts, bind, get.
  rewrite Hc. destruct (decide (readyState (ws c) = OPEN)) as [Ho|Ho].
  - rewrite (bool_decide_eq_true_2 _ Ho).
    unfold try_catch, bind, ws_send. rewrite Hc.
    destruct (sendThrows (ws c)); reflexivity.
  - rewrite (bool_decide_eq_false_2 _ Ho). reflexivity.
Qed.

Lemma deliver_userConnections data s cid :
  userConnections (deliver data s cid) = userConnections s.
Proof.
  unfold deliver. destruct (clients s !! cid); [|done].
  destruct (decide _); done.
Qed.

Lemma deliver_lookup_ne data s cid cid' :
  cid ≠ cid' -> clients (deliver data s cid) !! cid' = clients s !! cid'.
Proof.
  intros Hne. unfold deliver. destruct (clients s !! cid) as [c|]; [|done].
  destruct (decide _); [|done]. simpl. by rewrite lookup_insert_ne.
Qed.

Lemma deliver_lookup_eq data s cid :
  clients (deliver data s cid) !! cid
  = (fun c => set_ws (attempt data (ws c)) c) <$> clients s !! cid.
Proof.
  unfold deliver. destruct (clients s !! cid) as [c|] eqn:Hc.
  - destruct (decide (readyState (ws c) = OPEN)) as [Ho|Ho]; simpl.
    + by rewrite lookup_insert_eq.
    + rewrite Hc. simpl. f_equal. unfold attempt.
      destruct (decide _); [done|]. by destruct c.
  - by rewrite Hc.
Qed.

Lemma deliver_writable data s cid cid' :
  writable (deliver data s cid) cid' = writable s cid'.
Proof.
  unfold writable. destruct (decide (cid = cid')) as [->|Hne].
  - rewrite deliver_lookup_eq. destruct (clients s !! cid') as [c|]; [|done].
    simpl. unfold accepts, attempt. destruct (decide _); done.
  - by rewrite deliver_lookup_ne.
Qed.

Lemma deliver_is_Some data s cid cid' :
  is_Some (clients (deliver data s cid) !! cid') <-> is_Some (clients s !! cid').
Proof.
  destruct (decide (cid = cid')) as [->|Hne].
  - rewrite deliver_lookup_eq. by rewrite fmap_is_Some.
  - by rewrite deliver_lookup_ne.
Qed.

Lemma writable_lookup s cid c :
  clients s !! cid = Some c -> writable s cid = accepts (ws c).
Proof. intros Hc. unfold writable. by rewrite Hc. Qed.

(** The state after the whole loop. *)
Definition fan_out (data : Frame) (s : Server) (l : list string) : Server :=
  foldl (deliver data) s l.

Lemma filter_writable_deliver data s cid (l : list string) :
  filter (fun c => writable (deliver data s cid) c = true) l
  = filter (fun c => writable s c = true) l.
Proof.
  induction l as [|x l IH]; [done|].
  rewrite !filter_cons, IH, deliver_writable. done.
Qed.

Lemma Direct_send_loop_spec data (l : list string) : forall s n,
  Forall (fun cid => is_Some (clients s !! cid)) l ->
  Direct.send_loop data l n s
  = (Ok (n + length (filter (fun c => writable s c = true) l))%nat,
     fan_out data s l).
Proof.
  induction l as [|cid l IH]; intros s n Hall.
  - simpl. unfold ret. by rewrite Nat.add_0_r.
  - inversion Hall as [|? ? [c Hc] Hall']; subst.
    simpl. unfold bind at 1. rewrite (sendToClient_spec _ _ _ _ Hc).
    rewrite IH.
    + rewrite filter_writable_deliver, filter_cons, (writable_lookup _ _ _ Hc).
      destruct (accepts (ws c)); simpl.
      * f_equal. f_equal. lia.
      * done.
    + eapply Forall_impl; [exact Hall'|]. intros x Hx. by apply deliver_is_Some.
Qed.

Lemma Queued_send_loop_spec data (l : list string) : forall s n,
  Queued.send_loop data l n s
  = (Ok (n + length (filter (fun c => writable s c = true) l))%nat,
     fan_out data s l).
Proof.
  induction l as [|cid l IH]; intros s n.
  - simpl. unfold ret. by rewrite Nat.add_0_r.
  - simpl. unfold bind at 1, get.
    destruct (clients s !! cid) as [c|] eqn:Hc.
    + unfold bind at 1. rewrite (sendToClient_spec _ _ _ _ Hc).
      rewrite IH, filter_writable_deliver, filter_cons, (writable_lookup _ _ _ Hc).
      destruct (accepts (ws c)); simpl.
      * f_equal. f_equal. lia.
      * done.
    + assert (Hw : writable s cid = false) by (unfold writable; by rewrite Hc).
      assert (Hd : deliver data s cid = s) by (unfold deliver; by rewrite Hc).
      rewrite IH, filter_cons, Hw. unfold fan_out. simpl. by rewrite Hd.
Qed.

Lemma fan_out_cons data s x (l : list string) :
  fan_out data s (x :: l) = fan_out data (deliver data s x) l.
Proof. reflexivity. Qed.

Lemma fan_out_lookup_notin data (l : list string) : forall s cid,
  cid ∉ l -> clients (fan_out data s l) !! cid = clients s !! cid.
Proof.
  induction l as [|x l IH]; intros s cid Hn; [done|].
  apply not_elem_of_cons in Hn as [Hne Hn].
  rewrite fan_out_cons, IH by done.
  by apply deliver_lookup_ne.
Qed.

Lemma fan_out_lookup_in data (l : list string) : forall s cid,
  NoDup l -> cid ∈ l ->
  clients (fan_out data s l) !! cid
  = (fun c => set_ws (attempt data (ws c)) c) <$> clients s !! cid.
Proof.
  induction l as [|x l IH]; intros s cid Hnd Hin.
  - by apply elem_of_nil in Hin.
  - apply NoDup_cons in Hnd as [Hx Hnd].
    rewrite fan_out_cons.
    apply elem_of_cons in Hin as [->|Hin].
    + rewrite (fan_out_lookup_notin data l _ x Hx). apply deliver_lookup_eq.
    + rewrite IH by done. rewrite deliver_lookup_ne; [done|].
      intros ->. contradiction.
Qed.

Lemma fan_out_userConnections data (l : list string) : forall s,
  userConnections (fan_out data s l) = userConnections s.
Proof.
  induction l as [|x l IH]; intros s; [done|].
  by rewrite fan_out_cons, IH, deliver_userConnections.
Qed.

(** C1. Fan-out to a user, in both servers.  With [l] the user's
    connection set: the call returns normally (it never throws); the value
    returned is the number of connections of [l] whose write succeeded,
    which is 0 when the user has no connections, and then nothing changes;
    every connection of [l] has had its guarded write attempted, whether or
    not the write on another connection failed; connections outside [l]
    and the registry are untouched.  A Set holds no duplicates; for the
    direct server, whose Sets hold object references, the objects
    referenced exist. *)
Theorem C1_fan_out_counts_successful_writes
    (s : Server) (uid : JsStr) (data : Frame) :
  let l := connectionsFor s uid in
  NoDup l ->
  exists (n : nat) (s' : Server),
    Queued._sendToUser uid data s = (Ok n, s')
    /\ (Forall (fun cid => is_Some (clients s !! cid)) l ->
        Direct.sendToUser uid data s = (Ok n, s'))
    /\ n = length (filter (fun cid => writable s cid = true) l)
    /\ (l = [] -> n = 0%nat /\ s' = s)
    /\ (forall cid c, cid ∈ l -> clients s !! cid = Some c ->
          clients s' !! cid = Some (set_ws (attempt data (ws c)) c))
    /\ (forall cid, cid ∉ l -> clients s' !! cid = clients s !! cid)
    /\ userConnections s' = userConnections s.
Proof.
  intros l Hnd.
  exists (length (filter (fun cid => writable s cid = true) l)),
         (fan_out data s l).
  split.
  { unfold Queued._sendToUser, bind, get. subst l. unfold connectionsFor in *.
    destruct (userConnections s !! uid) as [conns|]; [|done]. simpl in *.
    case_decide as Hlen.
    - apply length_zero_iff_nil in Hlen. by subst.
    - by rewrite Queued_send_loop_spec. }
  split.
  { intros Hall.
    unfold Direct.sendToUser, bind, get. subst l. unfold connectionsFor in *.
    destruct (userConnections s !! uid) as [conns|]; [|done]. simpl in *.
    case_decide as Hlen.
    - apply length_zero_iff_nil in Hlen. by subst.
    - by rewrite Direct_send_loop_spec. }
  split; [done|].
  split; [intros ->; done|].
  split.
  { intros cid c Hin Hc. rewrite fan_out_lookup_in by done. by rewrite Hc. }
  split.
  { intros cid Hn. by apply fan_out_lookup_notin. }
  apply fan_out_userConnections.
Qed.

(** The scenario of the specification: user "1" holds connections A and
    B, both open; the write on A throws, the write on B succeeds. *)
Definition open_socket (throws : bool) : WebSocket :=
  {| readyState := OPEN; sendThrows := throws; calls := [] |}.

Definition client_of (cid : string) (uid : JsStr) (w : WebSocket) : ClientState :=
  {| clientId := cid; ws := w; userId := uid; authenticated := true;
     lastHeartbeat := 0; heartbeat := true |}.

Definition server_AB : Server :=
  {| clients := <["A" := client_of "A" (Some "1") (open_socket true)]>
                (<["B" := client_of "B" (Some "1") (open_socket false)]> ∅);
     userConnections := <[Some "1" := ["A"; "B"]]> ∅;
     submitted := [] |}.

(** A [data] frame carrying a one-batch result. *)
Definition sample_data : Frame :=
  Data {| r_taskId := "task-1"; r_status := completed;
          r_requestId := Some "req-1"; r_batchNumber := Some 1%nat;
          r_data := Some {| d_totalItems := Some 1%nat;
                            d_processedItems := Some 1%nat;
                            d_isFinal := Some true;
                            d_results := Items [0%nat] |} |}.

Lemma C1_fan_out_witness :
  exists s',
    Direct.sendToUser (Some "1") sample_data server_AB = (Ok 1%nat, s')
    /\ Queued._sendToUser (Some "1") sample_data server_AB = (Ok 1%nat, s')
    /\ (calls <$> (ws <$> clients s' !! "A")) = Some [SendFailed sample_data]
    /\ (calls <$> (ws <$> clients s' !! "B")) = Some [Sent sample_data].
Proof.
  assert (Hnd : NoDup (connectionsFor server_AB (Some "1"))).
  { compute_done. }
  assert (Hall : Forall (fun cid => is_Some (clients server_AB !! cid))
                   (connectionsFor server_AB (Some "1"))).
  { compute_done. }
  destruct (C1_fan_out_counts_successful_writes server_AB (Some "1")
              sample_data Hnd)
    as (n & s' & Hq & Hd & Hn & _ & Hin & _ & _).
  exists s'. vm_compute in Hn. subst n.
  split; [exact (Hd Hall)|]. split; [exact Hq|].
  split.
  - rewrite (Hin "A" (client_of "A" (Some "1") (open_socket true)));
      [reflexivity | compute_done | reflexivity].
  - rewrite (Hin "B" (client_of "B" (Some "1") (open_socket false)));
      [reflexivity | compute_done | reflexivity].
Defined.

(** ** Authentication in the queued server *)

(** A handler that only answers with one frame. *)
Lemma reply_only cid data s c :
  clients s !! cid = Some c ->
  (sendToClient cid data ;; ret tt) s = (Ok tt, deliver data s cid).
Proof.
  intros Hc. unfold bind. by rewrite (sendToClient_spec _ _ _ _ Hc).
Qed.

(** C10. An auth frame whose token verifies but whose payload has neither
    [userId] nor [sub]: the queued server answers [auth_failure] on that
    connection (the guarded write of that frame is all that happens to the
    socket), the connection's [authenticated] flag and [userId] keep their
    values, so a flag that was false stays false, and the registry is
    unchanged. *)
Theorem C10_token_without_user_id_is_rejected
    (verifyToken : string -> option Decoded)
    (s : Server) (cid : string) (c : ClientState)
    (message : Message) (token : string) (decoded : Decoded) :
  clients s !! cid = Some c ->
  msg_token message = Some token ->
  token ≠ "" ->
  verifyToken token = Some decoded ->
  dec_userId decoded = None ->
  dec_sub decoded = None ->
  exists s' c',
    Queued._handleAuth verifyToken message cid s = (Ok tt, s')
    /\ clients s' !! cid = Some c'
    /\ ws c' = attempt (AuthFailure "Invalid token: no user ID") (ws c)
    /\ authenticated c' = authenticated c
    /\ userId c' = userId c
    /\ (authenticated c = false -> authenticated c' = false)
    /\ userConnections s' = userConnections s
    /\ (forall cid', cid' ≠ cid -> clients s' !! cid' = clients s !! cid').
Proof.
  intros Hc Htok Hne Hver Hu Hs.
  exists (deliver (AuthFailure "Invalid token: no user ID") s cid),
         (set_ws (attempt (AuthFailure "Invalid token: no user ID") (ws c)) c).
  assert (Htruthy : truthy (Some token) = true).
  { simpl. destruct (String.eqb_spec token ""); [contradiction|done]. }
  split.
  { unfold Queued._handleAuth. rewrite Htok, Htruthy. simpl.
    rewrite Hver, Hu, Hs. simpl. exact (reply_only _ _ _ _ Hc). }
  split. { rewrite deliver_lookup_eq, Hc. done. }
  split; [done|]. split; [done|]. split; [done|]. split; [done|].
  split. { apply deliver_userConnections. }
  intros cid' Hne'. by apply deliver_lookup_ne.
Qed.

(** A verifier that accepts the single token "anon", whose payload names
    no user. *)
Definition verify_anon (token : string) : option Decoded :=
  if decide (token = "anon")
  then Some {| dec_userId := None; dec_sub := None |}
  else None.

Definition fresh_client (cid : string) : ClientState :=
  new_client cid (open_socket false) 0.

Definition server_one : Server :=
  {| clients := <["c1" := fresh_client "c1"]> ∅;
     userConnections := ∅;
     submitted := [] |}.

Definition auth_message (token : string) : Message :=
  {| msg_type := Some "auth"; msg_token := Some token;
     msg_requestId := None; msg_timestamp := None |}.

Lemma C10_token_without_user_id_witness :
  exists s' c',
    Queued._handleAuth verify_anon (auth_message "anon") "c1" server_one
      = (Ok tt, s')
    /\ clients s' !! "c1" = Some c'
    /\ calls (ws c') = [Sent (AuthFailure "Invalid token: no user ID")]
    /\ authenticated c' = false
    /\ userConnections s' = ∅.
Proof.
  destruct (C10_token_without_user_id_is_rejected verify_anon server_one "c1"
              (fresh_client "c1") (auth_message "anon") "anon"
              {| dec_userId := None; dec_sub := None |})
    as (s' & c' & Hrun & Hc' & Hws & _ & _ & Hflag & Hreg & _);
    [reflexivity | reflexivity | discriminate | reflexivity
    | reflexivity | reflexivity |].
  exists s', c'. split; [exact Hrun|]. split; [exact Hc'|].
  split; [by rewrite Hws|]. split; [by apply Hflag|]. by rewrite Hreg.
Defined.

(** ** The registry invariant *)

(** No connection id sits in the buckets of two different users. *)
Definition one_bucket (s : Server) : Prop :=
  forall u1 u2 l1 l2 cid,
    userConnections s !! u1 = Some l1 ->
    userConnections s !! u2 = Some l2 ->
    cid ∈ l1 -> cid ∈ l2 -> u1 = u2.

(** A verifier for two tokens issued to users "1" and "2". *)
Definition verify_two (token : string) : option Decoded :=
  if decide (token = "t1")
  then Some {| dec_userId := Some "1"; dec_sub := None |}
  else if decide (token = "t2")
  then Some {| dec_userId := Some "2"; dec_sub := None |}
  else None.


(** Connection c1 authenticates as user "1", then again as user "2". *)
Definition reauth_queued : Server :=
  exec (Queued._handleAuth verify_two (auth_message "t2") "c1")
    (exec (Queued._handleAuth verify_two (auth_message "t1") "c1") server_one).

Definition reauth_direct : Server :=
  exec (Direct.handleAuth verify_two "c1" (auth_message "t2"))
    (exec (Direct.handleAuth verify_two "c1" (auth_message "t1")) server_one).

(** C2. The code at the failing input: a connection that authenticates
    for user "1" and then for user "2" is left in both buckets, in both
    servers, so the invariant is broken; and when the connection closes,
    only the bucket of the latest user is cleaned: the bucket of user "1"
    keeps the id of a connection that no longer exists. *)
Theorem C2_reauthentication_leaves_two_buckets :
  userConnections reauth_queued !! Some "1" = Some ["c1"]
  /\ userConnections reauth_queued !! Some "2" = Some ["c1"]
  /\ userConnections reauth_direct !! Some "1" = Some ["c1"]
  /\ userConnections reauth_direct !! Some "2" = Some ["c1"]
  /\ ~ one_bucket reauth_queued
  /\ ~ one_bucket reauth_direct
  /\ userConnections (exec (Queued.onClose "c1") reauth_queued) !! Some "1"
     = Some ["c1"]
  /\ clients (exec (Queued.onClose "c1") reauth_queued) !! "c1" = None
  /\ userConnections (exec (Direct.onClose "c1") reauth_direct) !! Some "1"
     = Some ["c1"].
Proof.
  assert (Hq1 : userConnections reauth_queued !! Some "1" = Some ["c1"])
    by reflexivity.
  assert (Hq2 : userConnections reauth_queued !! Some "2" = Some ["c1"])
    by reflexivity.
  assert (Hd1 : userConnections reauth_direct !! Some "1" = Some ["c1"])
    by reflexivity.
  assert (Hd2 : userConnections reauth_direct !! Some "2" = Some ["c1"])
    by reflexivity.
  repeat split; try done.
  - intros H. specialize (H _ _ _ _ "c1" Hq1 Hq2).
    assert (Some "1" = Some "2") by (apply H; compute_done). discriminate.
  - intros H. specialize (H _ _ _ _ "c1" Hd1 Hd2).
    assert (Some "1" = Some "2") by (apply H; compute_done). discriminate.
Qed.

(** ** Parts of the state a computation leaves alone *)

Section Keeps.

Context {X : Type} (proj : Server -> X).

(** [c] ends, normally or by a throw, with [proj] of the state as it was. *)
Definition keeps {A} (c : M Server A) : Prop :=
  forall s, proj (c s).2 = proj s.

Lemma keeps_ret {A} (a : A) : keeps (ret a).
Proof. done. Qed.

Lemma keeps_throw {A} e : keeps (@throw Server A e).
Proof. done. Qed.

Lemma keeps_get : keeps get.
Proof. done. Qed.

Lemma keeps_bind {A B} (c : M Server A) (k : A -> M Server B) :
  keeps c -> (forall a, keeps (k a)) -> keeps (bind c k).
Proof.
  intros Hc Hk s. unfold bind. specialize (Hc s).
  destruct (c s) as [[a|e] s']; simpl in *; [|done].
  by rewrite Hk.
Qed.

Lemma keeps_try_catch {A} (c : M Server A) (h : Exn -> M Server A) :
  keeps c -> (forall e, keeps (h e)) -> keeps (try_catch c h).
Proof.
  intros Hc Hh s. unfold try_catch. specialize (Hc s).
  destruct (c s) as [[a|e] s']; simpl in *; [done|].
  by rewrite Hh.
Qed.

Lemma keeps_modify (f : Server -> Server) :
  (forall s, proj (f s) = proj s) -> keeps (modify f).
Proof. intros Hf s. apply Hf. Qed.

(** A read of the state followed by a continuation that keeps [proj]. *)
Lemma keeps_get_bind {B} (k : Server -> M Server B) :
  (forall a, keeps (k a)) -> keeps (bind get k).
Proof. intros Hk. apply keeps_bind; [apply keeps_get | exact Hk]. Qed.

Hypothesis deliver_proj : forall data s cid, proj (deliver data s cid) = proj s.

Lemma keeps_sendToClient cid data : keeps (sendToClient cid data).
Proof.
  intros s. destruct (clients s !! cid) as [c|] eqn:Hc.
  - rewrite (sendToClient_spec _ _ _ _ Hc). apply deliver_proj.
  - unfold sendToClient, bind, get. simpl. by rewrite Hc.
Qed.

End Keeps.

(** The projections used below. *)

(** [lastHeartbeat] of a connection. *)
Definition hb (cid : string) (s : Server) : option Z :=
  lastHeartbeat <$> clients s !! cid.

(** What the registry knows of a connection, and its transport state. *)
Definition standing (cid : string) (s : Server)
  : option (JsStr * bool * ReadyState * bool) :=
  (fun c => (userId c, authenticated c, readyState (ws c), heartbeat c))
    <$> clients s !! cid.

Lemma deliver_hb cid data s cid' : hb cid (deliver data s cid') = hb cid s.
Proof.
  unfold hb. destruct (decide (cid' = cid)) as [->|Hne].
  - rewrite deliver_lookup_eq. by destruct (clients s !! cid).
  - by rewrite deliver_lookup_ne.
Qed.

Lemma attempt_readyState data w : readyState (attempt data w) = readyState w.
Proof. unfold attempt. by destruct (decide _). Qed.

Lemma deliver_standing cid data s cid' :
  standing cid (deliver data s cid') = standing cid s.
Proof.
  unfold standing. destruct (decide (cid' = cid)) as [->|Hne].
  - rewrite deliver_lookup_eq. destruct (clients s !! cid) as [c|]; [|done].
    simpl. by rewrite attempt_readyState.
  - by rewrite deliver_lookup_ne.
Qed.

Lemma alter_hb cid cid' (f : ClientState -> ClientState) s :
  (forall c, lastHeartbeat (f c) = lastHeartbeat c) ->
  hb cid (set_clients (alter f cid') s) = hb cid s.
Proof.
  intros Hf. unfold hb. simpl. rewrite lookup_alter.
  case_decide; [|done]. subst.
  destruct (clients s !! cid) as [c|]; [|done]. simpl. by rewrite Hf.
Qed.

Lemma keeps_update_client_hb cid cid' (f : ClientState -> ClientState) :
  (forall c, lastHeartbeat (f c) = lastHeartbeat c) ->
  keeps (hb cid) (update_client cid' f).
Proof. intros Hf s. by apply alter_hb. Qed.

Ltac keeps_hb_step :=
  lazymatch goal with
  | |- keeps _ (ret _) => apply keeps_ret
  | |- keeps _ (throw _) => apply keeps_throw
  | |- keeps _ (sendToClient _ _) =>
      apply keeps_sendToClient; intros; apply deliver_hb
  | |- keeps _ (update_client _ _) =>
      apply keeps_update_client_hb; intros []; reflexivity
  | |- keeps _ (modify _) => apply keeps_modify; intros; reflexivity
  | |- keeps _ (bind get _) => apply keeps_get_bind; intros ?
  | |- keeps _ (bind _ _) => apply keeps_bind; [|intros ?]
  | |- keeps _ (match ?x with _ => _ end) => destruct x
  end.

Ltac keeps_hb := repeat keeps_hb_step.

Lemma Direct_dispatch_keeps_hb verifyToken cid cid' message taskId :
  keeps (hb cid) (Direct.dispatch verifyToken cid' message taskId).
Proof.
  unfold Direct.dispatch, Direct.handleAuth, Direct.handleDataRequest, get_type.
  keeps_hb.
Qed.

Lemma Queued_dispatch_keeps_hb verifyToken cid cid' message now mq taskId :
  keeps (hb cid) (Queued.dispatch verifyToken message cid' now mq taskId).
Proof.
  unfold Queued.dispatch, Queued._handleAuth, Queued._handlePing,
    Queued._handleDataRequest, get_type.
  keeps_hb.
Qed.

(** ** Liveness refresh on inbound frames *)

Lemma JSON_parse_ok (data : Parsed) (s : Server) :
  data ≠ NotJson -> JSON_parse data s = (Ok data, s).
Proof. by destruct data. Qed.

Lemma hb_after_refresh cid c now s :
  clients s !! cid = Some c ->
  hb cid (set_clients (alter (set_lastHeartbeat now) cid) s) = Some now.
Proof.
  intros Hc. unfold hb. simpl. rewrite lookup_alter.
  case_decide; [|done]. by rewrite Hc.
Qed.

Lemma keeps_hb_reply cid cid' data :
  keeps (hb cid) (sendToClient cid' data ;; ret tt).
Proof. keeps_hb. Qed.

(** Processing the frame leaves [lastHeartbeat] of the connection at
    [now]. *)
Definition refreshes (handler : M Server unit) (cid : string) (now : Z)
    (s : Server) : Prop :=
  hb cid (exec handler s) = Some now.

Lemma Direct_onMessage_refreshes verifyToken s cid c data now taskId :
  clients s !! cid = Some c ->
  data ≠ NotJson ->
  refreshes (Direct.onMessage verifyToken cid data now taskId) cid now s.
Proof.
  intros Hc Hd. unfold refreshes, exec, Direct.onMessage, try_catch.
  unfold bind at 1. rewrite (JSON_parse_ok _ _ Hd).
  unfold bind at 1, update_client, modify.
  pose proof (Direct_dispatch_keeps_hb verifyToken cid cid data taskId
                (set_clients (alter (set_lastHeartbeat now) cid) s)) as Hk.
  rewrite (hb_after_refresh _ _ _ _ Hc) in Hk.
  destruct (Direct.dispatch verifyToken cid data taskId _) as [[[]|e] s2];
    simpl in *; [done|].
  by rewrite keeps_hb_reply.
Qed.

Lemma Queued_handleMessage_refreshes verifyToken s cid c data now mq taskId :
  clients s !! cid = Some c ->
  data ≠ NotJson ->
  refreshes (Queued._handleMessage verifyToken data cid now mq taskId) cid now s.
Proof.
  intros Hc Hd. unfold refreshes, exec, Queued._handleMessage.
  unfold bind at 1, try_catch, bind at 1. rewrite (JSON_parse_ok _ _ Hd).
  unfold ret at 1. unfold bind at 1, update_client, modify.
  rewrite Queued_dispatch_keeps_hb. by apply hb_after_refresh with c.
Qed.

Lemma Direct_onMessage_NotJson verifyToken s cid c now taskId :
  clients s !! cid = Some c ->
  Direct.onMessage verifyToken cid NotJson now taskId s
  = (Ok tt, deliver (ErrorFrame None "bad message format") s cid).
Proof. intros Hc. exact (reply_only _ _ _ _ Hc). Qed.

Lemma Queued_handleMessage_NotJson verifyToken s cid c now mq taskId :
  clients s !! cid = Some c ->
  Queued._handleMessage verifyToken NotJson cid now mq taskId s
  = (Ok tt, deliver (ErrorFrame None "Invalid JSON message") s cid).
Proof. intros Hc. exact (reply_only _ _ _ _ Hc). Qed.

(** C6, as the code has it. In both servers a frame that parses as JSON,
    whatever its type (auth, ping, pong, request_data, an unknown type, no
    type at all, even [null]), leaves [lastHeartbeat] of the connection at
    the current time; a frame that is not valid JSON leaves [lastHeartbeat]
    as it was. *)
Theorem C6_parsed_frames_refresh_lastHeartbeat
    (verifyToken : string -> option Decoded) (s : Server) (cid : string)
    (c : ClientState) (data : Parsed) (now : Z) (mq : bool) (taskId : string) :
  clients s !! cid = Some c ->
  (data ≠ NotJson ->
     refreshes (Direct.onMessage verifyToken cid data now taskId) cid now s
     /\ refreshes (Queued._handleMessage verifyToken data cid now mq taskId)
          cid now s)
  /\ (data = NotJson ->
        hb cid (exec (Direct.onMessage verifyToken cid data now taskId) s)
          = Some (lastHeartbeat c)
        /\ hb cid (exec (Queued._handleMessage verifyToken data cid now mq taskId) s)
          = Some (lastHeartbeat c)).
Proof.
  intros Hc. split.
  - intros Hd. split.
    + by apply Direct_onMessage_refreshes with c.
    + by apply Queued_handleMessage_refreshes with c.
  - intros ->. unfold exec.
    rewrite (Direct_onMessage_NotJson _ _ _ _ _ _ Hc).
    rewrite (Queued_handleMessage_NotJson _ _ _ _ _ _ _ Hc).
    simpl. rewrite !deliver_hb. unfold hb. by rewrite Hc.
Qed.

Definition typed_message (type : JsStr) : Message :=
  {| msg_type := type; msg_token := None; msg_requestId := None;
     msg_timestamp := None |}.

Lemma C6_parsed_frames_witness :
  refreshes (Direct.onMessage verify_two "c1"
               (JsonValue (typed_message (Some "request_data"))) 5000 "task-1")
    "c1" 5000 server_one
  /\ refreshes (Queued._handleMessage verify_two
                  (JsonValue (typed_message (Some "request_data"))) "c1" 5000
                  true "task-1")
       "c1" 5000 server_one.
Proof.
  apply (C6_parsed_frames_refresh_lastHeartbeat verify_two server_one "c1"
           (fresh_client "c1")
           (JsonValue (typed_message (Some "request_data"))) 5000 true "task-1");
    [reflexivity | discriminate].
Defined.

(** C6 as stated fails on a frame that is not JSON: connection c1 was
    last heard at time 0; a malformed frame arriving at time 5000 leaves
    [lastHeartbeat] at 0 in both servers. *)
Lemma C6_malformed_frame_counterexample :
  ~ refreshes (Direct.onMessage verify_two "c1" NotJson 5000 "task-1")
      "c1" 5000 server_one
  /\ ~ refreshes (Queued._handleMessage verify_two NotJson "c1" 5000 true "task-1")
        "c1" 5000 server_one.
Proof. split; intros H; vm_compute in H; discriminate. Qed.

(** ** Protocol errors *)

(** The types without a case in the switch of each server. *)
Definition Direct_unknown (type : JsStr) : Prop :=
  type ≠ Some "auth" /\ type ≠ Some "pong" /\ type ≠ Some "request_data".

Definition Queued_unknown (type : JsStr) : Prop :=
  type ≠ Some "auth" /\ type ≠ Some "ping" /\ type ≠ Some "request_data".

(** From [s] to [s'] the socket of [cid] has seen the guarded write of
    [f] and nothing else. *)
Definition replied (f : Frame) (s s' : Server) (cid : string) : Prop :=
  exists c c',
    clients s !! cid = Some c /\ clients s' !! cid = Some c'
    /\ ws c' = attempt f (ws c).

(** From [s] to [s'] an [error] frame went out on the socket of [cid]. *)
Definition error_sent (s s' : Server) (cid : string) : Prop :=
  exists c c' rid msg,
    clients s !! cid = Some c /\ clients s' !! cid = Some c'
    /\ calls (ws c') = (calls (ws c) ++ [Sent (ErrorFrame rid msg)])%list.

(** From [s] to [s'] nothing was sent on the socket of [cid]. *)
Definition silent (s s' : Server) (cid : string) : Prop :=
  (ws <$> clients s' !! cid) = (ws <$> clients s !! cid).

(** The connection is as open as it was, authenticated as it was, its
    timer runs as it did; the registry, the other connections and the
    submitted tasks are unchanged. *)
Definition undisturbed (s s' : Server) (cid : string) : Prop :=
  standing cid s' = standing cid s
  /\ userConnections s' = userConnections s
  /\ submitted s' = submitted s
  /\ (forall cid', cid' ≠ cid -> clients s' !! cid' = clients s !! cid').

Lemma deliver_submitted data s cid :
  submitted (deliver data s cid) = submitted s.
Proof.
  unfold deliver. destruct (clients s !! cid); [|done].
  by destruct (decide _).
Qed.

Lemma deliver_undisturbed data s cid : undisturbed s (deliver data s cid) cid.
Proof.
  split; [apply deliver_standing|]. split; [apply deliver_userConnections|].
  split; [apply deliver_submitted|]. intros cid' Hne.
  by apply deliver_lookup_ne.
Qed.

Lemma deliver_replied data s cid c :
  clients s !! cid = Some c -> replied data s (deliver data s cid) cid.
Proof.
  intros Hc. exists c, (set_ws (attempt data (ws c)) c).
  split; [done|]. split; [|done]. by rewrite deliver_lookup_eq, Hc.
Qed.

Lemma replied_error_sent rid msg s s' cid c :
  clients s !! cid = Some c -> accepts (ws c) = true ->
  replied (ErrorFrame rid msg) s s' cid -> error_sent s s' cid.
Proof.
  intros Hc Hacc (c0 & c' & Hc0 & Hc' & Hws).
  rewrite Hc in Hc0. injection Hc0 as <-.
  exists c, c', rid, msg. split; [done|]. split; [done|].
  rewrite Hws. unfold attempt, accepts in *.
  apply andb_true_iff in Hacc as [Ho Ht].
  apply bool_decide_eq_true in Ho. apply negb_true_iff in Ht.
  destruct (decide _); [|done]. by rewrite Ht.
Qed.

(** The refresh of [lastHeartbeat] alone. *)
Definition refreshed (cid : string) (now : Z) (s : Server) : Server :=
  set_clients (alter (set_lastHeartbeat now) cid) s.

Lemma refreshed_lookup cid now s c :
  clients s !! cid = Some c ->
  clients (refreshed cid now s) !! cid = Some (set_lastHeartbeat now c).
Proof.
  intros Hc. unfold refreshed. simpl. rewrite lookup_alter.
  case_decide; [|done]. by rewrite Hc.
Qed.

Lemma refreshed_undisturbed cid now s : undisturbed s (refreshed cid now s) cid.
Proof.
  unfold refreshed. split.
  { unfold standing. simpl. rewrite lookup_alter. case_decide; [|done].
    by destruct (clients s !! cid). }
  split; [done|]. split; [done|]. intros cid' Hne. simpl.
  rewrite lookup_alter. case_decide; [congruence|done].
Qed.

Lemma undisturbed_trans s1 s2 s3 cid :
  undisturbed s1 s2 cid -> undisturbed s2 s3 cid -> undisturbed s1 s3 cid.
Proof.
  intros (Ha & Hb & Hc & Hd) (Ha' & Hb' & Hc' & Hd').
  split; [congruence|]. split; [congruence|]. split; [congruence|].
  intros cid' Hne. rewrite Hd', Hd; done.
Qed.

Lemma Direct_onMessage_unknown verifyToken s cid c m now taskId :
  clients s !! cid = Some c ->
  Direct_unknown (msg_type m) ->
  Direct.onMessage verifyToken cid (JsonValue m) now taskId s
  = (Ok tt, deliver (ErrorFrame None "unknown message type")
              (refreshed cid now s) cid).
Proof.
  intros Hc (Ha & Hp & Hr).
  pose proof (refreshed_lookup cid now s c Hc) as Hc1.
  unfold Direct.onMessage, try_catch. unfold bind at 1. simpl.
  unfold bind at 1, update_client, modify. fold (refreshed cid now s).
  unfold Direct.dispatch. unfold bind at 1. simpl.
  repeat (case_decide; [contradiction|]).
  by rewrite (reply_only _ _ _ _ Hc1).
Qed.

Lemma Queued_handleMessage_unknown verifyToken s cid m now mq taskId :
  Queued_unknown (msg_type m) ->
  Queued._handleMessage verifyToken (JsonValue m) cid now mq taskId s
  = (Ok tt, refreshed cid now s).
Proof.
  intros (Ha & Hp & Hr).
  unfold Queued._handleMessage. unfold bind at 1. simpl.
  unfold bind at 1, update_client, modify. fold (refreshed cid now s).
  unfold Queued.dispatch. unfold bind at 1. simpl.
  repeat (case_decide; [contradiction|]). done.
Qed.

(** C7, as the code has it. A frame that is not valid JSON: both servers
    answer with an [error] frame on that connection.  A frame with an
    unknown type: the direct server answers with an [error] frame; the
    queued server sends nothing (it logs the frame).  In all four cases the
    handler returns normally and the connection is undisturbed: same ready
    state, no termination, same user and authentication, same registry.
    The answer is the guarded write: it reaches the wire when the socket is
    open and the write goes through. *)
Theorem C7_protocol_errors_keep_the_connection
    (verifyToken : string -> option Decoded) (s : Server) (cid : string)
    (c : ClientState) (m : Message) (now : Z) (mq : bool) (taskId : string) :
  clients s !! cid = Some c ->
  (exists s',
     Direct.onMessage verifyToken cid NotJson now taskId s = (Ok tt, s')
     /\ replied (ErrorFrame None "bad message format") s s' cid
     /\ (accepts (ws c) = true -> error_sent s s' cid)
     /\ undisturbed s s' cid)
  /\ (exists s',
        Queued._handleMessage verifyToken NotJson cid now mq taskId s = (Ok tt, s')
        /\ replied (ErrorFrame None "Invalid JSON message") s s' cid
        /\ (accepts (ws c) = true -> error_sent s s' cid)
        /\ undisturbed s s' cid)
  /\ (Direct_unknown (msg_type m) ->
      exists s',
        Direct.onMessage verifyToken cid (JsonValue m) now taskId s = (Ok tt, s')
        /\ replied (ErrorFrame None "unknown message type") s s' cid
        /\ (accepts (ws c) = true -> error_sent s s' cid)
        /\ undisturbed s s' cid)
  /\ (Queued_unknown (msg_type m) ->
      exists s',
        Queued._handleMessage verifyToken (JsonValue m) cid now mq taskId s
          = (Ok tt, s')
        /\ silent s s' cid
        /\ undisturbed s s' cid).
Proof.
  intros Hc.
  assert (Hrep : forall f, replied f s (deliver f s cid) cid
                           /\ undisturbed s (deliver f s cid) cid).
  { intros f. split; [by apply deliver_replied with c|apply deliver_undisturbed]. }
  split.
  { eexists. split; [exact (Direct_onMessage_NotJson _ _ _ _ _ _ Hc)|].
    destruct (Hrep (ErrorFrame None "bad message format")) as [Hr Hu].
    split; [done|]. split; [|done].
    intros Hacc. by apply replied_error_sent with None "bad message format" c. }
  split.
  { eexists. split; [exact (Queued_handleMessage_NotJson _ _ _ _ _ _ _ Hc)|].
    destruct (Hrep (ErrorFrame None "Invalid JSON message")) as [Hr Hu].
    split; [done|]. split; [|done].
    intros Hacc. by apply replied_error_sent with None "Invalid JSON message" c. }
  split.
  { intros Hunk. eexists.
    split; [exact (Direct_onMessage_unknown _ _ _ _ _ _ _ Hc Hunk)|].
    pose proof (refreshed_lookup cid now s c Hc) as Hc1.
    assert (Hr : replied (ErrorFrame None "unknown message type") s
                   (deliver (ErrorFrame None "unknown message type")
                      (refreshed cid now s) cid) cid).
    { exists c, (set_ws (attempt (ErrorFrame None "unknown message type")
                          (ws (set_lastHeartbeat now c)))
                   (set_lastHeartbeat now c)).
      split; [done|]. split; [|done]. by rewrite deliver_lookup_eq, Hc1. }
    split; [done|]. split.
    - intros Hacc.
      by apply replied_error_sent with None "unknown message type" c.
    - eapply undisturbed_trans;
        [apply refreshed_undisturbed | apply deliver_undisturbed]. }
  intros Hunk. eexists.
  split; [exact (Queued_handleMessage_unknown _ _ _ _ _ _ _ Hunk)|].
  split.
  - unfold silent. rewrite (refreshed_lookup _ _ _ _ Hc), Hc. done.
  - apply refreshed_undisturbed.
Qed.

Lemma C7_protocol_errors_witness :
  error_sent server_one
    (exec (Direct.onMessage verify_two "c1" NotJson 5000 "task-1") server_one)
    "c1"
  /\ error_sent server_one
       (exec (Queued._handleMessage verify_two NotJson "c1" 5000 true "task-1")
          server_one)
       "c1"
  /\ error_sent server_one
       (exec (Direct.onMessage verify_two "c1"
                (JsonValue (typed_message (Some "subscribe"))) 5000 "task-1")
          server_one)
       "c1"
  /\ silent server_one
       (exec (Queued._handleMessage verify_two
                (JsonValue (typed_message (Some "subscribe"))) "c1" 5000 true
                "task-1")
          server_one)
       "c1".
Proof.
  destruct (C7_protocol_errors_keep_the_connection verify_two server_one "c1"
              (fresh_client "c1") (typed_message (Some "subscribe")) 5000 true
              "task-1" eq_refl)
    as ((s1 & Hrun1 & _ & He1 & _) & (s2 & Hrun2 & _ & He2 & _) & Hd & Hq).
  destruct Hd as (s3 & Hrun3 & _ & He3 & _);
    [repeat split; discriminate|].
  destruct Hq as (s4 & Hrun4 & Hs4 & _); [repeat split; discriminate|].
  unfold exec. rewrite Hrun1, Hrun2, Hrun3, Hrun4. simpl.
  split; [by apply He1|]. split; [by apply He2|]. split; [by apply He3|].
  exact Hs4.
Defined.

(** C7 as stated fails in the queued server on an unknown type: on the
    open connection c1 a frame of type "subscribe" is answered by nothing. *)
Lemma C7_unknown_type_counterexample :
  ~ error_sent server_one
      (exec (Queued._handleMessage verify_two
               (JsonValue (typed_message (Some "subscribe"))) "c1" 5000 true
               "task-1")
         server_one)
      "c1".
Proof.
  intros (c & c' & rid & msg & Hc & Hc' & Hcalls).
  vm_compute in Hc, Hc'. injection Hc as <-. injection Hc' as <-.
  simpl in Hcalls. discriminate.
Qed.

(** A [null] frame is valid JSON without a type: reading its type throws.
    The direct server catches that and answers; in the queued server the
    exception leaves [_handleMessage]. *)
Lemma null_frame_behaviour :
  (Direct.onMessage verify_two "c1" JsonNull 5000 "task-1" server_one).1 = Ok tt
  /\ (Queued._handleMessage verify_two JsonNull "c1" 5000 true "task-1"
        server_one).1 = Throw TypeError.
Proof. split; reflexivity. Qed.

(** ** Heartbeat *)

Definition is_termination (call : WsCall) : bool :=
  match call with
  | Terminated => true
  | _ => false
  end.

(** How many times the socket has been terminated. *)
Definition terminations (w : WebSocket) : nat :=
  length (List.filter is_termination (calls w)).

(** From [s] to [s'] the monitor has terminated connection [cid]: one
    [terminate()] more on its socket, which is no longer open, and its
    timer is cleared. *)
Definition terminated_now (s s' : Server) (cid : string) : Prop :=
  exists c c',
    clients s !! cid = Some c /\ clients s' !! cid = Some c'
    /\ calls (ws c') = (calls (ws c) ++ [Terminated])%list
    /\ readyState (ws c') ≠ OPEN
    /\ heartbeat c' = false.

(** From [s] to [s'] connection [cid] has not been terminated: no
    [terminate()] on its socket, same ready state, timer still running. *)
Definition left_alive (s s' : Server) (cid : string) : Prop :=
  exists c c',
    clients s !! cid = Some c /\ clients s' !! cid = Some c'
    /\ terminations (ws c') = terminations (ws c)
    /\ readyState (ws c') = readyState (ws c)
    /\ heartbeat c' = heartbeat c.

Lemma terminations_log_send w f b :
  terminations (log_call (if b : bool then SendFailed f else Sent f) w)
  = terminations w.
Proof.
  unfold terminations, log_call. simpl. rewrite List.filter_app, length_app.
  destruct b; simpl; lia.
Qed.

Lemma terminate_terminated_now s cid c :
  clients s !! cid = Some c ->
  terminated_now s
    (set_clients
       (alter (fun c => clear_heartbeat (set_ws (ws_terminate (ws c)) c)) cid) s)
    cid.
Proof.
  intros Hc. exists c, (clear_heartbeat (set_ws (ws_terminate (ws c)) c)).
  split; [done|]. split.
  { simpl. rewrite lookup_alter. case_decide; [|done]. by rewrite Hc. }
  split; [done|]. split; [|done].
  simpl. by destruct (readyState (ws c)).
Qed.

Lemma Direct_heartbeatTimer_stale s cid c now :
  clients s !! cid = Some c -> heartbeat c = true ->
  now - lastHeartbeat c > 2 * Direct.WS_HEARTBEAT_INTERVAL ->
  Direct.heartbeatTimer cid now s
  = (Ok tt,
     set_clients
       (alter (fun c => clear_heartbeat (set_ws (ws_terminate (ws c)) c)) cid) s).
Proof.
  intros Hc Hh Hgt. unfold Direct.heartbeatTimer, bind, get. simpl.
  rewrite Hc, Hh. case_decide; [done|contradiction].
Qed.

Lemma Direct_heartbeatTimer_fresh s cid c now :
  clients s !! cid = Some c -> heartbeat c = true ->
  now - lastHeartbeat c <= 2 * Direct.WS_HEARTBEAT_INTERVAL ->
  left_alive s (exec (Direct.heartbeatTimer cid now) s) cid.
Proof.
  intros Hc Hh Hle. unfold exec, Direct.heartbeatTimer, bind, get. simpl.
  rewrite Hc, Hh. case_decide; [lia|].
  destruct (decide (readyState (ws c) = OPEN)) as [Ho|Ho].
  - unfold ws_send. rewrite Hc.
    exists c, (set_ws (log_call (if sendThrows (ws c)
                                 then SendFailed (Ping now)
                                 else Sent (Ping now)) (ws c)) c).
    split; [done|]. split.
    { destruct (sendThrows (ws c)); simpl; by rewrite lookup_insert_eq. }
    split; [|done]. simpl. apply terminations_log_send.
  - exists c, c. by rewrite Hc.
Qed.

Lemma Queued_heartbeatCheck_stale s cid c now :
  clients s !! cid = Some c -> heartbeat c = true ->
  now - lastHeartbeat c > Queued.heartbeatTimeout ->
  Queued.heartbeatCheck cid now s
  = (Ok tt,
     set_clients
       (alter (fun c => clear_heartbeat (set_ws (ws_terminate (ws c)) c)) cid) s).
Proof.
  intros Hc Hh Hgt. unfold Queued.heartbeatCheck, bind, get. simpl.
  rewrite Hc, Hh. case_decide; [done|contradiction].
Qed.

Lemma Queued_heartbeatCheck_fresh s cid c now :
  clients s !! cid = Some c -> heartbeat c = true ->
  now - lastHeartbeat c <= Queued.heartbeatTimeout ->
  Queued.heartbeatCheck cid now s = (Ok tt, s).
Proof.
  intros Hc Hh Hle. unfold Queued.heartbeatCheck, bind, get. simpl.
  rewrite Hc, Hh. case_decide; [lia|done].
Qed.

(** [lastHeartbeat] of a connection, and whether its monitor still runs. *)
Definition watch (cid : string) (s : Server) : option (Z * bool) :=
  (fun c => (lastHeartbeat c, heartbeat c)) <$> clients s !! cid.

(** A frame arriving on the connection: the clock, the raw frame, and what
    the handler draws while it processes it (the id of a task, whether the
    broker is connected). *)
Record Arrival := {
  a_time : Z;
  a_frame : Parsed;
  a_taskId : string;
  a_mq : bool
}.

(** The liveness activity the servers record: the creation of the
    connection, and every frame that parses as JSON.  [last] is the time of
    the activity recorded so far. *)
Definition recorded (last : Z) (a : Arrival) : Z :=
  match a_frame a with
  | NotJson => last
  | _ => a_time a
  end.

Definition last_activity (last : Z) (frames : list Arrival) : Z :=
  foldl recorded last frames.

(** The server after the frames have arrived on connection [cid], in
    order. *)
Definition Direct_receive (verifyToken : string -> option Decoded)
    (cid : string) (s : Server) (frames : list Arrival) : Server :=
  foldl (fun s a =>
           exec (Direct.onMessage verifyToken cid (a_frame a) (a_time a)
                   (a_taskId a)) s)
    s frames.

Definition Queued_receive (verifyToken : string -> option Decoded)
    (cid : string) (s : Server) (frames : list Arrival) : Server :=
  foldl (fun s a =>
           exec (Queued._handleMessage verifyToken (a_frame a) cid (a_time a)
                   (a_mq a) (a_taskId a)) s)
    s frames.

Lemma deliver_watch cid data s cid' :
  watch cid (deliver data s cid') = watch cid s.
Proof.
  unfold watch. destruct (decide (cid' = cid)) as [->|Hne].
  - rewrite deliver_lookup_eq. by destruct (clients s !! cid).
  - by rewrite deliver_lookup_ne.
Qed.

Lemma keeps_update_client_watch cid cid' (f : ClientState -> ClientState) :
  (forall c, lastHeartbeat (f c) = lastHeartbeat c
             /\ heartbeat (f c) = heartbeat c) ->
  keeps (watch cid) (update_client cid' f).
Proof.
  intros Hf s. unfold watch, update_client, modify. simpl.
  rewrite lookup_alter. case_decide; [|done]. subst.
  destruct (clients s !! cid) as [c|]; [|done]. simpl.
  destruct (Hf c) as [-> ->]. done.
Qed.

Ltac keeps_watch_step :=
  lazymatch goal with
  | |- keeps _ (ret _) => apply keeps_ret
  | |- keeps _ (throw _) => apply keeps_throw
  | |- keeps _ (sendToClient _ _) =>
      apply keeps_sendToClient; intros; apply deliver_watch
  | |- keeps _ (update_client _ _) =>
      apply keeps_update_client_watch; intros []; split; reflexivity
  | |- keeps _ (modify _) => apply keeps_modify; intros; reflexivity
  | |- keeps _ (bind get _) => apply keeps_get_bind; intros ?
  | |- keeps _ (bind _ _) => apply keeps_bind; [|intros ?]
  | |- keeps _ (match ?x with _ => _ end) => destruct x
  end.

Ltac keeps_watch := repeat keeps_watch_step.

Lemma Direct_dispatch_keeps_watch verifyToken cid cid' message taskId :
  keeps (watch cid) (Direct.dispatch verifyToken cid' message taskId).
Proof.
  unfold Direct.dispatch, Direct.handleAuth, Direct.handleDataRequest, get_type.
  keeps_watch.
Qed.

Lemma Queued_dispatch_keeps_watch verifyToken cid cid' message now mq taskId :
  keeps (watch cid) (Queued.dispatch verifyToken message cid' now mq taskId).
Proof.
  unfold Queued.dispatch, Queued._handleAuth, Queued._handlePing,
    Queued._handleDataRequest, get_type.
  keeps_watch.
Qed.

Lemma watch_after_refresh cid c now s :
  clients s !! cid = Some c ->
  watch cid (set_clients (alter (set_lastHeartbeat now) cid) s)
  = Some (now, heartbeat c).
Proof.
  intros Hc. unfold watch. simpl. rewrite lookup_alter.
  case_decide; [|done]. by rewrite Hc.
Qed.

Lemma keeps_watch_reply cid cid' data :
  keeps (watch cid) (sendToClient cid' data ;; ret tt).
Proof. keeps_watch. Qed.

(** One frame: a frame that parses moves [lastHeartbeat] to the clock, a
    frame that does not leaves it; the monitor runs as before. *)
Lemma Direct_onMessage_watch verifyToken s cid c a :
  clients s !! cid = Some c ->
  watch cid (exec (Direct.onMessage verifyToken cid (a_frame a) (a_time a)
                     (a_taskId a)) s)
  = Some (recorded (lastHeartbeat c) a, heartbeat c).
Proof.
  intros Hc. unfold recorded. generalize (a_frame a) as raw. intros raw.
  assert (Hparsed : raw ≠ NotJson ->
            watch cid (exec (Direct.onMessage verifyToken cid raw (a_time a)
                               (a_taskId a)) s)
            = Some (a_time a, heartbeat c)).
  { intros Hd. unfold exec, Direct.onMessage, try_catch.
    unfold bind at 1. rewrite (JSON_parse_ok _ _ Hd).
    unfold bind at 1, update_client, modify.
    pose proof (Direct_dispatch_keeps_watch verifyToken cid cid raw
                  (a_taskId a)
                  (set_clients (alter (set_lastHeartbeat (a_time a)) cid) s))
      as Hk.
    rewrite (watch_after_refresh _ _ _ _ Hc) in Hk.
    destruct (Direct.dispatch verifyToken cid raw (a_taskId a) _)
      as [[[]|e] s2]; simpl in *; [done|].
    by rewrite keeps_watch_reply. }
  destruct raw; [|by apply Hparsed..].
  unfold exec. rewrite (Direct_onMessage_NotJson _ _ _ _ _ _ Hc). simpl.
  rewrite deliver_watch. unfold watch. by rewrite Hc.
Qed.

Lemma Queued_handleMessage_watch verifyToken s cid c a :
  clients s !! cid = Some c ->
  watch cid (exec (Queued._handleMessage verifyToken (a_frame a) cid (a_time a)
                     (a_mq a) (a_taskId a)) s)
  = Some (recorded (lastHeartbeat c) a, heartbeat c).
Proof.
  intros Hc. unfold recorded. generalize (a_frame a) as raw. intros raw.
  assert (Hparsed : raw ≠ NotJson ->
            watch cid (exec (Queued._handleMessage verifyToken raw cid
                               (a_time a) (a_mq a) (a_taskId a)) s)
            = Some (a_time a, heartbeat c)).
  { intros Hd. unfold exec, Queued._handleMessage.
    unfold bind at 1, try_catch, bind at 1. rewrite (JSON_parse_ok _ _ Hd).
    unfold ret at 1. unfold bind at 1, update_client, modify.
    rewrite Queued_dispatch_keeps_watch.
    by apply watch_after_refresh. }
  destruct raw; [|by apply Hparsed..].
  unfold exec. rewrite (Queued_handleMessage_NotJson _ _ _ _ _ _ _ Hc). simpl.
  rewrite deliver_watch. unfold watch. by rewrite Hc.
Qed.

Lemma watch_lookup cid s t b :
  watch cid s = Some (t, b) ->
  exists c, clients s !! cid = Some c /\ lastHeartbeat c = t /\ heartbeat c = b.
Proof.
  unfold watch. destruct (clients s !! cid) as [c|]; [|done].
  simpl. intros [= <- <-]. by exists c.
Qed.

Lemma Direct_receive_watch verifyToken cid frames : forall s c,
  clients s !! cid = Some c ->
  watch cid (Direct_receive verifyToken cid s frames)
  = Some (last_activity (lastHeartbeat c) frames, heartbeat c).
Proof.
  induction frames as [|a frames IH]; intros s c Hc.
  { unfold watch. simpl. by rewrite Hc. }
  destruct (watch_lookup _ _ _ _ (Direct_onMessage_watch verifyToken s cid c a Hc))
    as (c1 & Hc1 & Ht & Hb).
  unfold Direct_receive, last_activity. simpl.
  fold (Direct_receive verifyToken cid
          (exec (Direct.onMessage verifyToken cid (a_frame a) (a_time a)
                   (a_taskId a)) s) frames).
  fold (last_activity (recorded (lastHeartbeat c) a) frames).
  rewrite (IH _ c1 Hc1), Ht, Hb. done.
Qed.

Lemma Queued_receive_watch verifyToken cid frames : forall s c,
  clients s !! cid = Some c ->
  watch cid (Queued_receive verifyToken cid s frames)
  = Some (last_activity (lastHeartbeat c) frames, heartbeat c).
Proof.
  induction frames as [|a frames IH]; intros s c Hc.
  { unfold watch. simpl. by rewrite Hc. }
  destruct (watch_lookup _ _ _ _
              (Queued_handleMessage_watch verifyToken s cid c a Hc))
    as (c1 & Hc1 & Ht & Hb).
  unfold Queued_receive, last_activity. simpl.
  fold (Queued_receive verifyToken cid
          (exec (Queued._handleMessage verifyToken (a_frame a) cid (a_time a)
                   (a_mq a) (a_taskId a)) s) frames).
  fold (last_activity (recorded (lastHeartbeat c) a) frames).
  rewrite (IH _ c1 Hc1), Ht, Hb. done.
Qed.

(** A new connection: the activity recorded is its creation, and the
    monitor runs. *)
Lemma onConnection_watch cid sock now s :
  watch cid (exec (Direct.onConnection cid sock now) s) = Some (now, true)
  /\ watch cid (exec (Queued.onConnection cid sock now) s) = Some (now, true).
Proof.
  assert (H : forall s', clients s' !! cid = Some (new_client cid sock now) ->
            watch cid (exec (sendToClient cid (Welcome cid)) s')
            = Some (now, true)).
  { intros s' Hc. unfold exec. rewrite (sendToClient_spec _ _ _ _ Hc).
    simpl. rewrite deliver_watch. unfold watch. by rewrite Hc. }
  split.
  - unfold exec, Direct.onConnection, bind, modify. simpl.
    apply H. simpl. apply lookup_insert_eq.
  - unfold exec, Queued.onConnection, bind, modify. simpl.
    apply H. simpl. apply lookup_insert_eq.
Qed.

(** C5, as the code has it.  The activity the monitor goes by is the
    activity the servers record: the creation of the connection and every
    frame that parses as JSON; a frame that is not valid JSON is not
    recorded.  After any frames on a connection whose monitor runs, one
    firing, in both servers, the threshold being twice the heartbeat
    interval: when the time since the last recorded activity exceeds the
    threshold the connection is terminated; when it lies within the
    threshold the connection is left alive, so in particular at 1.5 times
    the interval. *)
Theorem C5_heartbeat_follows_recorded_activity
    (verifyToken : string -> option Decoded) (s : Server) (cid : string)
    (c : ClientState) (frames : list Arrival) (now : Z) :
  clients s !! cid = Some c ->
  heartbeat c = true ->
  let elapsed := now - last_activity (lastHeartbeat c) frames in
  let sd := Direct_receive verifyToken cid s frames in
  let sq := Queued_receive verifyToken cid s frames in
  Queued.heartbeatTimeout = 2 * Queued.heartbeatInterval
  /\ (forall sock created s0,
        watch cid (exec (Direct.onConnection cid sock created) s0)
          = Some (created, true)
        /\ watch cid (exec (Queued.onConnection cid sock created) s0)
           = Some (created, true))
  /\ watch cid sd = Some (last_activity (lastHeartbeat c) frames, true)
  /\ watch cid sq = Some (last_activity (lastHeartbeat c) frames, true)
  /\ (elapsed > 2 * Direct.WS_HEARTBEAT_INTERVAL ->
        terminated_now sd (exec (Direct.heartbeatTimer cid now) sd) cid)
  /\ (elapsed > 2 * Queued.heartbeatInterval ->
        terminated_now sq (exec (Queued.heartbeatCheck cid now) sq) cid)
  /\ (elapsed <= 2 * Direct.WS_HEARTBEAT_INTERVAL ->
        left_alive sd (exec (Direct.heartbeatTimer cid now) sd) cid)
  /\ (elapsed <= 2 * Queued.heartbeatInterval ->
        left_alive sq (exec (Queued.heartbeatCheck cid now) sq) cid)
  /\ (2 * elapsed = 3 * Direct.WS_HEARTBEAT_INTERVAL ->
        left_alive sd (exec (Direct.heartbeatTimer cid now) sd) cid)
  /\ (2 * elapsed = 3 * Queued.heartbeatInterval ->
        left_alive sq (exec (Queued.heartbeatCheck cid now) sq) cid).
Proof.
  intros Hc Hh elapsed sd sq.
  pose proof (Direct_receive_watch verifyToken cid frames s c Hc) as Hwd.
  pose proof (Queued_receive_watch verifyToken cid frames s c Hc) as Hwq.
  rewrite Hh in Hwd, Hwq. fold sd in Hwd. fold sq in Hwq.
  destruct (watch_lookup _ _ _ _ Hwd) as (cd & Hcd & Htd & Hbd).
  destruct (watch_lookup _ _ _ _ Hwq) as (cq & Hcq & Htq & Hbq).
  assert (Hd_alive : elapsed <= 2 * Direct.WS_HEARTBEAT_INTERVAL ->
            left_alive sd (exec (Direct.heartbeatTimer cid now) sd) cid).
  { intros Hle. apply Direct_heartbeatTimer_fresh with cd; [done|done|].
    rewrite Htd. exact Hle. }
  assert (Hq_alive : elapsed <= 2 * Queued.heartbeatInterval ->
            left_alive sq (exec (Queued.heartbeatCheck cid now) sq) cid).
  { intros Hle. unfold exec.
    rewrite (Queued_heartbeatCheck_fresh _ _ _ _ Hcq Hbq)
      by (rewrite Htq; exact Hle).
    exists cq, cq. by rewrite Hcq. }
  split; [reflexivity|].
  split; [intros sock created s0; apply onConnection_watch|].
  split; [exact Hwd|]. split; [exact Hwq|]. split.
  { intros Hgt. unfold exec.
    rewrite (Direct_heartbeatTimer_stale _ _ _ _ Hcd Hbd)
      by (rewrite Htd; exact Hgt).
    exact (terminate_terminated_now _ _ _ Hcd). }
  split.
  { intros Hgt. unfold exec.
    rewrite (Queued_heartbeatCheck_stale _ _ _ _ Hcq Hbq)
      by (rewrite Htq; exact Hgt).
    exact (terminate_terminated_now _ _ _ Hcq). }
  split; [exact Hd_alive|]. split; [exact Hq_alive|]. split.
  - intros Heq. apply Hd_alive. unfold Direct.WS_HEARTBEAT_INTERVAL in *. lia.
  - intros Heq. apply Hq_alive. unfold Queued.heartbeatInterval in *. lia.
Qed.

(** A frame of the given kind arriving at time [t]. *)
Definition arrival (t : Z) (frame : Parsed) : Arrival :=
  {| a_time := t; a_frame := frame; a_taskId := "task-1"; a_mq := true |}.

(** Connection c1 was created at time 0 and sends a ping at time 45000.
    At time 90000, 1.5 times the interval later, the monitor leaves it
    alive; at time 105001 it terminates it. *)
Lemma C5_heartbeat_witness :
  let frames := [arrival 45000 (JsonValue (typed_message (Some "ping")))] in
  left_alive (Direct_receive verify_two "c1" server_one frames)
    (exec (Direct.heartbeatTimer "c1" 90000)
       (Direct_receive verify_two "c1" server_one frames)) "c1"
  /\ left_alive (Queued_receive verify_two "c1" server_one frames)
       (exec (Queued.heartbeatCheck "c1" 90000)
          (Queued_receive verify_two "c1" server_one frames)) "c1"
  /\ terminated_now (Direct_receive verify_two "c1" server_one frames)
       (exec (Direct.heartbeatTimer "c1" 105001)
          (Direct_receive verify_two "c1" server_one frames)) "c1"
  /\ terminated_now (Queued_receive verify_two "c1" server_one frames)
       (exec (Queued.heartbeatCheck "c1" 105001)
          (Queued_receive verify_two "c1" server_one frames)) "c1".
Proof.
  intros frames.
  destruct (C5_heartbeat_follows_recorded_activity verify_two server_one "c1"
              (fresh_client "c1") frames 90000 eq_refl eq_refl)
    as (_ & _ & _ & _ & _ & _ & _ & _ & Hd & Hq).
  destruct (C5_heartbeat_follows_recorded_activity verify_two server_one "c1"
              (fresh_client "c1") frames 105001 eq_refl eq_refl)
    as (_ & _ & _ & _ & Hd' & Hq' & _).
  split; [apply Hd; reflexivity|]. split; [apply Hq; reflexivity|].
  split; [apply Hd'; reflexivity | apply Hq'; reflexivity].
Defined.

(** C5 as stated fails on traffic that is not JSON: connection c1 was
    created at time 0 and sends a malformed frame at time 45000, 1.5 times
    the interval.  The queued server's monitor, firing at time 70000, and
    the direct server's, firing at time 90000, terminate the connection,
    25000 and 45000 ms after its last traffic. *)
Lemma C5_malformed_traffic_counterexample :
  let frames := [arrival 45000 NotJson] in
  70000 - 45000 <= 2 * Queued.heartbeatInterval
  /\ 90000 - 45000 <= 2 * Direct.WS_HEARTBEAT_INTERVAL
  /\ terminated_now (Queued_receive verify_two "c1" server_one frames)
       (exec (Queued.heartbeatCheck "c1" 70000)
          (Queued_receive verify_two "c1" server_one frames)) "c1"
  /\ terminated_now (Direct_receive verify_two "c1" server_one frames)
       (exec (Direct.heartbeatTimer "c1" 90000)
          (Direct_receive verify_two "c1" server_one frames)) "c1".
Proof.
  intros frames. split; [by vm_compute|]. split; [by vm_compute|].
  split; eexists _, _; vm_compute; repeat split; discriminate.
Qed.

(** ** Request correlation in the client *)

Section Correlator.

Import Client.

(** The last step of [_handleMessage]: the global [onMessage] callback,
    inside the try block. *)
Definition finish (c : WSClient) : WSClient :=
  match onMessage (options c) with
  | Returns => with_log CalledOnMessage c
  | Throws => with_log ConsoleError (with_log CalledOnMessage c)
  end.

(** The state after a [data] frame for the pending request [rid], whose
    entry is [e]. *)
Definition after_data (rid : string) (e : Entry) (c : WSClient) : WSClient :=
  match onData e with
  | Some Returns =>
      finish (if once e
              then with_requestCallbacks (delete rid)
                     (with_log (CalledOnData rid) c)
              else with_log (CalledOnData rid) c)
  | Some Throws => with_log ConsoleError (with_log (CalledOnData rid) c)
  | None => finish c
  end.

(** The state after an [error] frame for the pending request [rid]. *)
Definition after_error (rid : string) (e : Entry) (c : WSClient) : WSClient :=
  match onError e with
  | Some Returns =>
      finish (if once e
              then with_requestCallbacks (delete rid)
                     (with_log (CalledOnError rid) c)
              else with_log (CalledOnError rid) c)
  | Some Throws => with_log ConsoleError (with_log (CalledOnError rid) c)
  | None => finish c
  end.

Lemma truthy_nonempty (rid : string) : rid ≠ "" -> truthy (Some rid) = true.
Proof.
  intros Hne. simpl. destruct (String.eqb_spec rid ""); [contradiction|done].
Qed.

Lemma pending_lookup c rid e :
  rid ≠ "" -> requestCallbacks c !! rid = Some e ->
  pending (Some rid) c = Some (rid, e).
Proof.
  intros Hne He. unfold pending. rewrite (truthy_nonempty _ Hne). simpl.
  by rewrite He.
Qed.

Lemma handleMessage_data c d rid e now :
  in_type d = Some "data" ->
  in_payload d = Some (Some rid) ->
  rid ≠ "" ->
  requestCallbacks c !! rid = Some e ->
  _handleMessage (Value d) now c = (Ok tt, after_data rid e c).
Proof.
  intros Ht Hp Hne He.
  unfold _handleMessage, try_catch, after_data, finish.
  unfold bind at 1. simpl. unfold bind at 1, dispatch. unfold bind at 1. simpl.
  rewrite Ht, Hp.
  do 4 (case_decide; [discriminate|]). case_decide; [|contradiction].
  rewrite (pending_lookup _ _ _ Hne He).
  destruct (onData e) as [[|]|], (once e), (onMessage (options c)) eqn:Hm;
    simpl; unfold bind, call, modify, get; simpl; rewrite ?Hm; reflexivity.
Qed.

Lemma handleMessage_error c d rid e now :
  in_type d = Some "error" ->
  in_requestId d = Some rid ->
  rid ≠ "" ->
  requestCallbacks c !! rid = Some e ->
  _handleMessage (Value d) now c = (Ok tt, after_error rid e c).
Proof.
  intros Ht Hp Hne He.
  unfold _handleMessage, try_catch, after_error, finish.
  unfold bind at 1. simpl. unfold bind at 1, dispatch. unfold bind at 1. simpl.
  rewrite Ht, Hp.
  do 5 (case_decide; [discriminate|]). case_decide; [|contradiction].
  rewrite (pending_lookup _ _ _ Hne He).
  destruct (onError e) as [[|]|], (once e), (onMessage (options c)) eqn:Hm;
    simpl; unfold bind, call, modify, get; simpl; rewrite ?Hm; reflexivity.
Qed.

Lemma finish_requestCallbacks c :
  requestCallbacks (finish c) = requestCallbacks c.
Proof. unfold finish. by destruct (onMessage (options c)). Qed.

Lemma finish_log c : exists rest, log (finish c) = (log c ++ rest)%list.
Proof.
  unfold finish. destruct (onMessage (options c)); simpl.
  - by eexists.
  - rewrite <- app_assoc. by eexists.
Qed.

End Correlator.

Section CorrelatorClaims.

Import Client.

(** A [data] frame for request [rid], and an [error] frame for it. *)
Definition data_frame (rid : string) : Incoming :=
  {| in_type := Some "data"; in_requestId := None; in_userId := None;
     in_timestamp := None; in_payload := Some (Some rid) |}.

Definition error_frame (rid : string) : Incoming :=
  {| in_type := Some "error"; in_requestId := Some rid; in_userId := None;
     in_timestamp := None; in_payload := None |}.

(** A connected, authenticated client with default options. *)
Definition ready_client : WSClient :=
  with_link (Some OPEN) 0 true false true (new_WSClient no_options).

(** C3, as the code has it. A [data] frame arrives for the request id of
    a pending entry [e].  If [e] is one-shot and has an [onData] callback
    that returns, the callback is invoked and the entry is absent
    afterwards.  If [e] is not one-shot it is still present.  A one-shot
    entry without an [onData] callback is still present too.  The other
    entries are untouched. *)
Theorem C3_one_shot_entry_removed_after_onData
    (c : WSClient) (rid : string) (e : Entry) (now : Z) :
  rid ≠ "" ->
  requestCallbacks c !! rid = Some e ->
  let c' := exec (_handleMessage (Value (data_frame rid)) now) c in
  (once e = true -> onData e = Some Returns ->
     requestCallbacks c' !! rid = None
     /\ exists rest, log c' = (log c ++ CalledOnData rid :: rest)%list)
  /\ (once e = false -> requestCallbacks c' !! rid = Some e)
  /\ (onData e = None -> requestCallbacks c' !! rid = Some e)
  /\ (forall rid', rid' ≠ rid ->
        requestCallbacks c' !! rid' = requestCallbacks c !! rid').
Proof.
  intros Hne He c'. subst c'. unfold exec.
  rewrite (handleMessage_data c (data_frame rid) rid e now eq_refl eq_refl Hne He).
  simpl. unfold after_data. split.
  { intros Ho Hd. rewrite Hd, Ho. rewrite finish_requestCallbacks. simpl.
    split; [apply lookup_delete_eq|].
    destruct (finish_log (with_requestCallbacks (delete rid)
                            (with_log (CalledOnData rid) c))) as [rest Hr].
    exists rest. rewrite Hr. simpl. by rewrite <- app_assoc. }
  split.
  { intros Ho. rewrite Ho.
    destruct (onData e) as [[|]|]; rewrite ?finish_requestCallbacks; done. }
  split.
  { intros Hd. rewrite Hd. by rewrite finish_requestCallbacks. }
  intros rid' Hne'.
  destruct (onData e) as [[|]|], (once e);
    rewrite ?finish_requestCallbacks; simpl; try done.
  by rewrite lookup_delete_ne.
Qed.

Definition entry_of (data_cb error_cb : option Callback) (one_shot : bool)
  : Entry :=
  {| onAccepted := None; onData := data_cb; onError := error_cb;
     once := one_shot |}.

Definition awaiting (e : Entry) : WSClient :=
  with_requestCallbacks (insert "req-1" e) ready_client.

Lemma C3_one_shot_witness :
  requestCallbacks
    (exec (_handleMessage (Value (data_frame "req-1")) 0)
       (awaiting (entry_of (Some Returns) None true))) !! "req-1" = None
  /\ requestCallbacks
       (exec (_handleMessage (Value (data_frame "req-1")) 0)
          (awaiting (entry_of (Some Returns) None false))) !! "req-1"
     = Some (entry_of (Some Returns) None false).
Proof.
  destruct (C3_one_shot_entry_removed_after_onData
              (awaiting (entry_of (Some Returns) None true)) "req-1"
              (entry_of (Some Returns) None true) 0)
    as (Hgone & _); [discriminate | reflexivity |].
  destruct (C3_one_shot_entry_removed_after_onData
              (awaiting (entry_of (Some Returns) None false)) "req-1"
              (entry_of (Some Returns) None false) 0)
    as (_ & Hkept & _); [discriminate | reflexivity |].
  split; [by apply Hgone | by apply Hkept].
Defined.

(** The entry stored by [requestData("req-1", {}, {onError})]: one-shot
    (the default), with no [onData] callback. *)
Definition requested_without_onData : WSClient :=
  exec (requestData "req-1"
          {| cb_onAccepted := None; cb_onData := None;
             cb_onError := Some Returns; cb_once := None |})
    ready_client.

(** C3 as stated fails for a one-shot entry registered without an
    [onData] callback: after a [data] frame for its request id the entry is
    still in the correlator. *)
Lemma C3_entry_without_onData_counterexample :
  (once <$> requestCallbacks requested_without_onData !! "req-1") = Some true
  /\ requestCallbacks
       (exec (_handleMessage (Value (data_frame "req-1")) 0)
          requested_without_onData) !! "req-1" ≠ None.
Proof. split; [reflexivity|]. vm_compute. discriminate. Qed.

(** C4, as the code has it. An [error] frame arrives for the request id
    of a pending entry [e] that has an [onError] callback: the callback is
    invoked; if it returns, the entry is removed when [e] is one-shot and
    kept when it is not.  An entry without an [onError] callback is kept.
    The other entries are untouched. *)
Theorem C4_error_removes_one_shot_entries_only
    (c : WSClient) (rid : string) (e : Entry) (now : Z) :
  rid ≠ "" ->
  requestCallbacks c !! rid = Some e ->
  let c' := exec (_handleMessage (Value (error_frame rid)) now) c in
  (forall cb, onError e = Some cb ->
     exists rest, log c' = (log c ++ CalledOnError rid :: rest)%list)
  /\ (once e = true -> onError e = Some Returns ->
        requestCallbacks c' !! rid = None)
  /\ (once e = false -> requestCallbacks c' !! rid = Some e)
  /\ (onError e = None -> requestCallbacks c' !! rid = Some e)
  /\ (forall rid', rid' ≠ rid ->
        requestCallbacks c' !! rid' = requestCallbacks c !! rid').
Proof.
  intros Hne He c'. subst c'. unfold exec.
  rewrite (handleMessage_error c (error_frame rid) rid e now eq_refl eq_refl Hne He).
  simpl. unfold after_error. split.
  { intros cb Hcb. rewrite Hcb. destruct cb.
    - destruct (once e).
      + destruct (finish_log (with_requestCallbacks (delete rid)
                                (with_log (CalledOnError rid) c))) as [rest Hr].
        exists rest. rewrite Hr. simpl. by rewrite <- app_assoc.
      + destruct (finish_log (with_log (CalledOnError rid) c)) as [rest Hr].
        exists rest. rewrite Hr. simpl. by rewrite <- app_assoc.
    - exists [ConsoleError]. simpl. by rewrite <- app_assoc. }
  split.
  { intros Ho Hd. rewrite Hd, Ho. rewrite finish_requestCallbacks. simpl.
    apply lookup_delete_eq. }
  split.
  { intros Ho. rewrite Ho.
    destruct (onError e) as [[|]|]; rewrite ?finish_requestCallbacks; done. }
  split.
  { intros Hd. rewrite Hd. by rewrite finish_requestCallbacks. }
  intros rid' Hne'.
  destruct (onError e) as [[|]|], (once e);
    rewrite ?finish_requestCallbacks; simpl; try done.
  by rewrite lookup_delete_ne.
Qed.

Lemma C4_error_witness :
  requestCallbacks
    (exec (_handleMessage (Value (error_frame "req-1")) 0)
       (awaiting (entry_of None (Some Returns) true))) !! "req-1" = None
  /\ (exists rest,
        log (exec (_handleMessage (Value (error_frame "req-1")) 0)
               (awaiting (entry_of None (Some Returns) true)))
        = CalledOnError "req-1" :: rest).
Proof.
  destruct (C4_error_removes_one_shot_entries_only
              (awaiting (entry_of None (Some Returns) true)) "req-1"
              (entry_of None (Some Returns) true) 0)
    as (Hlog & Hgone & _); [discriminate | reflexivity |].
  split; [by apply Hgone|].
  destruct (Hlog Returns eq_refl) as [rest Hrest]. by exists rest.
Defined.

(** C4 as stated fails for an entry that is not one-shot: its [onError]
    callback is invoked, and the entry is still in the correlator. *)
Lemma C4_persistent_entry_counterexample :
  log (exec (_handleMessage (Value (error_frame "req-1")) 0)
         (awaiting (entry_of None (Some Returns) false)))
  = [CalledOnError "req-1"; CalledOnMessage]
  /\ requestCallbacks
       (exec (_handleMessage (Value (error_frame "req-1")) 0)
          (awaiting (entry_of None (Some Returns) false))) !! "req-1" ≠ None.
Proof. split; [reflexivity|]. vm_compute. discriminate. Qed.

End CorrelatorClaims.

(** ** Reconnect back-off in the client *)

Section Backoff.

Import Client.
Local Open Scope Q_scope.

(** [Math.pow(1.5, n)]. *)
Definition growth (n : nat) : Q := (3 # 2) ^ Z.of_nat n.

Lemma growth_S n : growth (S n) == (3 # 2) * growth n.
Proof.
  unfold growth. rewrite Nat2Z.inj_succ. unfold Z.succ.
  rewrite Qpower_plus by discriminate. simpl (_ ^ 1). ring.
Qed.

Lemma growth_pos n : 0 < growth n.
Proof. unfold growth. by apply Qpower_0_lt. Qed.

Lemma uncapped_increases base n :
  0 < base -> base * growth n < base * growth (S n).
Proof.
  intros Hb.
  assert (Hx : 0 < base * growth n)
    by (apply Qmult_lt_0_compat; [done | apply growth_pos]).
  assert (E : base * growth (S n) == (3 # 2) * (base * growth n))
    by (rewrite growth_S; ring).
  rewrite E. lra.
Qed.

(** A client built with default options that has made [n] reconnect
    attempts since its connection was last open. *)
Definition retrying (n : nat) : WSClient :=
  with_link (Some CLOSED) n false false false (new_WSClient no_options).

Lemma reconnectDelay_retrying n :
  reconnectDelay (retrying n) = Qmin 30000 (3000 * growth n).
Proof. reflexivity. Qed.

Lemma handleOpen_resets c : reconnectAttempts (exec _handleOpen c) = 0%nat.
Proof.
  unfold exec, _handleOpen, authenticate, send, call, bind, modify, get,
    try_catch. simpl.
  destruct (truthy (authToken (options c))); simpl;
    destruct (writeThrows c); simpl;
    destruct (onConnect (options c)); reflexivity.
Qed.

Lemma reconnectTimeout_counts c :
  reconnectAttempts (exec reconnectTimeout c) = S (reconnectAttempts c).
Proof.
  unfold exec, reconnectTimeout, call, bind, modify, get. simpl.
  destruct (onReconnect (options c)); simpl; [|reflexivity].
  unfold connect. simpl. destruct (socket c) as [[]|], (isConnecting c);
    reflexivity.
Qed.

Lemma handleClose_delay c d c' :
  _handleClose c = (Ok d, c') ->
  d = reconnectDelay c' /\ reconnectAttempts c' = reconnectAttempts c.
Proof.
  unfold _handleClose, call, bind, modify, get. simpl.
  destruct (onDisconnect (options c)); simpl; [|discriminate].
  intros [= <- <-]. done.
Qed.

(** C8. The delay before a reconnect is
    [min(30000, reconnectInterval * 1.5 ^ reconnectAttempts)], with
    [reconnectInterval] 3000 by default.  Along the attempts the delays
    never decrease, increase strictly while below the cap, and never exceed
    the cap.  Each scheduled reconnect adds one to the counter, a close
    leaves it as it is, and an open connection resets it to 0. *)
Theorem C8_reconnect_backoff_is_capped_and_monotone :
  (forall c,
     reconnectDelay c
     = Qmin 30000 (reconnectInterval (options c)
                   * (3 # 2) ^ Z.of_nat (reconnectAttempts c)))
  /\ reconnectInterval (merge_options no_options) = 3000
  /\ (forall n, reconnectDelay (retrying n) == Qmin 30000 (3000 * (3 # 2) ^ Z.of_nat n))
  /\ (forall n, reconnectDelay (retrying n) <= reconnectDelay (retrying (S n)))
  /\ (forall n, reconnectDelay (retrying n) < 30000 ->
                reconnectDelay (retrying n) < reconnectDelay (retrying (S n)))
  /\ (forall n, reconnectDelay (retrying n) <= 30000)
  /\ (forall c, reconnectAttempts (exec _handleOpen c) = 0%nat)
  /\ (forall c, reconnectAttempts (exec reconnectTimeout c)
                = S (reconnectAttempts c))
  /\ (forall c d c', _handleClose c = (Ok d, c') ->
        d = reconnectDelay c' /\ reconnectAttempts c' = reconnectAttempts c).
Proof.
  split; [reflexivity|]. split; [reflexivity|]. split; [reflexivity|].
  split.
  { intros n. rewrite !reconnectDelay_retrying.
    apply Q.min_le_compat_l. apply Qlt_le_weak.
    by apply uncapped_increases. }
  split.
  { intros n. rewrite !reconnectDelay_retrying. intros Hcap.
    destruct (Q.min_spec 30000 (3000 * growth n)) as [[Hlt Heq]|[Hle Heq]].
    - rewrite Heq in Hcap. lra.
    - rewrite Heq in *. apply Q.min_glb_lt; [done|].
      by apply uncapped_increases. }
  split.
  { intros n. rewrite reconnectDelay_retrying. apply Q.le_min_l. }
  split; [apply handleOpen_resets|].
  split; [apply reconnectTimeout_counts|].
  apply handleClose_delay.
Qed.

(** The first delays are 3000, 4500, 6750 ms; the seventh is the cap. *)
Lemma C8_reconnect_backoff_witness :
  reconnectDelay (retrying 2) < reconnectDelay (retrying 3)
  /\ reconnectDelay (retrying 0) == 3000
  /\ reconnectDelay (retrying 1) == 4500
  /\ reconnectDelay (retrying 2) == 6750
  /\ reconnectDelay (retrying 6) == 30000.
Proof.
  destruct C8_reconnect_backoff_is_capped_and_monotone
    as (_ & _ & _ & _ & Hstrict & _).
  split; [apply Hstrict; reflexivity|].
  repeat split; reflexivity.
Defined.

End Backoff.

(** ** Batched results *)

Section Batches.

Import Tasks.
Local Open Scope nat_scope.

(** Readers of a result: the slice it carries and its counters. *)
Definition batch_items (r : Result) : list Item :=
  match r_data r with
  | Some {| d_results := Items l |} => l
  | _ => []
  end.

Definition total_of (r : Result) : option nat := r_data r ≫= d_totalItems.
Definition processed_of (r : Result) : option nat := r_data r ≫= d_processedItems.
Definition final_of (r : Result) : option bool := r_data r ≫= d_isFinal.

Definition items_of (data : JsonData) : list Item :=
  match data with
  | Arr elements => elements
  | Single x => [x]
  end.

(** The claim on the results [rs] sent for a dataset of [total] items:
    every result carries [totalItems = total] and, as [processedItems], the
    number of items sent up to and including it; [isFinal] is true on the
    last result and on no other; the last [processedItems] is [total]. *)
Definition batches_as_claimed (total : nat) (rs : list Result) : Prop :=
  (forall i r, rs !! i = Some r ->
     total_of r = Some total
     /\ processed_of r = Some (length (concat (batch_items <$> take (S i) rs)))
     /\ (final_of r = Some true <-> S i = length rs))
  /\ (exists r, last rs = Some r /\ processed_of r = Some total).

Lemma slice_take_drop (items : list Item) p b :
  slice items p (p + b) = take b (drop p items).
Proof. unfold slice. by rewrite Nat.add_sub'. Qed.

Lemma sendNextBatch_spec rnd task (items : list Item) :
  forall fuel processed bn,
    processed < length items ->
    length items - processed <= fuel ->
    exists rs,
      sendNextBatch fuel rnd task items processed bn = Some rs
      /\ rs ≠ []
      /\ concat (batch_items <$> rs) = drop processed items
      /\ (forall i r, rs !! i = Some r ->
            total_of r = Some (length items)
            /\ processed_of r
               = Some (processed
                       + length (concat (batch_items <$> take (S i) rs)))
            /\ (final_of r = Some true <-> S i = length rs)).
Proof.
  induction fuel as [|fuel IH]; intros processed bn Hlt Hfuel; [lia|].
  cbn [sendNextBatch]. rewrite slice_take_drop.
  set (b := Nat.min (length items - processed) (rnd bn mod 10 + 1)).
  assert (Hb : 1 <= b /\ b <= length items - processed) by (subst b; lia).
  assert (Hlen : length (take b (drop processed items)) = b).
  { rewrite length_take, length_drop. lia. }
  match goal with
  | |- context [option_map (cons ?r) _] => set (r0 := r)
  end.
  assert (Hbi : batch_items r0 = take b (drop processed items)) by done.
  assert (Ht0 : total_of r0 = Some (length items)) by done.
  assert (Hp0 : processed_of r0 = Some (processed + b)) by done.
  assert (Hf0 : final_of r0 = Some (length items <=? processed + b)) by done.
  clearbody r0.
  destruct (Nat.ltb_spec (processed + b) (length items)) as [Hmore|Hdone].
  - destruct (IH (processed + b) (bn + 1)) as (rs & Hrun & Hne & Hcat & Hidx);
      [lia | lia |].
    rewrite Hrun. exists (r0 :: rs). split; [done|].
    split; [done|]. split.
    { rewrite fmap_cons. cbn [concat]. rewrite Hbi, Hcat, <- drop_drop.
      apply take_drop. }
    intros [|i] r Hr.
    + injection Hr as <-. split; [done|]. split.
      { rewrite Hp0. cbn [take fmap list_fmap concat].
        rewrite app_nil_r, Hbi, Hlen. done. }
      rewrite Hf0.
      destruct (Nat.leb_spec (length items) (processed + b)); [lia|].
      split; [discriminate|]. destruct rs; [done|]. simpl. lia.
    + destruct (Hidx i r Hr) as (Ht & Hp & Hf). split; [done|]. split.
      { rewrite Hp. rewrite firstn_cons, fmap_cons. cbn [concat].
        rewrite length_app, Hbi, Hlen. f_equal. lia. }
      rewrite Hf. simpl. lia.
  - exists [r0]. split; [done|]. split; [done|]. split.
    { cbn [fmap list_fmap concat]. rewrite app_nil_r, Hbi.
      apply take_ge. rewrite length_drop. lia. }
    intros [|i] r Hr; [|done].
    injection Hr as <-. split; [done|]. split.
    { rewrite Hp0. cbn [take fmap list_fmap concat].
      rewrite app_nil_r, Hbi, Hlen. done. }
    rewrite Hf0.
    destruct (Nat.leb_spec (length items) (processed + b)); [done|lia].
Qed.

(** C9, as the code has it: the batching processor on a dataset that is
    not empty.  The run ends within [totalItems] firings; the results sent
    carry [totalItems], the cumulative [processedItems], and [isFinal] true
    on the last one only, where [processedItems] is [totalItems]; the
    slices, put end to end, are the dataset. *)
Theorem C9_batches_carry_cumulative_progress
    (rnd : nat -> nat) (task : Task) (data : JsonData) :
  items_of data ≠ [] ->
  exists rs,
    _sendDataInBatches rnd task data = Some rs
    /\ batches_as_claimed (length (items_of data)) rs
    /\ concat (batch_items <$> rs) = items_of data.
Proof.
  intros Hne. unfold _sendDataInBatches. fold (items_of data).
  assert (Hpos : 0 < length (items_of data)).
  { destruct (items_of data); [done|simpl; lia]. }
  case_decide; [lia|].
  destruct (sendNextBatch_spec rnd task (items_of data)
              (length (items_of data)) 0 0) as (rs & Hrun & Hne' & Hcat & Hidx);
    [lia | lia |].
  exists rs. split; [done|]. split; [|done]. split; [exact Hidx|].
  destruct (last rs) as [r|] eqn:Hlast.
  - exists r. split; [done|].
    assert (Hr : rs !! (length rs - 1) = Some r).
    { rewrite <- Hlast. symmetry. rewrite last_lookup. f_equal. lia. }
    destruct (Hidx _ _ Hr) as (_ & Hp & _). rewrite Hp.
    rewrite take_ge by lia. rewrite Hcat. simpl. done.
  - apply last_None in Hlast. contradiction.
Qed.

Definition task_one : Task :=
  {| t_taskId := "task-1"; t_userId := Some "1"; t_requestId := Some "req-1" |}.

(** Twelve items, every draw being 4: batches of 5, 5 and 2 items. *)
Lemma C9_batches_witness :
  exists rs,
    _sendDataInBatches (fun _ => 4) task_one (Arr (seq 0 12)) = Some rs
    /\ batches_as_claimed 12 rs
    /\ processed_of <$> rs = [Some 5; Some 10; Some 12]
    /\ final_of <$> rs = [Some false; Some false; Some true].
Proof.
  destruct (C9_batches_carry_cumulative_progress (fun _ => 4) task_one
              (Arr (seq 0 12))) as (rs & Hrun & Hok & _); [discriminate|].
  exists rs. split; [exact Hrun|]. split; [exact Hok|].
  vm_compute in Hrun. injection Hrun as <-. split; reflexivity.
Defined.

(** C9 as stated fails in two places.  For an empty dataset the batching
    processor sends one result without an [isFinal] flag.  The queued
    processor sends one result whose counters are two independent random
    draws (here 40 and 7), without an [isFinal] flag and outside the
    [totalItems]/[processedItems] fields. *)
Lemma C9_not_every_task_counterexample :
  (exists rs,
     _sendDataInBatches (fun _ => 0) task_one (Arr []) = Some rs
     /\ ~ batches_as_claimed 0 rs)
  /\ (d_results <$> r_data (queued_processTask task_one 40 7)) = Some (Summary 40 7)
  /\ (forall total, ~ batches_as_claimed total [queued_processTask task_one 40 7]).
Proof.
  split.
  { eexists. split; [reflexivity|]. intros [Hidx _].
    destruct (Hidx 0 _ eq_refl) as (_ & _ & Hf).
    assert (Hfalse : final_of (empty_result task_one) = Some true)
      by (apply Hf; reflexivity).
    discriminate. }
  split; [reflexivity|].
  intros total [Hidx _]. destruct (Hidx 0 _ eq_refl) as (Ht & _).
  discriminate.
Qed.

End Batches.

(** ** Where the registry invariant does hold *)

(** [one_bucket] on the map itself. *)
Definition one_bucket_map (m : gmap JsStr (list string)) : Prop :=
  forall u1 u2 l1 l2 cid,
    m !! u1 = Some l1 -> m !! u2 = Some l2 ->
    cid ∈ l1 -> cid ∈ l2 -> u1 = u2.

Lemma elem_of_set_add (x c : string) (l : list string) :
  x ∈ set_add c l <-> x = c \/ x ∈ l.
Proof.
  unfold set_add. case_decide as Hin.
  - split; [by right|]. intros [->|]; done.
  - rewrite elem_of_app, list_elem_of_singleton. tauto.
Qed.

Lemma register_lookup (uid : JsStr) (cid : string)
    (m : gmap JsStr (list string)) (u : JsStr) :
  register uid cid m !! u
  = if decide (u = uid) then Some (set_add cid (default [] (m !! uid)))
    else m !! u.
Proof.
  unfold register. case_decide as Hu.
  - subst u. rewrite lookup_alter. case_decide; [|done].
    destruct (m !! uid) as [l|] eqn:Hl.
    + by rewrite Hl.
    + by rewrite lookup_insert_eq.
  - rewrite lookup_alter. case_decide; [congruence|].
    destruct (m !! uid); [done|]. by rewrite lookup_insert_ne.
Qed.

(** Registering a connection that sits in no other user's bucket keeps the
    invariant. *)
Lemma register_one_bucket (uid : JsStr) (cid : string)
    (m : gmap JsStr (list string)) :
  one_bucket_map m ->
  (forall u l, m !! u = Some l -> cid ∈ l -> u = uid) ->
  one_bucket_map (register uid cid m).
Proof.
  intros Hinv Hfresh u1 u2 l1 l2 x H1 H2 Hx1 Hx2.
  rewrite register_lookup in H1, H2.
  assert (Hold : forall u l, u ≠ uid -> m !! u = Some l -> x ∈ l ->
            x ∈ set_add cid (default [] (m !! uid)) -> False).
  { intros u l Hne Hl Hxl Hadd. apply elem_of_set_add in Hadd as [->|Hin].
    - by apply Hne, (Hfresh u l).
    - destruct (m !! uid) as [l0|] eqn:Hl0; simpl in Hin.
      + by apply Hne, (Hinv u uid l l0 x).
      + by apply elem_of_nil in Hin. }
  destruct (decide (u1 = uid)) as [E1|N1], (decide (u2 = uid)) as [E2|N2].
  - congruence.
  - injection H1 as <-. exfalso. by apply (Hold u2 l2).
  - injection H2 as <-. exfalso. by apply (Hold u1 l1).
  - by apply (Hinv u1 u2 l1 l2 x).
Qed.

Lemma unregister_lookup_sub (uid : JsStr) (cid : string)
    (m : gmap JsStr (list string)) (u : JsStr) (l : list string) (x : string) :
  unregister uid cid m !! u = Some l -> x ∈ l ->
  exists l0, m !! u = Some l0 /\ x ∈ l0.
Proof.
  unfold unregister. destruct (truthy uid); [|by eauto].
  destruct (m !! uid) as [l0|] eqn:Hl0; [|by eauto].
  case_decide.
  - rewrite lookup_delete. case_decide; [done|]. by eauto.
  - rewrite lookup_insert. case_decide as Hu.
    + subst u. intros [= <-] Hx. exists l0. split; [done|].
      unfold set_delete in Hx. by apply list_elem_of_filter in Hx as [_ Hx].
    + by eauto.
Qed.

(** The cleanup of a close never breaks the invariant. *)
Lemma unregister_one_bucket (uid : JsStr) (cid : string)
    (m : gmap JsStr (list string)) :
  one_bucket_map m -> one_bucket_map (unregister uid cid m).
Proof.
  intros Hinv u1 u2 l1 l2 x H1 H2 Hx1 Hx2.
  destruct (unregister_lookup_sub _ _ _ _ _ _ H1 Hx1) as (l1' & H1' & Hx1').
  destruct (unregister_lookup_sub _ _ _ _ _ _ H2 Hx2) as (l2' & H2' & Hx2').
  by apply (Hinv u1 u2 l1' l2' x).
Qed.

Lemma keeps_registry_reply cid data :
  keeps userConnections (sendToClient cid data ;; ret tt).
Proof.
  apply keeps_bind; [|intros; apply keeps_ret].
  apply keeps_sendToClient. intros. apply deliver_userConnections.
Qed.

(** What an auth frame does to the registry: nothing, or the registration
    of the connection for the user of the token. *)
Lemma Queued_handleAuth_registry verifyToken message cid s :
  userConnections (exec (Queued._handleAuth verifyToken message cid) s)
    = userConnections s
  \/ exists token decoded,
       msg_token message = Some token
       /\ verifyToken token = Some decoded
       /\ userConnections (exec (Queued._handleAuth verifyToken message cid) s)
          = register (js_or (dec_userId decoded) (dec_sub decoded)) cid
              (userConnections s).
Proof.
  unfold exec, Queued._handleAuth.
  destruct (msg_token message) as [token|] eqn:Htok; simpl;
    [|left; apply keeps_registry_reply].
  destruct (negb (negb (String.eqb token ""))); simpl;
    [left; apply keeps_registry_reply|].
  destruct (verifyToken token) as [decoded|] eqn:Hver;
    [|left; apply keeps_registry_reply].
  destruct (negb (truthy (js_or (dec_userId decoded) (dec_sub decoded))));
    [left; apply keeps_registry_reply|].
  right. exists token, decoded. split; [done|]. split; [done|].
  unfold bind at 1, update_client, modify. unfold bind at 1.
  by rewrite keeps_registry_reply.
Qed.

Lemma Direct_handleAuth_registry verifyToken message cid s :
  userConnections (exec (Direct.handleAuth verifyToken cid message) s)
    = userConnections s
  \/ exists token decoded,
       msg_token message = Some token
       /\ verifyToken token = Some decoded
       /\ userConnections (exec (Direct.handleAuth verifyToken cid message) s)
          = register (dec_userId decoded) cid (userConnections s).
Proof.
  unfold exec, Direct.handleAuth.
  destruct (msg_token message) as [token|] eqn:Htok; simpl;
    [|left; apply keeps_registry_reply].
  destruct (negb (negb (String.eqb token ""))); simpl;
    [left; apply keeps_registry_reply|].
  destruct (verifyToken token) as [decoded|] eqn:Hver;
    [|left; apply keeps_registry_reply].
  right. exists token, decoded. split; [done|]. split; [done|].
  unfold bind at 1, update_client, modify. unfold bind at 1.
  by rewrite keeps_registry_reply.
Qed.

(** The invariant survives every authentication of a connection that sits
    in no bucket of another user than the one its token names, and every
    close: it is the re-authentication for a different user that breaks
    it. *)
Lemma one_bucket_without_reauthentication verifyToken message cid s :
  one_bucket s ->
  (forall token decoded u l,
     msg_token message = Some token -> verifyToken token = Some decoded ->
     userConnections s !! u = Some l -> cid ∈ l ->
     u = dec_userId decoded /\ truthy u = true) ->
  one_bucket (exec (Queued._handleAuth verifyToken message cid) s)
  /\ one_bucket (exec (Direct.handleAuth verifyToken cid message) s)
  /\ one_bucket (exec (Queued.onClose cid) s)
  /\ one_bucket (exec (Direct.onClose cid) s).
Proof.
  intros Hinv Hsame. unfold one_bucket in *.
  fold (one_bucket_map (userConnections s)) in Hinv.
  split; [|split; [|split]].
  - fold (one_bucket_map
            (userConnections (exec (Queued._handleAuth verifyToken message cid) s))).
    destruct (Queued_handleAuth_registry verifyToken message cid s)
      as [->|(token & decoded & Htok & Hver & ->)]; [done|].
    apply register_one_bucket; [done|]. intros u l Hl Hin.
    destruct (Hsame token decoded u l Htok Hver Hl Hin) as [-> Htruthy].
    unfold js_or. by rewrite Htruthy.
  - fold (one_bucket_map
            (userConnections (exec (Direct.handleAuth verifyToken cid message) s))).
    destruct (Direct_handleAuth_registry verifyToken message cid s)
      as [->|(token & decoded & Htok & Hver & ->)]; [done|].
    apply register_one_bucket; [done|]. intros u l Hl Hin.
    by destruct (Hsame token decoded u l Htok Hver Hl Hin) as [-> _].
  - fold (one_bucket_map (userConnections (exec (Queued.onClose cid) s))).
    unfold exec, Queued.onClose, bind, get, modify. simpl.
    destruct (clients s !! cid); simpl; [|done].
    by apply unregister_one_bucket.
  - fold (one_bucket_map (userConnections (exec (Direct.onClose cid) s))).
    unfold exec, Direct.onClose, bind, get, modify, update_client. simpl.
    destruct (clients s !! cid); simpl; [|done].
    by apply unregister_one_bucket.
Qed.

(** * Further properties of the servers *)

(** ** The registry as a map of Sets *)

(** Every bucket is a Set (no duplicates) with at least one member. *)
Definition tidy (m : gmap JsStr (list string)) : Prop :=
  forall u l, m !! u = Some l -> l ≠ [] /\ NoDup l.

Lemma set_add_NoDup (c : string) (l : list string) :
  NoDup l -> NoDup (set_add c l).
Proof.
  intros Hnd. unfold set_add. case_decide as Hin; [done|].
  apply NoDup_app. split; [done|]. split; [|apply NoDup_singleton].
  intros x Hx Hx'. apply list_elem_of_singleton in Hx'. by subst.
Qed.

Lemma set_add_nonempty (c : string) (l : list string) : set_add c l ≠ [].
Proof.
  unfold set_add. case_decide as Hin.
  - intros ->. by apply elem_of_nil in Hin.
  - by destruct l.
Qed.

Lemma set_delete_fresh (c : string) (l : list string) :
  c ∉ l -> set_delete c (l ++ [c]) = l.
Proof.
  intros Hn. unfold set_delete. rewrite filter_app.
  rewrite filter_cons_False by (intros H; by apply H).
  rewrite filter_nil, app_nil_r.
  induction l as [|x l IH]; [done|].
  apply not_elem_of_cons in Hn as [Hne Hn].
  rewrite filter_cons_True by done. by rewrite IH.
Qed.

Lemma elem_of_set_delete (x c : string) (l : list string) :
  x ∈ set_delete c l <-> x ≠ c /\ x ∈ l.
Proof. unfold set_delete. by rewrite list_elem_of_filter. Qed.

Lemma unregister_lookup (uid : JsStr) (cid : string)
    (m : gmap JsStr (list string)) (u : JsStr) :
  unregister uid cid m !! u
  = if decide (u = uid /\ truthy uid = true)
    then match m !! uid with
         | Some l => if decide (set_delete cid l = [])
                     then None else Some (set_delete cid l)
         | None => None
         end
    else m !! u.
Proof.
  unfold unregister. destruct (truthy uid) eqn:Ht.
  - destruct (m !! uid) as [l|] eqn:Hl.
    + destruct (decide (length (set_delete cid l) = 0%nat)) as [Hz|Hz].
      * apply length_zero_iff_nil in Hz. rewrite lookup_delete.
        case_decide as Hu; subst.
        { rewrite decide_True by done. by rewrite decide_True. }
        rewrite decide_False; [done|]. intros [? _]. congruence.
      * rewrite lookup_insert. case_decide as Hu; subst.
        { rewrite decide_True by done. rewrite decide_False; [done|].
          intros E. by rewrite E in Hz. }
        rewrite decide_False; [done|]. intros [? _]. congruence.
    + case_decide as Hu; [|done]. destruct Hu as [-> _]. done.
  - rewrite decide_False; [done|]. intros [_ ?]. congruence.
Qed.

Lemma register_tidy (uid : JsStr) (cid : string)
    (m : gmap JsStr (list string)) :
  tidy m -> tidy (register uid cid m).
Proof.
  intros Ht u l. rewrite register_lookup. case_decide as Hu.
  - intros [= <-]. split; [apply set_add_nonempty|].
    apply set_add_NoDup. destruct (m !! uid) as [l0|] eqn:Hl0; simpl.
    + by apply (Ht uid l0).
    + apply NoDup_nil_2.
  - apply Ht.
Qed.

Lemma unregister_tidy (uid : JsStr) (cid : string)
    (m : gmap JsStr (list string)) :
  tidy m -> tidy (unregister uid cid m).
Proof.
  intros Ht u l. rewrite unregister_lookup. case_decide as Hu; [|apply Ht].
  destruct (m !! uid) as [l0|] eqn:Hl0; [|done].
  case_decide as He; [done|]. intros [= <-]. split; [done|].
  unfold set_delete. apply NoDup_filter. by apply (Ht uid l0).
Qed.

(** ** Invariants of a computation *)

Section Preserves.

Context {S : Type} (P : S -> Prop).

(** [c] ends, normally or by a throw, in a state where [P] still holds. *)
Definition preserves {A} (c : M S A) : Prop :=
  forall s, P s -> P (exec c s).

Lemma preserves_ret {A} (a : A) : preserves (ret a).
Proof. by intros s. Qed.

Lemma preserves_throw {A} e : preserves (@throw S A e).
Proof. by intros s. Qed.

Lemma preserves_get : preserves get.
Proof. by intros s. Qed.

Lemma preserves_bind {A B} (c : M S A) (k : A -> M S B) :
  preserves c -> (forall a, preserves (k a)) -> preserves (bind c k).
Proof.
  intros Hc Hk s Hs. unfold exec, bind. specialize (Hc s Hs). unfold exec in Hc.
  destruct (c s) as [[a|e] s']; simpl in *; [|done].
  by apply Hk.
Qed.

Lemma preserves_get_bind {B} (k : S -> M S B) :
  (forall a, preserves (k a)) -> preserves (bind get k).
Proof. intros Hk. apply preserves_bind; [apply preserves_get | exact Hk]. Qed.

Lemma preserves_try_catch {A} (c : M S A) (h : Exn -> M S A) :
  preserves c -> (forall e, preserves (h e)) -> preserves (try_catch c h).
Proof.
  intros Hc Hh s Hs. unfold exec, try_catch. specialize (Hc s Hs).
  unfold exec in Hc.
  destruct (c s) as [[a|e] s']; simpl in *; [done|].
  by apply Hh.
Qed.

Lemma preserves_modify (f : S -> S) :
  (forall s, P s -> P (f s)) -> preserves (modify f).
Proof. intros Hf s Hs. by apply Hf. Qed.

End Preserves.

(** A property of one part of the server state is preserved by whatever
    keeps that part. *)
Lemma keeps_preserves {X A} (proj : Server -> X) (Q : X -> Prop)
    (c : M Server A) :
  keeps proj c -> preserves (fun s => Q (proj s)) c.
Proof. intros Hk s Hs. unfold exec. by rewrite Hk. Qed.

Lemma keeps_registry_sendToClient cid data :
  keeps userConnections (sendToClient cid data).
Proof. apply keeps_sendToClient. intros. apply deliver_userConnections. Qed.

Lemma keeps_registry_ws_send cid data : keeps userConnections (ws_send cid data).
Proof.
  intros s. unfold ws_send. destruct (clients s !! cid) as [c|]; [|done].
  by destruct (sendThrows (ws c)).
Qed.

(** The registry is tidy. *)
Definition tidy_server (s : Server) : Prop := tidy (userConnections s).

Ltac tidy_step :=
  lazymatch goal with
  | |- preserves _ (ret _) => apply preserves_ret
  | |- preserves _ (throw _) => apply preserves_throw
  | |- preserves _ (sendToClient _ _) =>
      apply (keeps_preserves userConnections tidy);
      apply keeps_registry_sendToClient
  | |- preserves _ (ws_send _ _) =>
      apply (keeps_preserves userConnections tidy);
      apply keeps_registry_ws_send
  | |- preserves _ (update_client _ _) =>
      apply preserves_modify; intros ? ?; assumption
  | |- preserves _ (modify (set_userConnections (register _ _))) =>
      apply preserves_modify; intros ? ?; by apply register_tidy
  | |- preserves _ (modify (set_userConnections (unregister _ _))) =>
      apply preserves_modify; intros ? ?; by apply unregister_tidy
  | |- preserves _ (modify _) =>
      apply preserves_modify; intros ? ?; assumption
  | |- preserves _ (bind get _) => apply preserves_get_bind; intros ?
  | |- preserves _ (bind _ _) => apply preserves_bind; [|intros ?]
  | |- preserves _ (try_catch _ _) => apply preserves_try_catch; [|intros ?]
  | |- preserves _ (match ?x with _ => _ end) => destruct x
  end.

Ltac tidy_auto := repeat tidy_step.

Lemma Direct_onMessage_tidy verifyToken cid data now taskId :
  preserves tidy_server (Direct.onMessage verifyToken cid data now taskId).
Proof.
  unfold Direct.onMessage, Direct.dispatch, Direct.handleAuth,
    Direct.handleDataRequest, JSON_parse, get_type.
  tidy_auto.
Qed.

Lemma Queued_handleMessage_tidy verifyToken data cid now mq taskId :
  preserves tidy_server (Queued._handleMessage verifyToken data cid now mq taskId).
Proof.
  unfold Queued._handleMessage, Queued.dispatch, Queued._handleAuth,
    Queued._handlePing, Queued._handleDataRequest, JSON_parse, get_type.
  tidy_auto.
Qed.

Lemma Direct_send_loop_tidy data (l : list string) n :
  preserves tidy_server (Direct.send_loop data l n).
Proof.
  revert n. induction l as [|x l IH]; intros n; simpl; tidy_auto. apply IH.
Qed.

Lemma Queued_send_loop_tidy data (l : list string) n :
  preserves tidy_server (Queued.send_loop data l n).
Proof.
  revert n. induction l as [|x l IH]; intros n; simpl; tidy_auto; apply IH.
Qed.

Lemma preserves_sendToClient (P : Server -> Prop) cid data :
  (forall s, P s -> P (deliver data s cid)) ->
  preserves P (sendToClient cid data).
Proof.
  intros Hd s Hs. unfold exec. destruct (clients s !! cid) as [c|] eqn:Hc.
  - rewrite (sendToClient_spec _ _ _ _ Hc). by apply Hd.
  - unfold sendToClient, bind, get. simpl. by rewrite Hc.
Qed.

(** The state after [ws.send] was called on the socket of [cid], whether
    it threw or not. *)
Definition written (data : Frame) (s : Server) (cid : string) : Server :=
  match clients s !! cid with
  | Some c =>
      set_clients
        (insert cid
           (set_ws (log_call (if sendThrows (ws c) then SendFailed data
                              else Sent data) (ws c)) c)) s
  | None => s
  end.

Lemma ws_send_written cid data s : exec (ws_send cid data) s = written data s cid.
Proof.
  unfold exec, ws_send, written. destruct (clients s !! cid) as [c|]; [|done].
  by destruct (sendThrows (ws c)).
Qed.

Lemma preserves_ws_send (P : Server -> Prop) cid data :
  (forall s, P s -> P (written data s cid)) ->
  preserves P (ws_send cid data).
Proof. intros Hw s Hs. rewrite ws_send_written. by apply Hw. Qed.

(** ** References held by the direct server's Sets *)

(** Every member of a bucket is a connection object that exists. *)
Definition refs_valid (s : Server) : Prop :=
  forall u l cid,
    userConnections s !! u = Some l -> cid ∈ l -> is_Some (clients s !! cid).

(** The invariant carried through a handler of connection [cid]. *)
Definition refs_valid_at (cid : string) (s : Server) : Prop :=
  refs_valid s /\ is_Some (clients s !! cid).

Lemma refs_valid_at_deliver cid data cid' s :
  refs_valid_at cid s -> refs_valid_at cid (deliver data s cid').
Proof.
  intros [Hr Hc]. split.
  - intros u l x Hl Hx. rewrite deliver_userConnections in Hl.
    apply deliver_is_Some. by apply (Hr u l).
  - by apply deliver_is_Some.
Qed.

Lemma refs_valid_at_alter cid cid' (f : ClientState -> ClientState) s :
  refs_valid_at cid s -> refs_valid_at cid (set_clients (alter f cid') s).
Proof.
  assert (Hsome : forall x, is_Some (clients s !! x) ->
            is_Some (clients (set_clients (alter f cid') s) !! x)).
  { intros x Hx. simpl. rewrite lookup_alter. case_decide; [|done].
    subst. by apply fmap_is_Some. }
  intros [Hr Hc]. split; [|by apply Hsome].
  intros u l x Hl Hx. apply Hsome. by apply (Hr u l).
Qed.

Lemma refs_valid_at_written cid data cid' s :
  refs_valid_at cid s -> refs_valid_at cid (written data s cid').
Proof.
  assert (Hsome : forall x, is_Some (clients s !! x) ->
            is_Some (clients (written data s cid') !! x)).
  { intros x Hx. unfold written. destruct (clients s !! cid') eqn:Hc'; [|done].
    simpl. rewrite lookup_insert. by case_decide. }
  assert (Hreg : userConnections (written data s cid') = userConnections s).
  { unfold written. by destruct (clients s !! cid'). }
  intros [Hr Hc]. split; [|by apply Hsome].
  intros u l x Hl Hx. rewrite Hreg in Hl. apply Hsome. by apply (Hr u l).
Qed.

Lemma refs_valid_at_register cid uid s :
  refs_valid_at cid s ->
  refs_valid_at cid (set_userConnections (register uid cid) s).
Proof.
  intros [Hr Hc]. split; [|done].
  intros u l x Hl Hx. simpl in *. rewrite register_lookup in Hl.
  case_decide as Hu.
  - injection Hl as <-. apply elem_of_set_add in Hx as [->|Hx]; [done|].
    destruct (userConnections s !! uid) as [l0|] eqn:Hl0; simpl in Hx.
    + by apply (Hr uid l0).
    + by apply elem_of_nil in Hx.
  - by apply (Hr u l).
Qed.

Lemma refs_valid_at_unregister cid uid cid' s :
  refs_valid_at cid s ->
  refs_valid_at cid (set_userConnections (unregister uid cid') s).
Proof.
  intros [Hr Hc]. split; [|done].
  intros u l x Hl Hx. simpl in *.
  destruct (unregister_lookup_sub _ _ _ _ _ _ Hl Hx) as (l0 & Hl0 & Hx0).
  by apply (Hr u l0).
Qed.

Lemma refs_valid_at_submit cid t s :
  refs_valid_at cid s -> refs_valid_at cid (submit t s).
Proof. by intros [Hr Hc]. Qed.

Ltac refs_step :=
  lazymatch goal with
  | |- preserves _ (ret _) => apply preserves_ret
  | |- preserves _ (throw _) => apply preserves_throw
  | |- preserves _ (sendToClient _ _) =>
      apply preserves_sendToClient; intros ? ?; by apply refs_valid_at_deliver
  | |- preserves _ (ws_send _ _) =>
      apply preserves_ws_send; intros ? ?; by apply refs_valid_at_written
  | |- preserves _ (update_client _ _) =>
      apply preserves_modify; intros ? ?; by apply refs_valid_at_alter
  | |- preserves _ (modify (set_userConnections (register _ _))) =>
      apply preserves_modify; intros ? ?; by apply refs_valid_at_register
  | |- preserves _ (modify (set_userConnections (unregister _ _))) =>
      apply preserves_modify; intros ? ?; by apply refs_valid_at_unregister
  | |- preserves _ (modify (submit _)) =>
      apply preserves_modify; intros ? ?; by apply refs_valid_at_submit
  | |- preserves _ (bind get _) => apply preserves_get_bind; intros ?
  | |- preserves _ (bind _ _) => apply preserves_bind; [|intros ?]
  | |- preserves _ (try_catch _ _) => apply preserves_try_catch; [|intros ?]
  | |- preserves _ (match ?x with _ => _ end) => destruct x
  end.

Ltac refs_auto := repeat refs_step.

Lemma Direct_onMessage_refs verifyToken cid data now taskId :
  preserves (refs_valid_at cid)
    (Direct.onMessage verifyToken cid data now taskId).
Proof.
  unfold Direct.onMessage, Direct.dispatch, Direct.handleAuth,
    Direct.handleDataRequest, JSON_parse, get_type.
  refs_auto.
Qed.

Lemma Direct_onClose_refs cid : preserves (refs_valid_at cid) (Direct.onClose cid).
Proof. unfold Direct.onClose. refs_auto. Qed.

Lemma Direct_heartbeatTimer_refs cid now :
  preserves (refs_valid_at cid) (Direct.heartbeatTimer cid now).
Proof. unfold Direct.heartbeatTimer. refs_auto. Qed.

Lemma Direct_send_loop_refs cid data (l : list string) n :
  preserves (refs_valid_at cid) (Direct.send_loop data l n).
Proof.
  revert n. induction l as [|x l IH]; intros n; simpl; refs_auto. apply IH.
Qed.

Lemma Direct_sendToUser_refs cid uid data :
  preserves (refs_valid_at cid) (Direct.sendToUser uid data).
Proof. unfold Direct.sendToUser. refs_auto. apply Direct_send_loop_refs. Qed.

(** ** The servers as event loops *)

(** What can happen to a server: a socket connects (under a fresh id), a
    frame arrives on a connected socket, a socket closes, a heartbeat timer
    fires, a result for a user comes back from the task backend. *)
Inductive Event :=
| Connection (cid : string) (sock : WebSocket) (now : Z)
| Inbound (cid : string) (data : Parsed) (now : Z) (mqConnected : bool)
    (taskId : string)
| Closed (cid : string)
| HeartbeatTick (cid : string) (now : Z)
| ResultFor (uid : JsStr) (result : Result).

(** Run [c] when connection [cid] exists: events of a socket that never
    connected do not occur. *)
Definition on_connection {A} (cid : string) (c : M Server A) : M Server unit :=
  let* s := get in
  match clients s !! cid with
  | Some _ => c ;; ret tt
  | None => ret tt
  end.

(** Ids come from [uuidv4()]: a connection never gets an id in use. *)
Definition on_fresh_id {A} (cid : string) (c : M Server A) : M Server unit :=
  let* s := get in
  match clients s !! cid with
  | Some _ => ret tt
  | None => c ;; ret tt
  end.

Definition Direct_handle (verifyToken : string -> option Decoded) (e : Event)
  : M Server unit :=
  match e with
  | Connection cid sock now =>
      on_fresh_id cid (Direct.onConnection cid sock now)
  | Inbound cid data now _ taskId =>
      on_connection cid (Direct.onMessage verifyToken cid data now taskId)
  | Closed cid => on_connection cid (Direct.onClose cid)
  | HeartbeatTick cid now => on_connection cid (Direct.heartbeatTimer cid now)
  | ResultFor uid result => Direct.sendToUser uid (Data result) ;; ret tt
  end.

Definition Queued_handle (verifyToken : string -> option Decoded) (e : Event)
  : M Server unit :=
  match e with
  | Connection cid sock now =>
      on_fresh_id cid (Queued.onConnection cid sock now)
  | Inbound cid data now mqConnected taskId =>
      on_connection cid
        (Queued._handleMessage verifyToken data cid now mqConnected taskId)
  | Closed cid => on_connection cid (Queued.onClose cid)
  | HeartbeatTick cid now => Queued.heartbeatCheck cid now
  | ResultFor uid result => Queued._sendToUser uid (Data result) ;; ret tt
  end.

(** The state after a sequence of events; an exception that leaves a
    handler does not undo what the handler did before. *)
Fixpoint run (handle : Event -> M Server unit) (events : list Event)
    (s : Server) : Server :=
  match events with
  | [] => s
  | e :: rest => run handle rest (exec (handle e) s)
  end.

Definition empty_server : Server :=
  {| clients := ∅; userConnections := ∅; submitted := [] |}.

Lemma run_invariant (P : Server -> Prop) handle :
  (forall e, preserves P (handle e)) ->
  forall events s, P s -> P (run handle events s).
Proof.
  intros Hh events. induction events as [|e rest IH]; intros s Hs; [done|].
  simpl. apply IH. by apply Hh.
Qed.

Lemma preserves_on_connection {A} (P : Server -> Prop) cid (c : M Server A) :
  (forall s, P s -> is_Some (clients s !! cid) -> P (exec c s)) ->
  preserves P (on_connection cid c).
Proof.
  intros Hc s Hs. unfold exec, on_connection, bind, get. simpl.
  destruct (clients s !! cid) as [x|] eqn:Hx; [|done].
  specialize (Hc s Hs). unfold exec in Hc.
  destruct (c s) as [[a|e] s']; simpl in *; apply Hc; by rewrite Hx.
Qed.

Lemma preserves_on_fresh_id {A} (P : Server -> Prop) cid (c : M Server A) :
  preserves P c -> preserves P (on_fresh_id cid c).
Proof.
  intros Hc s Hs. unfold exec, on_fresh_id, bind, get. simpl.
  destruct (clients s !! cid) as [x|]; [done|].
  specialize (Hc s Hs). unfold exec in Hc.
  by destruct (c s) as [[a|e] s'].
Qed.

Lemma preserves_then_ret {S A} (P : S -> Prop) (c : M S A) :
  preserves P c -> preserves P (c ;; ret tt).
Proof. intros Hc. apply preserves_bind; [done|]. intros. apply preserves_ret. Qed.

Lemma Direct_handle_tidy verifyToken e :
  preserves tidy_server (Direct_handle verifyToken e).
Proof.
  destruct e; simpl.
  - apply preserves_on_fresh_id. unfold Direct.onConnection. tidy_auto.
  - apply preserves_on_connection. intros s Hs _.
    by apply Direct_onMessage_tidy.
  - apply preserves_on_connection. intros s Hs _. revert s Hs.
    change (preserves tidy_server (Direct.onClose cid)).
    unfold Direct.onClose. tidy_auto.
  - apply preserves_on_connection. intros s Hs _. revert s Hs.
    change (preserves tidy_server (Direct.heartbeatTimer cid now)).
    unfold Direct.heartbeatTimer. tidy_auto.
  - apply preserves_then_ret. unfold Direct.sendToUser. tidy_auto.
    apply Direct_send_loop_tidy.
Qed.

Lemma Queued_handle_tidy verifyToken e :
  preserves tidy_server (Queued_handle verifyToken e).
Proof.
  destruct e; simpl.
  - apply preserves_on_fresh_id. unfold Queued.onConnection. tidy_auto.
  - apply preserves_on_connection. intros s Hs _.
    by apply Queued_handleMessage_tidy.
  - apply preserves_on_connection. intros s Hs _. revert s Hs.
    change (preserves tidy_server (Queued.onClose cid)).
    unfold Queued.onClose. tidy_auto.
  - unfold Queued.heartbeatCheck. tidy_auto.
  - apply preserves_then_ret. unfold Queued._sendToUser. tidy_auto.
    apply Queued_send_loop_tidy.
Qed.

Lemma refs_valid_at_intro cid s :
  refs_valid s -> is_Some (clients s !! cid) -> refs_valid_at cid s.
Proof. by split. Qed.

Lemma Direct_handle_refs verifyToken e :
  preserves refs_valid (Direct_handle verifyToken e).
Proof.
  destruct e; simpl.
  - intros s Hs. unfold exec, on_fresh_id, Direct.onConnection, bind, get,
      modify. simpl.
    destruct (clients s !! cid) as [x|] eqn:Hx; [done|].
    assert (Hat : refs_valid_at cid
                    (set_clients (insert cid (new_client cid sock now)) s)).
    { split; [|simpl; by rewrite lookup_insert_eq].
      intros u l y Hl Hy. simpl. rewrite lookup_insert. case_decide; [done|].
      by apply (Hs u l). }
    pose proof (preserves_sendToClient (refs_valid_at cid) cid (Welcome cid)
                  (fun s H => refs_valid_at_deliver cid _ cid s H) _ Hat) as Hp.
    unfold exec in Hp.
    destruct (sendToClient cid (Welcome cid) _) as [[a|e] s']; apply Hp.
  - apply preserves_on_connection. intros s Hs Hc.
    by apply Direct_onMessage_refs.
  - apply preserves_on_connection. intros s Hs Hc.
    by apply Direct_onClose_refs.
  - apply preserves_on_connection. intros s Hs Hc.
    by apply Direct_heartbeatTimer_refs.
  - apply preserves_then_ret. intros s Hs.
    unfold exec, Direct.sendToUser, bind, get. simpl.
    destruct (userConnections s !! uid) as [[|x l]|] eqn:Hl; [done| |done].
    simpl. assert (Hat : refs_valid_at x s).
    { split; [done|]. apply (Hs uid (x :: l)); [done|]. apply elem_of_cons.
      by left. }
    by apply (Direct_send_loop_refs x (Data result) (x :: l) 0%nat s).
Qed.

(** X1. Whatever the events, in both servers every bucket of the registry
    is a Set with at least one member: a user has an entry only while some
    connection is registered for it, and no connection is listed twice. *)
Theorem reachable_registry_is_tidy
    (verifyToken : string -> option Decoded) (events : list Event)
    (u : JsStr) (l : list string) :
  (userConnections (run (Direct_handle verifyToken) events empty_server) !! u
     = Some l -> l ≠ [] /\ NoDup l)
  /\ (userConnections (run (Queued_handle verifyToken) events empty_server) !! u
        = Some l -> l ≠ [] /\ NoDup l).
Proof.
  assert (H0 : tidy_server empty_server) by (intros ? ? ?; done).
  split; intros Hl.
  - by apply (run_invariant tidy_server _ (Direct_handle_tidy verifyToken)
                events empty_server H0 u l).
  - by apply (run_invariant tidy_server _ (Queued_handle_tidy verifyToken)
                events empty_server H0 u l).
Qed.

Lemma reachable_registry_witness :
  userConnections
    (run (Queued_handle verify_two)
       [Connection "c1" (open_socket false) 0;
        Inbound "c1" (JsonValue (auth_message "t1")) 10 true "task-1";
        Inbound "c1" (JsonValue (auth_message "t1")) 20 true "task-2"]
       empty_server) !! Some "1" = Some ["c1"]
  /\ NoDup ["c1"].
Proof.
  assert (Hl : userConnections
    (run (Queued_handle verify_two)
       [Connection "c1" (open_socket false) 0;
        Inbound "c1" (JsonValue (auth_message "t1")) 10 true "task-1";
        Inbound "c1" (JsonValue (auth_message "t1")) 20 true "task-2"]
       empty_server) !! Some "1" = Some ["c1"]) by reflexivity.
  split; [exact Hl|].
  destruct (reachable_registry_is_tidy verify_two
              [Connection "c1" (open_socket false) 0;
               Inbound "c1" (JsonValue (auth_message "t1")) 10 true "task-1";
               Inbound "c1" (JsonValue (auth_message "t1")) 20 true "task-2"]
              (Some "1") ["c1"]) as [_ Hq].
  by apply Hq.
Defined.

(** X2. Whatever the events that led to it, on the state of the direct
    server [sendToUser] returns normally, with the number of the user's
    connections whose write succeeds, which is at most the size of the
    user's set. *)
Theorem direct_fan_out_is_total_on_reachable_states
    (verifyToken : string -> option Decoded) (events : list Event)
    (uid : JsStr) (data : Frame) :
  let s := run (Direct_handle verifyToken) events empty_server in
  exists n s',
    Direct.sendToUser uid data s = (Ok n, s')
    /\ n = length (filter (fun cid => writable s cid = true)
                     (connectionsFor s uid))
    /\ (n <= length (connectionsFor s uid))%nat
    /\ userConnections s' = userConnections s.
Proof.
  intros s.
  assert (Hrefs : refs_valid s).
  { apply (run_invariant refs_valid _ (Direct_handle_refs verifyToken)).
    intros u l cid Hl. done. }
  exists (length (filter (fun cid => writable s cid = true)
                    (connectionsFor s uid))),
         (fan_out data s (connectionsFor s uid)).
  split.
  { unfold Direct.sendToUser, bind, get, connectionsFor. simpl.
    destruct (userConnections s !! uid) as [conns|] eqn:Hl; [|done]. simpl.
    case_decide as Hlen.
    - apply length_zero_iff_nil in Hlen. by subst.
    - rewrite Direct_send_loop_spec; [done|].
      apply Forall_forall. intros x Hx. by apply (Hrefs uid conns). }
  split; [done|]. split; [apply length_filter|].
  apply fan_out_userConnections.
Qed.

(** ** Authentication *)

(** The state after a successful authentication of [cid] for [uid], before
    the answer is written. *)
Definition authenticated_as (uid : JsStr) (cid : string) (s : Server) : Server :=
  set_userConnections (register uid cid)
    (set_clients (alter (set_auth uid) cid) s).

Lemma authenticated_as_lookup uid cid s c :
  clients s !! cid = Some c ->
  clients (authenticated_as uid cid s) !! cid = Some (set_auth uid c).
Proof.
  intros Hc. unfold authenticated_as. simpl. rewrite lookup_alter.
  case_decide; [|done]. by rewrite Hc.
Qed.

Lemma Direct_handleAuth_success verifyToken s cid c message token decoded :
  clients s !! cid = Some c ->
  msg_token message = Some token -> token ≠ "" ->
  verifyToken token = Some decoded ->
  Direct.handleAuth verifyToken cid message s
  = (Ok tt, deliver (AuthSuccess (dec_userId decoded))
              (authenticated_as (dec_userId decoded) cid s) cid).
Proof.
  intros Hc Htok Hne Hver. unfold Direct.handleAuth.
  rewrite Htok, (truthy_nonempty _ Hne). simpl. rewrite Hver.
  unfold bind at 1, update_client, modify. unfold bind at 1.
  exact (reply_only _ _ _ _ (authenticated_as_lookup _ _ _ _ Hc)).
Qed.

Lemma Queued_handleAuth_success verifyToken s cid c message token decoded :
  clients s !! cid = Some c ->
  msg_token message = Some token -> token ≠ "" ->
  verifyToken token = Some decoded ->
  truthy (js_or (dec_userId decoded) (dec_sub decoded)) = true ->
  Queued._handleAuth verifyToken message cid s
  = (Ok tt, deliver (AuthSuccess (js_or (dec_userId decoded) (dec_sub decoded)))
              (authenticated_as (js_or (dec_userId decoded) (dec_sub decoded))
                 cid s) cid).
Proof.
  intros Hc Htok Hne Hver Hu. unfold Queued._handleAuth.
  rewrite Htok, (truthy_nonempty _ Hne). simpl. rewrite Hver, Hu. simpl.
  unfold bind at 1, update_client, modify. unfold bind at 1.
  exact (reply_only _ _ _ _ (authenticated_as_lookup _ _ _ _ Hc)).
Qed.

Lemma register_member (uid : JsStr) (cid : string)
    (m : gmap JsStr (list string)) :
  exists l, register uid cid m !! uid = Some l /\ cid ∈ l.
Proof.
  eexists. rewrite register_lookup, decide_True by done. split; [done|].
  apply elem_of_set_add. by left.
Qed.

Lemma register_idempotent (uid : JsStr) (cid : string)
    (m : gmap JsStr (list string)) :
  register uid cid (register uid cid m) = register uid cid m.
Proof.
  apply map_eq. intros u. rewrite !register_lookup.
  case_decide; [|done]. rewrite decide_True by done. simpl. f_equal.
  unfold set_add at 1. rewrite decide_True; [done|].
  apply elem_of_set_add. by left.
Qed.

(** What a successful authentication leaves behind. *)
Definition registered (uid : JsStr) (cid : string) (c : ClientState)
    (s s' : Server) : Prop :=
  clients s' !! cid
    = Some (set_ws (attempt (AuthSuccess uid) (ws c)) (set_auth uid c))
  /\ userConnections s' = register uid cid (userConnections s)
  /\ cid ∈ connectionsFor s' uid
  /\ (forall u, u ≠ uid -> connectionsFor s' u = connectionsFor s u)
  /\ (forall cid', cid' ≠ cid -> clients s' !! cid' = clients s !! cid')
  /\ submitted s' = submitted s.

Lemma deliver_authenticated_registered uid cid c s :
  clients s !! cid = Some c ->
  registered uid cid c s
    (deliver (AuthSuccess uid) (authenticated_as uid cid s) cid).
Proof.
  intros Hc. pose proof (authenticated_as_lookup uid cid s c Hc) as Hc1.
  split. { by rewrite deliver_lookup_eq, Hc1. }
  split. { by rewrite deliver_userConnections. }
  split.
  { unfold connectionsFor. rewrite deliver_userConnections. simpl.
    destruct (register_member uid cid (userConnections s)) as (l & -> & Hin).
    done. }
  split.
  { intros u Hu. unfold connectionsFor. rewrite deliver_userConnections. simpl.
    rewrite register_lookup. by rewrite decide_False. }
  split.
  { intros cid' Hne. rewrite deliver_lookup_ne by done. simpl.
    rewrite lookup_alter. by rewrite decide_False. }
  by rewrite deliver_submitted.
Qed.

(** X3. An auth frame whose token verifies, on connection [cid].  Direct
    server: the connection becomes authenticated for [decoded.userId],
    whatever that is.  Queued server: for [decoded.userId || decoded.sub],
    when that is truthy.  In both, [auth_success] is the one frame written,
    the connection joins the user's Set (once: authenticating again for the
    same user changes nothing in the registry), and the Sets of the other
    users, the other connections and the submitted tasks are as before. *)
Theorem auth_with_valid_token_registers_the_connection
    (verifyToken : string -> option Decoded) (s : Server) (cid : string)
    (c : ClientState) (message : Message) (token : string) (decoded : Decoded) :
  clients s !! cid = Some c ->
  msg_token message = Some token ->
  token ≠ "" ->
  verifyToken token = Some decoded ->
  (exists s',
     Direct.handleAuth verifyToken cid message s = (Ok tt, s')
     /\ registered (dec_userId decoded) cid c s s'
     /\ userConnections (exec (Direct.handleAuth verifyToken cid message) s')
        = userConnections s')
  /\ (truthy (js_or (dec_userId decoded) (dec_sub decoded)) = true ->
      exists s',
        Queued._handleAuth verifyToken message cid s = (Ok tt, s')
        /\ registered (js_or (dec_userId decoded) (dec_sub decoded)) cid c s s'
        /\ userConnections (exec (Queued._handleAuth verifyToken message cid) s')
           = userConnections s').
Proof.
  intros Hc Htok Hne Hver. split.
  - eexists. split; [exact (Direct_handleAuth_success _ _ _ _ _ _ _ Hc Htok Hne Hver)|].
    pose proof (deliver_authenticated_registered (dec_userId decoded) cid c s Hc)
      as Hreg.
    split; [exact Hreg|].
    destruct Hreg as (Hc' & Hu' & _). unfold exec.
    rewrite (Direct_handleAuth_success _ _ _ _ _ _ _ Hc' Htok Hne Hver).
    simpl. rewrite deliver_userConnections. simpl. rewrite Hu'.
    apply register_idempotent.
  - intros Hu. eexists.
    split; [exact (Queued_handleAuth_success _ _ _ _ _ _ _ Hc Htok Hne Hver Hu)|].
    pose proof (deliver_authenticated_registered
                  (js_or (dec_userId decoded) (dec_sub decoded)) cid c s Hc)
      as Hreg.
    split; [exact Hreg|].
    destruct Hreg as (Hc' & Hu' & _). unfold exec.
    rewrite (Queued_handleAuth_success _ _ _ _ _ _ _ Hc' Htok Hne Hver Hu).
    simpl. rewrite deliver_userConnections. simpl. rewrite Hu'.
    apply register_idempotent.
Qed.

Lemma auth_with_valid_token_witness :
  connectionsFor
    (exec (Queued._handleAuth verify_two (auth_message "t1") "c1") server_one)
    (Some "1") = ["c1"]
  /\ (authenticated <$>
        clients (exec (Direct.handleAuth verify_two "c1" (auth_message "t1"))
                   server_one) !! "c1") = Some true.
Proof.
  destruct (auth_with_valid_token_registers_the_connection verify_two
              server_one "c1" (fresh_client "c1") (auth_message "t1") "t1"
              {| dec_userId := Some "1"; dec_sub := None |})
    as ((sd & Hd & (Hcd & _) & _) & Hq);
    [reflexivity | reflexivity | discriminate | reflexivity |].
  destruct Hq as (sq & Hq & (_ & Hreg & _) & _); [reflexivity|].
  unfold exec. rewrite Hd, Hq. simpl. split.
  - unfold connectionsFor. rewrite Hreg. reflexivity.
  - by rewrite Hcd.
Defined.

(** X4. An auth frame without a token (absent, or the empty string), or
    with a token that fails verification: both servers write one
    [auth_failure] frame on the connection and change nothing else, so the
    connection is neither authenticated nor registered by it. *)
Theorem auth_without_valid_token_changes_nothing
    (verifyToken : string -> option Decoded) (s : Server) (cid : string)
    (c : ClientState) (message : Message) :
  clients s !! cid = Some c ->
  truthy (msg_token message) = false
  \/ verifyToken (default "" (msg_token message)) = None ->
  exists textD textQ,
    Direct.handleAuth verifyToken cid message s
      = (Ok tt, deliver (AuthFailure textD) s cid)
    /\ Queued._handleAuth verifyToken message cid s
       = (Ok tt, deliver (AuthFailure textQ) s cid)
    /\ replied (AuthFailure textD) s (deliver (AuthFailure textD) s cid) cid
    /\ replied (AuthFailure textQ) s (deliver (AuthFailure textQ) s cid) cid
    /\ undisturbed s (deliver (AuthFailure textD) s cid) cid
    /\ undisturbed s (deliver (AuthFailure textQ) s cid) cid.
Proof.
  intros Hc Hbad.
  assert (Hrun : exists textD textQ,
    Direct.handleAuth verifyToken cid message s
      = (Ok tt, deliver (AuthFailure textD) s cid)
    /\ Queued._handleAuth verifyToken message cid s
       = (Ok tt, deliver (AuthFailure textQ) s cid)).
  { unfold Direct.handleAuth, Queued._handleAuth.
    destruct (truthy (msg_token message)) eqn:Ht; simpl.
    - destruct Hbad as [?|Hver]; [done|]. rewrite Hver.
      do 2 eexists. split; exact (reply_only _ _ _ _ Hc).
    - do 2 eexists. split; exact (reply_only _ _ _ _ Hc). }
  destruct Hrun as (textD & textQ & HD & HQ). exists textD, textQ.
  split; [done|]. split; [done|].
  split; [by apply deliver_replied with c|].
  split; [by apply deliver_replied with c|].
  split; apply deliver_undisturbed.
Qed.

Lemma auth_without_valid_token_witness :
  (authenticated <$>
     clients (exec (Queued._handleAuth verify_two (auth_message "forged") "c1")
                server_one) !! "c1") = Some false
  /\ userConnections
       (exec (Direct.handleAuth verify_two "c1" (auth_message "forged"))
          server_one) = ∅.
Proof.
  destruct (auth_without_valid_token_changes_nothing verify_two server_one
              "c1" (fresh_client "c1") (auth_message "forged") eq_refl)
    as (textD & textQ & HD & HQ & _ & _ & (_ & HregD & _) & (HstQ & _));
    [by right|].
  unfold exec. rewrite HD, HQ. simpl. split.
  - unfold standing in HstQ.
    destruct (clients (deliver (AuthFailure textQ) server_one "c1") !! "c1")
      as [c'|]; [|discriminate].
    simpl in *. injection HstQ as _ Ha _ _. by rewrite Ha.
  - by rewrite HregD.
Defined.

(** X5. The direct server does not check the payload of a verified token:
    when it has no [userId], the connection is authenticated all the same
    and joins the Set kept under the key [undefined]; and the close
    handler, which skips a falsy user id, never takes it out again. *)
Theorem direct_server_accepts_a_token_without_user_id
    (verifyToken : string -> option Decoded) (s : Server) (cid : string)
    (c : ClientState) (message : Message) (token : string) (decoded : Decoded) :
  clients s !! cid = Some c ->
  msg_token message = Some token ->
  token ≠ "" ->
  verifyToken token = Some decoded ->
  dec_userId decoded = None ->
  let s1 := exec (Direct.handleAuth verifyToken cid message) s in
  let s2 := exec (Direct.onClose cid) s1 in
  (authenticated <$> clients s1 !! cid) = Some true
  /\ (userId <$> clients s1 !! cid) = Some None
  /\ cid ∈ connectionsFor s1 None
  /\ userConnections s2 = userConnections s1
  /\ cid ∈ connectionsFor s2 None.
Proof.
  intros Hc Htok Hne Hver Hnone s1 s2.
  pose proof (Direct_handleAuth_success _ _ _ _ _ _ _ Hc Htok Hne Hver) as Hrun.
  rewrite Hnone in Hrun.
  pose proof (deliver_authenticated_registered None cid c s Hc)
    as (Hc1 & Hreg & Hin & _).
  assert (Hs1 : s1 = deliver (AuthSuccess None) (authenticated_as None cid s) cid).
  { subst s1. unfold exec. by rewrite Hrun. }
  assert (Hs2 : userConnections s2 = userConnections s1).
  { subst s2. unfold exec, Direct.onClose, bind, get, modify, update_client.
    simpl. rewrite Hs1, Hc1. done. }
  rewrite Hs1 in *. rewrite Hc1. split; [done|]. split; [done|].
  split; [done|]. split; [done|].
  unfold connectionsFor in *. by rewrite Hs2.
Qed.

Lemma direct_server_token_without_user_id_witness :
  connectionsFor
    (exec (Direct.onClose "c1")
       (exec (Direct.handleAuth verify_anon "c1" (auth_message "anon"))
          server_one))
    None = ["c1"].
Proof.
  destruct (direct_server_accepts_a_token_without_user_id verify_anon
              server_one "c1" (fresh_client "c1") (auth_message "anon") "anon"
              {| dec_userId := None; dec_sub := None |})
    as (_ & _ & _ & _ & Hin);
    [reflexivity | reflexivity | discriminate | reflexivity | reflexivity |].
  reflexivity.
Defined.

(** ** Closing a connection *)

Lemma Queued_onClose_run s cid c :
  clients s !! cid = Some c ->
  Queued.onClose cid s
  = (Ok tt, set_clients (delete cid)
              (set_userConnections (unregister (userId c) cid) s)).
Proof.
  intros Hc. unfold Queued.onClose, bind, get, modify. simpl. by rewrite Hc.
Qed.

Lemma Direct_onClose_run s cid c :
  clients s !! cid = Some c ->
  Direct.onClose cid s
  = (Ok tt, set_clients (alter clear_heartbeat cid)
              (set_userConnections (unregister (userId c) cid) s)).
Proof.
  intros Hc. unfold Direct.onClose, bind, get, modify, update_client. simpl.
  by rewrite Hc.
Qed.

Lemma connectionsFor_unregister (uid u : JsStr) (cid : string)
    (m : gmap JsStr (list string)) :
  default [] (unregister uid cid m !! u)
  = if decide (u = uid /\ truthy uid = true)
    then set_delete cid (default [] (m !! uid))
    else default [] (m !! u).
Proof.
  rewrite unregister_lookup. case_decide; [|done].
  destruct (m !! uid) as [l|]; [|done]. simpl.
  case_decide as He; [by rewrite He|done].
Qed.

(** What a close does to the registry, [uid] being the user id held by
    the connection object. *)
Definition unregistered (uid : JsStr) (cid : string) (s s' : Server) : Prop :=
  (truthy uid = true ->
     connectionsFor s' uid = set_delete cid (connectionsFor s uid)
     /\ (cid ∉ connectionsFor s' uid)
     /\ (set_delete cid (connectionsFor s uid) = [] ->
           userConnections s' !! uid = None))
  /\ (truthy uid = false -> userConnections s' = userConnections s)
  /\ (forall u, u ≠ uid -> connectionsFor s' u = connectionsFor s u)
  /\ (forall cid', cid' ≠ cid -> clients s' !! cid' = clients s !! cid').

Lemma unregistered_intro uid cid s s' :
  userConnections s' = unregister uid cid (userConnections s) ->
  (forall cid', cid' ≠ cid -> clients s' !! cid' = clients s !! cid') ->
  unregistered uid cid s s'.
Proof.
  intros Hreg Hothers. split.
  { intros Ht.
    assert (Hfor : connectionsFor s' uid = set_delete cid (connectionsFor s uid)).
    { unfold connectionsFor. rewrite Hreg, connectionsFor_unregister.
      by rewrite decide_True. }
    split; [done|]. split.
    - rewrite Hfor. intros Hin. apply elem_of_set_delete in Hin as [Hne _].
      by apply Hne.
    - intros He. rewrite Hreg, unregister_lookup, decide_True by done.
      unfold connectionsFor in He.
      destruct (userConnections s !! uid) as [l|]; [|done]. simpl in He.
      by rewrite decide_True. }
  split.
  { intros Hf. rewrite Hreg. unfold unregister. by rewrite Hf. }
  split; [|done].
  intros u Hu. unfold connectionsFor. rewrite Hreg, connectionsFor_unregister.
  rewrite decide_False; [done|]. by intros [? _].
Qed.

(** X6. Closing connection [cid], whose object says it belongs to user
    [uid].  When [uid] is truthy, [cid] leaves the Set of [uid], the other
    members keep their order, and the entry of [uid] is dropped when the
    Set becomes empty; when [uid] is falsy (never authenticated) the
    registry is not touched.  The Sets of the other users and the other
    connections never change.  The queued server also forgets the
    connection object; the direct server clears its heartbeat timer. *)
Theorem close_unregisters_the_connection
    (s : Server) (cid : string) (c : ClientState) :
  clients s !! cid = Some c ->
  unregistered (userId c) cid s (exec (Queued.onClose cid) s)
  /\ unregistered (userId c) cid s (exec (Direct.onClose cid) s)
  /\ clients (exec (Queued.onClose cid) s) !! cid = None
  /\ clients (exec (Direct.onClose cid) s) !! cid = Some (clear_heartbeat c).
Proof.
  intros Hc. unfold exec.
  rewrite (Queued_onClose_run _ _ _ Hc), (Direct_onClose_run _ _ _ Hc). simpl.
  split.
  { apply unregistered_intro; [done|]. intros cid' Hne. simpl.
    by rewrite lookup_delete_ne. }
  split.
  { apply unregistered_intro; [done|]. intros cid' Hne. simpl.
    rewrite lookup_alter. by rewrite decide_False. }
  split; [apply lookup_delete_eq|].
  rewrite lookup_alter, decide_True by done. by rewrite Hc.
Qed.

(** A and B are connections of user "1"; A closes. *)
Lemma close_unregisters_witness :
  connectionsFor (exec (Queued.onClose "A") server_AB) (Some "1") = ["B"]
  /\ ("A" ∉ connectionsFor (exec (Queued.onClose "A") server_AB) (Some "1"))
  /\ clients (exec (Queued.onClose "A") server_AB) !! "A" = None.
Proof.
  destruct (close_unregisters_the_connection server_AB "A"
              (client_of "A" (Some "1") (open_socket true)) eq_refl)
    as ((Hmem & _) & _ & Hgone & _).
  destruct (Hmem eq_refl) as (Hfor & Hnot & _).
  split; [exact Hfor|]. split; [exact Hnot|]. exact Hgone.
Defined.

Lemma unregister_register (uid : JsStr) (cid : string)
    (m : gmap JsStr (list string)) :
  truthy uid = true -> tidy m -> cid ∉ default [] (m !! uid) ->
  unregister uid cid (register uid cid m) = m.
Proof.
  intros Ht Htidy Hfresh. apply map_eq. intros u.
  rewrite unregister_lookup. case_decide as Hu.
  - destruct Hu as [-> _]. rewrite register_lookup, decide_True by done.
    assert (Hadd : set_add cid (default [] (m !! uid))
                   = (default [] (m !! uid) ++ [cid])%list).
    { unfold set_add. by rewrite decide_False. }
    rewrite Hadd, set_delete_fresh by done.
    destruct (m !! uid) as [l|] eqn:Hl; simpl.
    + destruct (decide (l = [])) as [He|He]; [|done].
      by destruct (Htidy uid l Hl).
    + by destruct (decide (@nil string = [])).
  - rewrite register_lookup, decide_False; [done|].
    intros ->. by apply Hu.
Qed.

(** X7. Authentication followed by close is a round trip on the registry:
    when a connection that is not yet in the Set of the token's user
    authenticates and then closes, the registry is exactly what it was
    before, in both servers (the user id being truthy, as it is for every
    token the login endpoint issues). *)
Theorem auth_then_close_restores_the_registry
    (verifyToken : string -> option Decoded) (s : Server) (cid : string)
    (c : ClientState) (message : Message) (token : string) (decoded : Decoded) :
  clients s !! cid = Some c ->
  msg_token message = Some token ->
  token ≠ "" ->
  verifyToken token = Some decoded ->
  truthy (dec_userId decoded) = true ->
  tidy_server s ->
  cid ∉ connectionsFor s (dec_userId decoded) ->
  userConnections
    (exec (Direct.onClose cid) (exec (Direct.handleAuth verifyToken cid message) s))
  = userConnections s
  /\ userConnections
       (exec (Queued.onClose cid)
          (exec (Queued._handleAuth verifyToken message cid) s))
     = userConnections s.
Proof.
  intros Hc Htok Hne Hver Ht Htidy Hfresh.
  assert (Hor : js_or (dec_userId decoded) (dec_sub decoded) = dec_userId decoded).
  { unfold js_or. by rewrite Ht. }
  pose proof (deliver_authenticated_registered (dec_userId decoded) cid c s Hc)
    as (Hc1 & Hreg & _).
  split; unfold exec.
  - rewrite (Direct_handleAuth_success _ _ _ _ _ _ _ Hc Htok Hne Hver). simpl.
    rewrite (Direct_onClose_run _ _ _ Hc1). simpl.
    rewrite deliver_userConnections. simpl.
    by apply unregister_register.
  - rewrite (Queued_handleAuth_success _ _ _ _ _ _ _ Hc Htok Hne Hver)
      by (by rewrite Hor).
    rewrite Hor. simpl.
    rewrite (Queued_onClose_run _ _ _ Hc1). simpl.
    rewrite deliver_userConnections. simpl.
    by apply unregister_register.
Qed.

Lemma auth_then_close_witness :
  userConnections
    (exec (Queued.onClose "c1")
       (exec (Queued._handleAuth verify_two (auth_message "t1") "c1") server_one))
  = ∅.
Proof.
  apply (auth_then_close_restores_the_registry verify_two server_one "c1"
           (fresh_client "c1") (auth_message "t1") "t1"
           {| dec_userId := Some "1"; dec_sub := None |});
    [reflexivity | reflexivity | discriminate | reflexivity | reflexivity
    | intros ? ? ?; done | compute_done].
Defined.

(** ** Data requests *)

Definition request_message (requestId : JsStr) : Message :=
  {| msg_type := Some "request_data"; msg_token := None;
     msg_requestId := requestId; msg_timestamp := None |}.

Lemma refreshed_replied f cid now s c :
  clients s !! cid = Some c ->
  replied f s (deliver f (refreshed cid now s) cid) cid.
Proof.
  intros Hc. pose proof (refreshed_lookup cid now s c Hc) as Hc1.
  exists c, (set_ws (attempt f (ws (set_lastHeartbeat now c)))
               (set_lastHeartbeat now c)).
  split; [done|]. split; [|done]. by rewrite deliver_lookup_eq, Hc1.
Qed.

Lemma refreshed_deliver_undisturbed f cid now s :
  undisturbed s (deliver f (refreshed cid now s) cid) cid.
Proof.
  eapply undisturbed_trans;
    [apply refreshed_undisturbed | apply deliver_undisturbed].
Qed.

Lemma Direct_request_unauthenticated verifyToken s cid c m now taskId :
  clients s !! cid = Some c -> authenticated c = false ->
  msg_type m = Some "request_data" ->
  Direct.onMessage verifyToken cid (JsonValue m) now taskId s
  = (Ok tt, deliver (ErrorFrame (msg_requestId m) "authentication required")
              (refreshed cid now s) cid).
Proof.
  intros Hc Ha Ht.
  pose proof (refreshed_lookup cid now s c Hc) as Hc1.
  unfold Direct.onMessage, try_catch. unfold bind at 1. simpl.
  unfold bind at 1, update_client, modify. fold (refreshed cid now s).
  unfold Direct.dispatch. unfold bind at 1. simpl. rewrite Ht.
  do 2 (case_decide; [discriminate|]). case_decide; [|contradiction].
  unfold Direct.handleDataRequest. unfold bind at 1, get. rewrite Hc1.
  simpl. rewrite Ha. simpl. by rewrite (reply_only _ _ _ _ Hc1).
Qed.

Lemma Queued_request_unauthenticated verifyToken s cid c m now mq taskId :
  clients s !! cid = Some c -> authenticated c = false ->
  msg_type m = Some "request_data" ->
  Queued._handleMessage verifyToken (JsonValue m) cid now mq taskId s
  = (Ok tt, deliver (ErrorFrame None "Authentication required")
              (refreshed cid now s) cid).
Proof.
  intros Hc Ha Ht.
  pose proof (refreshed_lookup cid now s c Hc) as Hc1.
  unfold Queued._handleMessage. unfold bind at 1. simpl.
  unfold bind at 1, update_client, modify. fold (refreshed cid now s).
  unfold Queued.dispatch. unfold bind at 1. simpl. rewrite Ht.
  do 2 (case_decide; [discriminate|]). case_decide; [|contradiction].
  unfold bind at 1, get. rewrite Hc1. simpl. rewrite Ha. simpl.
  exact (reply_only _ _ _ _ Hc1).
Qed.

(** X8. A [request_data] frame on a connection that is not authenticated:
    both servers answer with one [error] frame and hand no task to the
    backend; the connection and the registry are undisturbed.  The direct
    server's error carries the [requestId] of the request; the queued
    server's error carries none. *)
Theorem data_request_needs_authentication
    (verifyToken : string -> option Decoded) (s : Server) (cid : string)
    (c : ClientState) (m : Message) (now : Z) (mq : bool) (taskId : string) :
  clients s !! cid = Some c ->
  authenticated c = false ->
  msg_type m = Some "request_data" ->
  exists sd sq,
    Direct.onMessage verifyToken cid (JsonValue m) now taskId s = (Ok tt, sd)
    /\ Queued._handleMessage verifyToken (JsonValue m) cid now mq taskId s
       = (Ok tt, sq)
    /\ replied (ErrorFrame (msg_requestId m) "authentication required") s sd cid
    /\ replied (ErrorFrame None "Authentication required") s sq cid
    /\ submitted sd = submitted s /\ submitted sq = submitted s
    /\ undisturbed s sd cid /\ undisturbed s sq cid.
Proof.
  intros Hc Ha Ht. do 2 eexists.
  split; [exact (Direct_request_unauthenticated _ _ _ _ _ _ _ Hc Ha Ht)|].
  split; [exact (Queued_request_unauthenticated _ _ _ _ _ _ _ _ Hc Ha Ht)|].
  split; [exact (refreshed_replied _ _ _ _ _ Hc)|].
  split; [exact (refreshed_replied _ _ _ _ _ Hc)|].
  pose proof (refreshed_deliver_undisturbed
                (ErrorFrame (msg_requestId m) "authentication required")
                cid now s) as Hd.
  pose proof (refreshed_deliver_undisturbed
                (ErrorFrame None "Authentication required") cid now s) as Hq.
  split; [apply Hd|]. split; [apply Hq|]. done.
Qed.

Lemma data_request_needs_authentication_witness :
  submitted
    (exec (Direct.onMessage verify_two "c1"
             (JsonValue (request_message (Some "req-1"))) 5 "task-1") server_one)
  = []
  /\ (calls <$> (ws <$>
        clients (exec (Queued._handleMessage verify_two
                         (JsonValue (request_message (Some "req-1"))) "c1" 5
                         true "task-1") server_one) !! "c1"))
     = Some [Sent (ErrorFrame None "Authentication required")].
Proof.
  destruct (data_request_needs_authentication verify_two server_one "c1"
              (fresh_client "c1") (request_message (Some "req-1")) 5 true
              "task-1" eq_refl eq_refl eq_refl)
    as (sd & sq & Hd & Hq & _ & (c0 & c' & Hc0 & Hc' & Hws) & Hsub & _).
  unfold exec. rewrite Hd, Hq. simpl. split; [exact Hsub|].
  rewrite Hc'. simpl. rewrite Hws. injection Hc0 as <-. reflexivity.
Defined.






(** ** Heartbeat frames and the monitor *)

Lemma Queued_ping_run verifyToken s cid c m now mq taskId :
  clients s !! cid = Some c -> msg_type m = Some "ping" ->
  Queued._handleMessage verifyToken (JsonValue m) cid now mq taskId s
  = (Ok tt, deliver (Pong now (msg_timestamp m)) (refreshed cid now s) cid).
Proof.
  intros Hc Ht.
  pose proof (refreshed_lookup cid now s c Hc) as Hc1.
  unfold Queued._handleMessage. unfold bind at 1. simpl.
  unfold bind at 1, update_client, modify. fold (refreshed cid now s).
  unfold Queued.dispatch. unfold bind at 1. simpl. rewrite Ht.
  case_decide; [discriminate|]. case_decide; [|contradiction].
  exact (reply_only _ _ _ _ Hc1).
Qed.

Lemma Direct_pong_run verifyToken s cid m now taskId :
  msg_type m = Some "pong" ->
  Direct.onMessage verifyToken cid (JsonValue m) now taskId s
  = (Ok tt, refreshed cid now s).
Proof.
  intros Ht. unfold Direct.onMessage, try_catch. unfold bind at 1. simpl.
  unfold bind at 1, update_client, modify. fold (refreshed cid now s).
  unfold Direct.dispatch. unfold bind at 1. simpl. rewrite Ht.
  case_decide; [discriminate|]. case_decide; [|contradiction]. done.
Qed.

(** X10. Heartbeat frames from the client.  The queued server answers a
    [ping] with one [pong] whose [timestamp] is the current time and whose
    [echo] is the [timestamp] of the ping.  The direct server takes a
    [pong] in silence.  Either way the connection and the registry are
    undisturbed. *)
Theorem heartbeat_frames_are_answered
    (verifyToken : string -> option Decoded) (s : Server) (cid : string)
    (c : ClientState) (m : Message) (now : Z) (mq : bool) (taskId : string) :
  clients s !! cid = Some c ->
  (msg_type m = Some "ping" ->
   exists sq,
     Queued._handleMessage verifyToken (JsonValue m) cid now mq taskId s
       = (Ok tt, sq)
     /\ replied (Pong now (msg_timestamp m)) s sq cid
     /\ undisturbed s sq cid)
  /\ (msg_type m = Some "pong" ->
      exists sd,
        Direct.onMessage verifyToken cid (JsonValue m) now taskId s = (Ok tt, sd)
        /\ silent s sd cid
        /\ undisturbed s sd cid).
Proof.
  intros Hc. split; intros Ht; eexists.
  - split; [exact (Queued_ping_run _ _ _ _ _ _ _ _ Hc Ht)|].
    split; [exact (refreshed_replied _ _ _ _ _ Hc)|].
    apply refreshed_deliver_undisturbed.
  - split; [exact (Direct_pong_run _ _ _ _ _ _ Ht)|]. split.
    + unfold silent. by rewrite (refreshed_lookup _ _ _ _ Hc), Hc.
    + apply refreshed_undisturbed.
Qed.

Lemma heartbeat_frames_witness :
  (calls <$> (ws <$>
     clients (exec (Queued._handleMessage verify_two
                      (JsonValue {| msg_type := Some "ping"; msg_token := None;
                                    msg_requestId := None;
                                    msg_timestamp := Some 41 |})
                      "c1" 50 true "task-1") server_one) !! "c1"))
  = Some [Sent (Pong 50 (Some 41))].
Proof.
  destruct (heartbeat_frames_are_answered verify_two server_one "c1"
              (fresh_client "c1")
              {| msg_type := Some "ping"; msg_token := None;
                 msg_requestId := None; msg_timestamp := Some 41 |}
              50 true "task-1" eq_refl) as [Hping _].
  destruct (Hping eq_refl) as (sq & Hrun & (c0 & c' & Hc0 & Hc' & Hws) & _).
  unfold exec. rewrite Hrun. simpl. rewrite Hc'. simpl. rewrite Hws.
  injection Hc0 as <-. reflexivity.
Defined.

(** The state after the monitor has terminated connection [cid]. *)
Definition terminated (cid : string) (s : Server) : Server :=
  set_clients
    (alter (fun c => clear_heartbeat (set_ws (ws_terminate (ws c)) c)) cid) s.

Arguments terminated : simpl never.

Lemma terminated_lookup cid s c :
  clients s !! cid = Some c ->
  clients (terminated cid s) !! cid
  = Some (clear_heartbeat (set_ws (ws_terminate (ws c)) c)).
Proof.
  intros Hc. unfold terminated. cbn. rewrite lookup_alter.
  case_decide; [|done]. by rewrite Hc.
Qed.

(** X11. The monitor terminates a connection once.  After the firing that
    finds the connection stale, [terminate()] has been called one more
    time on its socket, and every later firing, whatever the clock, returns
    without doing anything, in both servers. *)
Theorem monitor_terminates_a_connection_once
    (s : Server) (cid : string) (c : ClientState) (now later : Z) :
  clients s !! cid = Some c ->
  heartbeat c = true ->
  now - lastHeartbeat c > 60000 ->
  exists s1 c1,
    Direct.heartbeatTimer cid now s = (Ok tt, s1)
    /\ Queued.heartbeatCheck cid now s = (Ok tt, s1)
    /\ clients s1 !! cid = Some c1
    /\ terminations (ws c1) = S (terminations (ws c))
    /\ Direct.heartbeatTimer cid later s1 = (Ok tt, s1)
    /\ Queued.heartbeatCheck cid later s1 = (Ok tt, s1).
Proof.
  intros Hc Hh Hgt.
  pose proof (terminated_lookup cid s c Hc) as Hc1.
  exists (terminated cid s), (clear_heartbeat (set_ws (ws_terminate (ws c)) c)).
  split; [exact (Direct_heartbeatTimer_stale _ _ _ _ Hc Hh Hgt)|].
  split; [exact (Queued_heartbeatCheck_stale _ _ _ _ Hc Hh Hgt)|].
  split; [done|]. split.
  { unfold terminations. simpl. rewrite List.filter_app, length_app. simpl. lia. }
  pose proof Hc1 as Hc1'. unfold terminated in Hc1'. simpl in Hc1'.
  split.
  - unfold Direct.heartbeatTimer, bind, get. simpl. by rewrite Hc1'.
  - unfold Queued.heartbeatCheck, bind, get. simpl. by rewrite Hc1'.
Qed.

Lemma monitor_terminates_once_witness :
  exists s1,
    Direct.heartbeatTimer "c1" 60001 server_one = (Ok tt, s1)
    /\ Direct.heartbeatTimer "c1" 200000 s1 = (Ok tt, s1)
    /\ (calls <$> (ws <$> clients s1 !! "c1")) = Some [Terminated].
Proof.
  destruct (monitor_terminates_a_connection_once server_one "c1"
              (fresh_client "c1") 60001 200000 eq_refl eq_refl eq_refl)
    as (s1 & c1 & Hd & _ & Hc1 & _ & Hd' & _).
  exists s1. split; [exact Hd|]. split; [exact Hd'|].
  vm_compute in Hd. injection Hd as <-. reflexivity.
Defined.

(** X12. The probe of the direct server's monitor is written outside any
    try/catch.  On a connection that is not stale, a firing throws exactly
    when the socket is open and its write throws; on an open socket the
    probe is a [ping] stamped with the current time; on a socket that is
    not open nothing is written.  The queued server's monitor never
    writes and never throws. *)
Theorem direct_monitor_probe_can_throw
    (s : Server) (cid : string) (c : ClientState) (now : Z) :
  clients s !! cid = Some c ->
  heartbeat c = true ->
  now - lastHeartbeat c <= 60000 ->
  ((Direct.heartbeatTimer cid now s).1 = Throw WriteError
   <-> readyState (ws c) = OPEN /\ sendThrows (ws c) = true)
  /\ ((Direct.heartbeatTimer cid now s).1 = Ok tt
      <-> ~ (readyState (ws c) = OPEN /\ sendThrows (ws c) = true))
  /\ (ws <$> clients (exec (Direct.heartbeatTimer cid now) s) !! cid)
     = Some (attempt (Ping now) (ws c))
  /\ Queued.heartbeatCheck cid now s = (Ok tt, s).
Proof.
  intros Hc Hh Hle.
  assert (Hrun : Direct.heartbeatTimer cid now s
                 = if decide (readyState (ws c) = OPEN)
                   then ws_send cid (Ping now) s else (Ok tt, s)).
  { unfold Direct.heartbeatTimer, bind, get. simpl. rewrite Hc, Hh.
    case_decide; [unfold Direct.WS_HEARTBEAT_INTERVAL in *; lia|].
    by destruct (decide _). }
  unfold exec. rewrite Hrun. unfold attempt, ws_send. rewrite Hc.
  destruct (decide (readyState (ws c) = OPEN)) as [Ho|Ho];
    [destruct (sendThrows (ws c)) eqn:Hthrow|]; simpl.
  - split; [done|]. split; [split; [done|]; intros H; by destruct H|].
    split; [by rewrite lookup_insert_eq|].
    by apply Queued_heartbeatCheck_fresh with c.
  - split; [split; [done|]; by intros [_ ?]|].
    split; [split; [|done]; by intros _ [_ ?]|].
    split; [by rewrite lookup_insert_eq|].
    by apply Queued_heartbeatCheck_fresh with c.
  - split; [split; [done|]; by intros [? _]|].
    split; [split; [|done]; by intros _ [? _]|].
    split; [by rewrite Hc|].
    by apply Queued_heartbeatCheck_fresh with c.
Qed.

Lemma direct_monitor_probe_witness :
  (Direct.heartbeatTimer "A" 30000 server_AB).1 = Throw WriteError
  /\ (Direct.heartbeatTimer "B" 30000 server_AB).1 = Ok tt.
Proof.
  destruct (direct_monitor_probe_can_throw server_AB "A"
              (client_of "A" (Some "1") (open_socket true)) 30000
              eq_refl eq_refl) as (Ha & _); [done|].
  destruct (direct_monitor_probe_can_throw server_AB "B"
              (client_of "B" (Some "1") (open_socket false)) 30000
              eq_refl eq_refl) as (_ & Hb & _); [done|].
  split; [by apply Ha|]. apply Hb. by intros [_ ?].
Defined.

(** * Further properties of the queue consumers *)

Section Consumers.

Import Broker.

Lemma in_server_sendToUser uid data p :
  in_server (Queued._sendToUser uid data) p
  = (Ok (length (filter (fun cid => writable (server p) cid = true)
                   (connectionsFor (server p) uid))),
     {| server := fan_out data (server p) (connectionsFor (server p) uid);
        channel := channel p |}).
Proof.
  unfold in_server.
  assert (Hrun : Queued._sendToUser uid data (server p)
    = (Ok (length (filter (fun cid => writable (server p) cid = true)
                     (connectionsFor (server p) uid))),
       fan_out data (server p) (connectionsFor (server p) uid))).
  { unfold Queued._sendToUser, bind, get, connectionsFor. simpl.
    destruct (userConnections (server p) !! uid) as [conns|]; [|done]. simpl.
    case_decide as Hlen.
    - apply length_zero_iff_nil in Hlen. by subst.
    - by rewrite Queued_send_loop_spec. }
  by rewrite Hrun.
Qed.

(** X13. The result consumer of the queued server.  A result message is
    pushed to the connections of its user and then acknowledged, once,
    whatever the outcome of the writes: also when the user has no
    connection, in which case the server is unchanged and the result is
    gone (acknowledged, not requeued).  A message that is not JSON, or is
    [null], is negatively acknowledged and leaves the server unchanged.  The
    consumer itself never throws. *)
Theorem result_consumer_acknowledges_every_result
    (p : ServerProcess) (t : nat) (uid : JsStr) (result : Result) :
  let delivered := fan_out (Data result) (server p)
                     (connectionsFor (server p) uid) in
  onResultMessage (Some {| tag := t; content := Object (uid, result) |}) p
    = (Ok tt, {| server := delivered; channel := ack t (channel p) |})
  /\ (connectionsFor (server p) uid = [] -> delivered = server p)
  /\ onResultMessage (Some {| tag := t; content := Garbage |}) p
     = (Ok tt, {| server := server p; channel := nack t (channel p) |})
  /\ onResultMessage (Some {| tag := t; content := NullContent |}) p
     = (Ok tt, {| server := server p; channel := nack t (channel p) |})
  /\ onResultMessage None p = (Ok tt, p).
Proof.
  intros delivered. split.
  { unfold onResultMessage, try_catch, onResult. simpl.
    unfold bind at 1. simpl. unfold bind at 1. unfold bind at 1.
    by rewrite in_server_sendToUser. }
  split. { intros He. subst delivered. by rewrite He. }
  repeat split; reflexivity.
Qed.

Definition idle_channel : Channel :=
  {| connected := true; taskQueue := []; resultQueue := [];
     acked := []; nacked := [] |}.

Definition sample_result : Result :=
  Tasks.queued_processTask
    {| t_taskId := "task-1"; t_userId := Some "9"; t_requestId := Some "req-1" |}
    40 7.

(** A result for user "9", who holds no connection. *)
Lemma result_consumer_witness :
  onResultMessage
    (Some {| tag := 7; content := Object (Some "9", sample_result) |})
    {| server := server_one; channel := idle_channel |}
  = (Ok tt, {| server := server_one; channel := ack 7 idle_channel |}).
Proof.
  destruct (result_consumer_acknowledges_every_result
              {| server := server_one; channel := idle_channel |} 7 (Some "9")
              sample_result) as (Hrun & Hdrop & _).
  rewrite Hrun. by rewrite Hdrop.
Defined.

(** X14. The task consumer of the task processor acknowledges a task only
    after its result is published.  With the broker connected, a task
    message puts exactly one result on the result queue, for the user and
    the request of the task, and is then acknowledged.  With the broker
    not connected nothing is published and the message is negatively
    acknowledged; so is a message that is not JSON or is [null].  The
    consumer never throws. *)
Theorem task_consumer_acknowledges_after_publishing
    (ch : Channel) (t : nat) (task : Task) (draw1 draw2 : nat) :
  let result := Tasks.queued_processTask task draw1 draw2 in
  (connected ch = true ->
     onTaskMessage (Some {| tag := t; content := Object task |}) draw1 draw2 ch
     = (Ok tt, ack t (publish_result (t_userId task) result ch)))
  /\ (connected ch = false ->
        onTaskMessage (Some {| tag := t; content := Object task |}) draw1 draw2 ch
        = (Ok tt, nack t ch))
  /\ onTaskMessage (Some {| tag := t; content := Garbage |}) draw1 draw2 ch
     = (Ok tt, nack t ch)
  /\ onTaskMessage (Some {| tag := t; content := NullContent |}) draw1 draw2 ch
     = (Ok tt, nack t ch)
  /\ onTaskMessage None draw1 draw2 ch = (Ok tt, ch)
  /\ r_requestId result = t_requestId task
  /\ r_taskId result = t_taskId task.
Proof.
  intros result. split.
  { intros Hc. unfold onTaskMessage, try_catch, processTask, sendResult. simpl.
    unfold bind, get, modify. simpl. by rewrite Hc. }
  split.
  { intros Hc. unfold onTaskMessage, try_catch, processTask, sendResult. simpl.
    unfold bind, get, modify. simpl. by rewrite Hc. }
  repeat split; reflexivity.
Qed.

Lemma task_consumer_witness :
  resultQueue
    (exec (onTaskMessage (Some {| tag := 3; content := Object task_one |}) 40 7)
       idle_channel)
  = [(Some "1", Tasks.queued_processTask task_one 40 7)]
  /\ acked
       (exec (onTaskMessage (Some {| tag := 3; content := Object task_one |}) 40 7)
          idle_channel) = [3%nat].
Proof.
  destruct (task_consumer_acknowledges_after_publishing idle_channel 3
              task_one 40 7) as (Hrun & _).
  unfold exec. rewrite (Hrun eq_refl). split; reflexivity.
Defined.

End Consumers.

(** * Further properties of the client *)

Section ClientMore.

Import Client.

(** [send] never throws: it returns [true] when the socket is open and the
    write goes through, having written the frame, and [false] otherwise,
    having logged an error. *)
Lemma send_run (e : Event) (c : WSClient) :
  send e c
  = if bool_decide (socket c = Some OPEN) && negb (writeThrows c)
    then (Ok true, with_log e c)
    else (Ok false, with_log ConsoleError c).
Proof.
  unfold send, bind, get, try_catch, modify. simpl.
  destruct (socket c) as [[]|]; simpl; try reflexivity.
  by destruct (writeThrows c).
Qed.

(** What one frame can do to the client: the state [c'] differs from [c]
    at most in the log, in the authentication fields, and by entries
    removed from the correlator. *)
Definition handled (c c' : WSClient) : Prop :=
  options c' = options c
  /\ socket c' = socket c
  /\ writeThrows c' = writeThrows c
  /\ reconnectAttempts c' = reconnectAttempts c
  /\ heartbeatTimer c' = heartbeatTimer c
  /\ isConnecting c' = isConnecting c
  /\ (forall rid, requestCallbacks c' !! rid = None
                  \/ requestCallbacks c' !! rid = requestCallbacks c !! rid)
  /\ (exists rest, log c' = (log c ++ rest)%list).

Lemma handled_refl c : handled c c.
Proof.
  repeat split; try done; [by right|]. exists []. by rewrite app_nil_r.
Qed.

Lemma handled_log c0 c e : handled c0 c -> handled c0 (with_log e c).
Proof.
  intros (Ho & Hs & Hw & Hr & Hh & Hi & Hcb & rest & Hl).
  repeat split; try done. exists (rest ++ [e])%list. simpl.
  by rewrite Hl, app_assoc.
Qed.

Lemma handled_auth c0 c a u : handled c0 c -> handled c0 (with_auth a u c).
Proof. intros (Ho & Hs & Hw & Hr & Hh & Hi & Hcb & Hl). by repeat split. Qed.

Lemma handled_delete c0 c rid :
  handled c0 c -> handled c0 (with_requestCallbacks (delete rid) c).
Proof.
  intros (Ho & Hs & Hw & Hr & Hh & Hi & Hcb & Hl).
  repeat split; try done. intros rid'. simpl. rewrite lookup_delete.
  case_decide; [by left|]. apply Hcb.
Qed.

Ltac handled_step :=
  lazymatch goal with
  | |- preserves _ (ret _) => apply preserves_ret
  | |- preserves _ (throw _) => apply preserves_throw
  | |- preserves _ (modify (with_log _)) =>
      apply preserves_modify; intros ? ?; by apply handled_log
  | |- preserves _ (modify (with_auth _ _)) =>
      apply preserves_modify; intros ? ?; by apply handled_auth
  | |- preserves _ (modify (fun c => with_auth _ _ c)) =>
      apply preserves_modify; intros ? ?; by apply handled_auth
  | |- preserves _ (modify (with_requestCallbacks (delete _))) =>
      apply preserves_modify; intros ? ?; by apply handled_delete
  | |- preserves _ (bind get _) => apply preserves_get_bind; intros ?
  | |- preserves _ (bind _ _) => apply preserves_bind; [|intros ?]
  | |- preserves _ (try_catch _ _) => apply preserves_try_catch; [|intros ?]
  | |- preserves _ (match ?x with _ => _ end) => destruct x
  end.

Lemma handleMessage_handled c0 raw now :
  preserves (handled c0) (_handleMessage raw now).
Proof.
  unfold _handleMessage, dispatch, parse, call, send.
  repeat handled_step.
Qed.

(** X15. Whatever the frame, the state and the callbacks,
    [_handleMessage] returns normally: a frame that is not JSON, or a
    callback that throws, ends in the console.  And a frame never does more
    than this: it appends to the log of callbacks and writes, it may change
    the authentication fields, it may remove entries from the correlator;
    it never adds or changes an entry and never touches the socket, the
    options, the timers or the reconnect counter. *)
Theorem client_message_handler_is_contained
    (c : WSClient) (raw : ParsedIn) (now : Z) :
  exists c', _handleMessage raw now c = (Ok tt, c') /\ handled c c'.
Proof.
  pose proof (handleMessage_handled c raw now c (handled_refl c)) as Hh.
  unfold exec in Hh. unfold _handleMessage, try_catch in *.
  destruct (bind (parse raw) _ c) as [[[]|e] c1]; simpl in *.
  - by exists c1.
  - eexists. split; [reflexivity|done].
Qed.

End ClientMore.

Section ClientFrames.

Import Client.

(** The request id a frame is correlated by: [payload.requestId] for a
    [data] frame, [requestId] otherwise. *)
Definition correlation_key (d : Incoming) : JsStr :=
  if decide (in_type d = Some "data")
  then match in_payload d with
       | Some key => key
       | None => None
       end
  else in_requestId d.

Definition correlated (d : Incoming) : Prop :=
  in_type d = Some "request_accepted" \/ in_type d = Some "data"
  \/ in_type d = Some "error".

Lemma pending_None c : pending None c = None.
Proof. reflexivity. Qed.

Lemma handleMessage_unaddressed c d now :
  correlated d -> pending (correlation_key d) c = None ->
  _handleMessage (Value d) now c = (Ok tt, finish c).
Proof.
  intros Hk Hp. unfold correlation_key in Hp.
  unfold _handleMessage, try_catch, finish.
  unfold bind at 1. simpl. unfold bind at 1, dispatch. unfold bind at 1. simpl.
  destruct Hk as [Ht|[Ht|Ht]]; rewrite Ht in Hp.
  - rewrite decide_False in Hp by discriminate. rewrite Ht.
    do 3 (case_decide; [discriminate|]). case_decide; [|contradiction].
    rewrite Hp. unfold bind, call, modify, get. simpl.
    by destruct (onMessage (options c)).
  - rewrite decide_True in Hp by done. rewrite Ht.
    do 4 (case_decide; [discriminate|]). case_decide; [|contradiction].
    destruct (in_payload d) as [key|]; [rewrite Hp|];
      unfold bind, call, modify, get; simpl;
      by destruct (onMessage (options c)).
  - rewrite decide_False in Hp by discriminate. rewrite Ht.
    do 5 (case_decide; [discriminate|]). case_decide; [|contradiction].
    rewrite Hp. unfold bind, call, modify, get. simpl.
    by destruct (onMessage (options c)).
Qed.

(** X16. A [request_accepted], [data] or [error] frame whose request id
    is missing, empty, or not that of a pending entry is dropped in
    silence: no request callback is invoked, only the global [onMessage],
    the correlator is unchanged, and nothing is written or thrown. *)
Theorem frames_for_unknown_requests_are_dropped
    (c : WSClient) (d : Incoming) (now : Z) :
  correlated d ->
  pending (correlation_key d) c = None ->
  exists c',
    _handleMessage (Value d) now c = (Ok tt, c')
    /\ requestCallbacks c' = requestCallbacks c
    /\ (log c' = (log c ++ [CalledOnMessage])%list
        \/ log c' = (log c ++ [CalledOnMessage; ConsoleError])%list)
    /\ authenticated c' = authenticated c.
Proof.
  intros Hk Hp. exists (finish c).
  split; [by apply handleMessage_unaddressed|].
  split; [apply finish_requestCallbacks|].
  unfold finish. destruct (onMessage (options c)); simpl.
  - split; [by left|done].
  - split; [right; by rewrite <- app_assoc|done].
Qed.

Lemma frames_for_unknown_requests_witness :
  log (exec (_handleMessage (Value (data_frame "req-2")) 0)
         (awaiting (entry_of (Some Returns) None true)))
  = [CalledOnMessage]
  /\ is_Some (requestCallbacks
                (exec (_handleMessage (Value (data_frame "req-2")) 0)
                   (awaiting (entry_of (Some Returns) None true))) !! "req-1").
Proof.
  destruct (frames_for_unknown_requests_are_dropped
              (awaiting (entry_of (Some Returns) None true))
              (data_frame "req-2") 0) as (c' & Hrun & Hcb & _);
    [right; by left | reflexivity |].
  unfold exec. rewrite Hrun. simpl. split.
  - vm_compute in Hrun. injection Hrun as <-. reflexivity.
  - rewrite Hcb. by eexists.
Defined.

Definition accepted_frame (rid : string) : Incoming :=
  {| in_type := Some "request_accepted"; in_requestId := Some rid;
     in_userId := None; in_timestamp := None; in_payload := None |}.

(** The state after a [request_accepted] frame for the pending request
    [rid], whose entry is [e]. *)
Definition after_accepted (rid : string) (e : Entry) (c : WSClient) : WSClient :=
  match onAccepted e with
  | Some Returns => finish (with_log (CalledOnAccepted rid) c)
  | Some Throws => with_log ConsoleError (with_log (CalledOnAccepted rid) c)
  | None => finish c
  end.

Lemma handleMessage_accepted c d rid e now :
  in_type d = Some "request_accepted" ->
  in_requestId d = Some rid ->
  rid ≠ "" ->
  requestCallbacks c !! rid = Some e ->
  _handleMessage (Value d) now c = (Ok tt, after_accepted rid e c).
Proof.
  intros Ht Hp Hne He.
  unfold _handleMessage, try_catch, after_accepted, finish.
  unfold bind at 1. simpl. unfold bind at 1, dispatch. unfold bind at 1. simpl.
  rewrite Ht, Hp.
  do 3 (case_decide; [discriminate|]). case_decide; [|contradiction].
  rewrite (pending_lookup _ _ _ Hne He).
  destruct (onAccepted e) as [[|]|], (onMessage (options c)) eqn:Hm;
    simpl; unfold bind, call, modify, get; simpl; rewrite ?Hm; reflexivity.
Qed.

(** X17. A [request_accepted] frame for a pending entry invokes its
    [onAccepted] callback, when it has one, and never removes the entry,
    one-shot or not: the entry stays to receive the data. *)
Theorem request_accepted_keeps_the_entry
    (c : WSClient) (rid : string) (e : Entry) (now : Z) :
  rid ≠ "" ->
  requestCallbacks c !! rid = Some e ->
  let c' := exec (_handleMessage (Value (accepted_frame rid)) now) c in
  requestCallbacks c' = requestCallbacks c
  /\ (forall cb, onAccepted e = Some cb ->
        exists rest, log c' = (log c ++ CalledOnAccepted rid :: rest)%list)
  /\ (onAccepted e = None ->
        exists rest, log c' = (log c ++ CalledOnMessage :: rest)%list).
Proof.
  intros Hne He c'. subst c'. unfold exec.
  rewrite (handleMessage_accepted c (accepted_frame rid) rid e now
             eq_refl eq_refl Hne He).
  cbn [snd]. unfold after_accepted. split.
  { destruct (onAccepted e) as [[|]|]; rewrite ?finish_requestCallbacks; done. }
  split.
  - intros cb Hcb. rewrite Hcb. destruct cb.
    + destruct (finish_log (with_log (CalledOnAccepted rid) c)) as [rest Hr].
      exists rest. rewrite Hr. simpl. by rewrite <- app_assoc.
    + exists [ConsoleError]. simpl. by rewrite <- app_assoc.
  - intros Hnone. rewrite Hnone. unfold finish.
    destruct (onMessage (options c)); simpl.
    + by exists [].
    + exists [ConsoleError]. by rewrite <- app_assoc.
Qed.

Lemma request_accepted_witness :
  requestCallbacks
    (exec (_handleMessage (Value (accepted_frame "req-1")) 0)
       (awaiting (entry_of (Some Returns) None true))) !! "req-1"
  = Some (entry_of (Some Returns) None true).
Proof.
  destruct (request_accepted_keeps_the_entry
              (awaiting (entry_of (Some Returns) None true)) "req-1"
              (entry_of (Some Returns) None true) 0) as (Hcb & _);
    [discriminate | reflexivity |].
  by rewrite Hcb.
Defined.

End ClientFrames.

Section ClientRequests.

Import Client.

(** The entry [requestData] stores for a set of callbacks. *)
Definition entry_for (callbacks : Callbacks) : Entry :=
  {| onAccepted := cb_onAccepted callbacks; onData := cb_onData callbacks;
     onError := cb_onError callbacks;
     once := negb (bool_decide (cb_once callbacks = Some false)) |}.

(** The socket is open and takes the write. *)
Definition can_write (c : WSClient) : bool :=
  bool_decide (socket c = Some OPEN) && negb (writeThrows c).

(** X18. [requestData].  On a client that is not authenticated nothing is
    stored and nothing is written: the [onError] callback, when given, is
    invoked, and the call returns [false] (it throws when that callback
    throws).  On an authenticated client the entry is stored under the
    request id, replacing any entry already there, one-shot unless [once]
    is exactly [false], and it is stored before the write is tried: the
    call returns whether the write went through, and the entry is there
    even when it did not. *)
Theorem requestData_stores_before_it_sends
    (c : WSClient) (rid : string) (callbacks : Callbacks) :
  (authenticated c = false ->
     requestCallbacks (exec (requestData rid callbacks) c) = requestCallbacks c
     /\ log (exec (requestData rid callbacks) c)
        = (log c ++ ConsoleError ::
             match cb_onError callbacks with
             | Some _ => [CalledOnError rid]
             | None => []
             end)%list
     /\ (requestData rid callbacks c).1
        = match cb_onError callbacks with
          | Some Throws => Throw CallbackError
          | _ => Ok false
          end)
  /\ (authenticated c = true ->
        (requestData rid callbacks c).1 = Ok (can_write c)
        /\ requestCallbacks (exec (requestData rid callbacks) c)
           = <[rid := entry_for callbacks]> (requestCallbacks c)
        /\ requestCallbacks (exec (requestData rid callbacks) c) !! rid
           = Some (entry_for callbacks)
        /\ log (exec (requestData rid callbacks) c)
           = (log c ++ [if can_write c then WroteRequest rid
                        else ConsoleError])%list).
Proof.
  split; intros Ha.
  - unfold exec, requestData, bind, get, modify, call. simpl. rewrite Ha. simpl.
    destruct (cb_onError callbacks) as [[|]|]; simpl;
      rewrite <- ?app_assoc; done.
  - assert (Hrun : requestData rid callbacks c
        = if can_write c
          then (Ok true, with_log (WroteRequest rid)
                           (with_requestCallbacks
                              (insert rid (entry_for callbacks)) c))
          else (Ok false, with_log ConsoleError
                            (with_requestCallbacks
                               (insert rid (entry_for callbacks)) c))).
    { unfold requestData. unfold bind at 1, get. rewrite Ha. simpl.
      unfold bind at 1, modify. rewrite send_run. done. }
    unfold exec. rewrite Hrun.
    destruct (can_write c); simpl;
      (split; [done|]); (split; [done|]);
      (split; [apply lookup_insert_eq|done]).
Qed.

Definition offline_client : WSClient :=
  with_link (Some CLOSED) 0 false false true (new_WSClient no_options).

(** An authenticated client whose socket is closed: the request is not
    sent, and its entry is pending all the same. *)
Lemma requestData_witness :
  (requestData "req-1"
     {| cb_onAccepted := None; cb_onData := Some Returns; cb_onError := None;
        cb_once := None |} offline_client).1 = Ok false
  /\ (once <$> requestCallbacks
                 (exec (requestData "req-1"
                          {| cb_onAccepted := None; cb_onData := Some Returns;
                             cb_onError := None; cb_once := None |})
                    offline_client) !! "req-1") = Some true.
Proof.
  destruct (requestData_stores_before_it_sends offline_client "req-1"
              {| cb_onAccepted := None; cb_onData := Some Returns;
                 cb_onError := None; cb_once := None |}) as [_ Hauth].
  destruct (Hauth eq_refl) as (Hret & _ & Hentry & _).
  split; [exact Hret|]. by rewrite Hentry.
Defined.

(** X19. [connect()] never opens a second socket: it does nothing while a
    socket is open or connecting or an attempt is under way, otherwise it
    leaves one connecting socket; calling it again changes nothing. It
    touches neither the correlator nor the reconnect counter. *)
Theorem connect_is_idempotent (c : WSClient) :
  connect (connect c) = connect c
  /\ (socket c = Some OPEN \/ socket c = Some CONNECTING \/ isConnecting c = true ->
      connect c = c)
  /\ (socket c ≠ Some OPEN -> socket c ≠ Some CONNECTING ->
      isConnecting c = false ->
      socket (connect c) = Some CONNECTING /\ isConnecting (connect c) = true)
  /\ requestCallbacks (connect c) = requestCallbacks c
  /\ reconnectAttempts (connect c) = reconnectAttempts c.
Proof.
  unfold connect.
  destruct (socket c) as [[]|] eqn:Hs, (isConnecting c) eqn:Hi; simpl;
    rewrite ?Hs, ?Hi; simpl;
    repeat split; try done; try (intros [?|[?|?]]; done).
Qed.

Lemma connect_witness :
  socket (connect offline_client) = Some CONNECTING
  /\ connect (connect offline_client) = connect offline_client.
Proof.
  destruct (connect_is_idempotent offline_client) as (Hidem & _ & Hnew & _).
  split; [|exact Hidem]. by apply Hnew.
Defined.

End ClientRequests.

Section ClientLink.

Import Client.
Local Open Scope Q_scope.

(** The client after the socket closed, before the disconnect callback. *)
Definition closed_link (c : WSClient) : WSClient :=
  with_link (Some CLOSED) (reconnectAttempts c) false false false c.

Lemma handleClose_run c :
  _handleClose c
  = match onDisconnect (options c) with
    | Returns =>
        (Ok (reconnectDelay c), with_log CalledOnDisconnect (closed_link c))
    | Throws =>
        (Throw CallbackError, with_log CalledOnDisconnect (closed_link c))
    end.
Proof.
  unfold _handleClose, call, bind, modify, get. simpl.
  by destruct (onDisconnect (options c)).
Qed.

(** X20. Losing the connection does not cancel the pending requests: the
    close handler stops the heartbeat and clears the authentication, and
    leaves every entry of the correlator in place; only [disconnect()]
    empties it.  After a close, [requestData] is refused until the client
    is authenticated again.  The reconnect is scheduled after the
    [onDisconnect] callback: when that callback throws, no reconnect is
    scheduled. *)
Theorem connection_loss_keeps_pending_requests
    (c : WSClient) (rid : string) (callbacks : Callbacks) :
  let c' := exec _handleClose c in
  requestCallbacks c' = requestCallbacks c
  /\ authenticated c' = false
  /\ heartbeatTimer c' = false
  /\ socket c' = Some CLOSED
  /\ requestCallbacks (exec (requestData rid callbacks) c') = requestCallbacks c
  /\ requestCallbacks (disconnect c) = ∅
  /\ (onDisconnect (options c) = Returns ->
        (_handleClose c).1 = Ok (reconnectDelay c))
  /\ (onDisconnect (options c) = Throws ->
        (_handleClose c).1 = Throw CallbackError).
Proof.
  intros c'. subst c'. unfold exec. rewrite handleClose_run.
  assert (Hreq : forall c1, authenticated c1 = false ->
            requestCallbacks (requestData rid callbacks c1).2
            = requestCallbacks c1).
  { intros c1 Ha. unfold requestData, bind, get, modify, call. simpl.
    rewrite Ha. simpl. by destruct (cb_onError callbacks) as [[|]|]. }
  destruct (onDisconnect (options c)); simpl;
    rewrite Hreq by done; repeat split; done.
Qed.

Lemma connection_loss_witness :
  (_handleClose (awaiting (entry_of (Some Returns) None true))).1 = Ok 3000
  /\ is_Some (requestCallbacks
                (exec _handleClose (awaiting (entry_of (Some Returns) None true)))
                !! "req-1").
Proof.
  destruct (connection_loss_keeps_pending_requests
              (awaiting (entry_of (Some Returns) None true)) "req-2"
              {| cb_onAccepted := None; cb_onData := None; cb_onError := None;
                 cb_once := None |})
    as (Hcb & _ & _ & _ & _ & _ & Hdelay & _).
  split; [by apply Hdelay|]. rewrite Hcb. by eexists.
Defined.

(** One failed reconnect: the socket closes, the delay passes, the
    scheduled function runs. *)
Definition failed_reconnect (c : WSClient) : WSClient :=
  exec reconnectTimeout (exec _handleClose c).

Lemma failed_reconnect_facts c :
  onDisconnect (options c) = Returns ->
  options (failed_reconnect c) = options c
  /\ reconnectAttempts (failed_reconnect c) = S (reconnectAttempts c).
Proof.
  intros Hd. unfold failed_reconnect. split.
  - unfold exec. rewrite handleClose_run, Hd. simpl.
    unfold reconnectTimeout, call, bind, modify, get. simpl.
    destruct (onReconnect (options c)); simpl; [|done].
    unfold connect. simpl. done.
  - rewrite reconnectTimeout_counts. unfold exec.
    by rewrite handleClose_run, Hd.
Qed.

Lemma failed_reconnects_facts c k :
  onDisconnect (options c) = Returns ->
  options (Nat.iter k failed_reconnect c) = options c
  /\ reconnectAttempts (Nat.iter k failed_reconnect c)
     = (reconnectAttempts c + k)%nat.
Proof.
  intros Hd. induction k as [|k [IHo IHa]]; simpl.
  - split; [done|]. lia.
  - destruct (failed_reconnect_facts (Nat.iter k failed_reconnect c))
      as [Ho Ha]; [by rewrite IHo|].
    split; [by rewrite Ho|]. rewrite Ha, IHa. lia.
Qed.

(** X21. The back-off along a run of failed reconnects, the
    [onDisconnect] callback returning.  After [k] reconnects in a row have
    failed the attempt counter is [n + k], [n] being the counter before the
    run, and [k] when the run started from an open connection.  With the
    default [reconnectInterval] of 3000, where the delay is computed
    without rounding, the close of the last attempt schedules the next one
    after [min(30000, 3000 * 1.5 ^ (n + k))] ms. *)
Theorem backoff_after_failed_reconnects (c : WSClient) (k : nat) :
  onDisconnect (options c) = Returns ->
  reconnectAttempts (Nat.iter k failed_reconnect c)
  = (reconnectAttempts c + k)%nat
  /\ reconnectAttempts (Nat.iter k failed_reconnect (exec _handleOpen c)) = k
  /\ (reconnectInterval (options c) = 3000 ->
        (_handleClose (Nat.iter k failed_reconnect c)).1
        = Ok (Qmin 30000
                (3000 * (3 # 2) ^ Z.of_nat (reconnectAttempts c + k)))).
Proof.
  intros Hd. destruct (failed_reconnects_facts c k Hd) as [Ho Ha].
  split; [exact Ha|]. split.
  - assert (Hopen : onDisconnect (options (exec _handleOpen c)) = Returns).
    { unfold exec, _handleOpen, authenticate, send, call, bind, modify, get,
        try_catch. simpl.
      destruct (truthy (authToken (options c))); simpl;
        destruct (writeThrows c); simpl;
        destruct (onConnect (options c)); simpl; exact Hd. }
    destruct (failed_reconnects_facts (exec _handleOpen c) k Hopen) as [_ Ha'].
    rewrite Ha', handleOpen_resets. done.
  - intros Hi. rewrite handleClose_run, Ho, Hd. simpl. unfold reconnectDelay.
    by rewrite Ho, Ha, Hi.
Qed.

Lemma backoff_after_failed_reconnects_witness :
  (_handleClose (Nat.iter 3 failed_reconnect (retrying 0))).1
  = Ok (Qmin 30000 (3000 * (3 # 2) ^ 3)).
Proof.
  destruct (backoff_after_failed_reconnects (retrying 0) 3 eq_refl)
    as (_ & _ & H).
  exact (H eq_refl).
Defined.

End ClientLink.

(** * Results on their way from the processor to the callback *)

Section EndToEnd.

Import Client Tasks.
Local Open Scope nat_scope.

(** A [data] frame as the client parses it: of the payload the client
    reads the [requestId]. *)
Definition received (payload : Result) : ParsedIn :=
  Value {| in_type := Some "data"; in_requestId := None; in_userId := None;
           in_timestamp := None; in_payload := Some (r_requestId payload) |}.

(** The client after the results [rs] have arrived, in order. *)
Definition receive_all (rs : list Result) (now : Z) (c : WSClient) : WSClient :=
  foldl (fun c r => exec (_handleMessage (received r) now) c) c rs.

Definition is_data_call (e : Event) : bool :=
  match e with
  | CalledOnData _ => true
  | _ => false
  end.

(** How many times an [onData] callback has been invoked. *)
Definition data_calls (c : WSClient) : nat :=
  length (List.filter is_data_call (log c)).

Lemma receive_all_cons r rs now c :
  receive_all (r :: rs) now c
  = receive_all rs now (exec (_handleMessage (received r) now) c).
Proof. reflexivity. Qed.

Lemma data_calls_log c e :
  data_calls (with_log e c)
  = (data_calls c + if is_data_call e then 1 else 0)%nat.
Proof.
  unfold data_calls. simpl. rewrite List.filter_app, length_app. simpl.
  destruct (is_data_call e); simpl; lia.
Qed.

Lemma data_calls_finish c : data_calls (finish c) = data_calls c.
Proof.
  unfold data_calls, finish. destruct (onMessage (options c)); simpl;
    rewrite !List.filter_app, !length_app; simpl; lia.
Qed.

Lemma sendNextBatch_requestId rnd task (items : list Item) :
  forall fuel processed bn rs,
    sendNextBatch fuel rnd task items processed bn = Some rs ->
    Forall (fun r => r_requestId r = t_requestId task) rs.
Proof.
  induction fuel as [|fuel IH]; intros processed bn rs; [done|].
  cbn [sendNextBatch]. case_match.
  - destruct (sendNextBatch fuel rnd task items _ _) as [rs'|] eqn:Hrec;
      [|done].
    intros [= <-]. constructor; [done|]. by apply (IH _ _ _ Hrec).
  - intros [= <-]. by repeat constructor.
Qed.

Lemma sendDataInBatches_requestId rnd task data rs :
  _sendDataInBatches rnd task data = Some rs ->
  Forall (fun r => r_requestId r = t_requestId task) rs.
Proof.
  unfold _sendDataInBatches. case_decide.
  - intros [= <-]. by repeat constructor.
  - apply sendNextBatch_requestId.
Qed.

Lemma receive_absent rid now (rs : list Result) : forall c,
  Forall (fun r => r_requestId r = Some rid) rs ->
  requestCallbacks c !! rid = None ->
  requestCallbacks (receive_all rs now c) !! rid = None
  /\ data_calls (receive_all rs now c) = data_calls c.
Proof.
  induction rs as [|r rs IH]; intros c Hall Hnone; [done|].
  inversion Hall as [|? ? Hr Hrs]; subst.
  rewrite receive_all_cons.
  assert (Hrun : exec (_handleMessage (received r) now) c = finish c).
  { unfold exec, received.
    rewrite handleMessage_unaddressed; [done|right; by left|].
    unfold correlation_key. simpl. rewrite Hr. unfold pending.
    destruct (truthy (Some rid)); [|done]. simpl. by rewrite Hnone. }
  rewrite Hrun.
  destruct (IH (finish c) Hrs) as [Ha Hb];
    [by rewrite finish_requestCallbacks|].
  split; [done|]. by rewrite Hb, data_calls_finish.
Qed.

Lemma receive_persistent rid e now (rs : list Result) : forall c,
  rid ≠ "" ->
  Forall (fun r => r_requestId r = Some rid) rs ->
  requestCallbacks c !! rid = Some e ->
  once e = false -> onData e = Some Returns ->
  requestCallbacks (receive_all rs now c) !! rid = Some e
  /\ data_calls (receive_all rs now c) = data_calls c + length rs.
Proof.
  induction rs as [|r rs IH]; intros c Hne Hall He Ho Hd.
  { split; [done|]. simpl. lia. }
  inversion Hall as [|? ? Hr Hrs]; subst.
  rewrite receive_all_cons.
  assert (Hrun : exec (_handleMessage (received r) now) c
                 = finish (with_log (CalledOnData rid) c)).
  { unfold exec, received.
    rewrite (handleMessage_data c _ rid e now); try done.
    - unfold after_data. by rewrite Hd, Ho.
    - simpl. by rewrite Hr. }
  rewrite Hrun.
  destruct (IH (finish (with_log (CalledOnData rid) c)) Hne Hrs) as [Ha Hb];
    [by rewrite finish_requestCallbacks|done|done|].
  split; [done|]. rewrite Hb, data_calls_finish, data_calls_log.
  simpl. lia.
Qed.

(** X22. A result sent in batches meets the one-shot default of the
    client.  For a request whose entry is one-shot, with an [onData]
    callback that returns, the first batch is handed to the callback and
    removes the entry, and every later batch of the same request is
    dropped: the callback runs once, however many batches there are.  With
    [once: false] the callback runs once per batch and the entry stays. *)
Theorem one_shot_entry_sees_only_the_first_batch
    (rnd : nat -> nat) (task : Task) (data : JsonData) (rs : list Result)
    (c : WSClient) (rid : string) (e : Entry) (now : Z) :
  _sendDataInBatches rnd task data = Some rs ->
  t_requestId task = Some rid ->
  rid ≠ "" ->
  requestCallbacks c !! rid = Some e ->
  onData e = Some Returns ->
  (once e = true ->
     data_calls (receive_all rs now c) = data_calls c + 1
     /\ requestCallbacks (receive_all rs now c) !! rid = None)
  /\ (once e = false ->
        data_calls (receive_all rs now c) = data_calls c + length rs
        /\ requestCallbacks (receive_all rs now c) !! rid = Some e).
Proof.
  intros Hrun Hrid Hne He Hd.
  pose proof (sendDataInBatches_requestId _ _ _ _ Hrun) as Hall.
  rewrite Hrid in Hall.
  assert (Hnonempty : rs ≠ []).
  { unfold _sendDataInBatches in Hrun. case_decide; [by injection Hrun as <-|].
    destruct (length (items_of data)) as [|n] eqn:Hlen.
    - unfold items_of in Hlen. by destruct data.
    - destruct (sendNextBatch_spec rnd task (items_of data) (S n) 0 0)
        as (rs' & Hrun' & Hne' & _); [lia | lia |].
      unfold items_of in *. rewrite Hlen in Hrun. rewrite Hrun in Hrun'.
      by injection Hrun' as ->. }
  split; intros Ho.
  - destruct rs as [|r rs]; [done|].
    inversion Hall as [|? ? Hr Hrs]; subst.
    rewrite receive_all_cons.
    assert (Hfirst : exec (_handleMessage (received r) now) c
              = finish (with_requestCallbacks (delete rid)
                          (with_log (CalledOnData rid) c))).
    { unfold exec, received.
    rewrite (handleMessage_data c _ rid e now); try done.
      - unfold after_data. by rewrite Hd, Ho.
      - simpl. by rewrite Hr. }
    rewrite Hfirst.
    destruct (receive_absent rid now rs
                (finish (with_requestCallbacks (delete rid)
                           (with_log (CalledOnData rid) c))) Hrs)
      as [Ha Hb].
    { rewrite finish_requestCallbacks. simpl. apply lookup_delete_eq. }
    split; [|done]. rewrite Hb, data_calls_finish.
    change (data_calls (with_requestCallbacks (delete rid)
                          (with_log (CalledOnData rid) c)))
      with (data_calls (with_log (CalledOnData rid) c)).
    rewrite data_calls_log. simpl. lia.
  - destruct (receive_persistent rid e now rs c Hne Hall He Ho Hd) as [Ha Hb].
    done.
Qed.

(** Twelve items in batches of 5, 5 and 2: the one-shot callback of
    request "req-1" is invoked once. *)
Lemma one_shot_entry_witness :
  data_calls
    (receive_all
       (default [] (_sendDataInBatches (fun _ => 4) task_one (Arr (seq 0 12))))
       0 (awaiting (entry_of (Some Returns) None true)))
  = 1.
Proof.
  destruct (one_shot_entry_sees_only_the_first_batch (fun _ => 4) task_one
              (Arr (seq 0 12))
              (default [] (_sendDataInBatches (fun _ => 4) task_one
                             (Arr (seq 0 12))))
              (awaiting (entry_of (Some Returns) None true)) "req-1"
              (entry_of (Some Returns) None true) 0)
    as [Honce _];
    [reflexivity | reflexivity | discriminate | reflexivity | reflexivity |].
  destruct (Honce eq_refl) as [Hcalls _]. exact Hcalls.
Defined.

End EndToEnd.

(** * Further properties of the batching task processor *)

Section ProcessorMore.

Import Tasks Processor.
Local Open Scope nat_scope.

(** The shape of the results of [sendNextBatch], started with
    [processedItems = processed] and [batchNumber = bn]. *)
Lemma sendNextBatch_shape rnd task (items : list Item) :
  forall fuel processed bn rs,
    processed < length items ->
    sendNextBatch fuel rnd task items processed bn = Some rs ->
    length rs <= length items - processed
    /\ length items - processed <= 10 * length rs
    /\ (forall i r, rs !! i = Some r ->
          1 <= length (batch_items r) <= 10
          /\ r_batchNumber r = Some (bn + S i)
          /\ r_taskId r = t_taskId task
          /\ r_requestId r = t_requestId task
          /\ r_status r = (if decide (S i = length rs)
                           then completed else processing)).
Proof.
  induction fuel as [|fuel IH]; intros processed bn rs Hlt Hrun; [done|].
  cbn [sendNextBatch] in Hrun. rewrite slice_take_drop in Hrun.
  set (b := Nat.min (length items - processed) (rnd bn mod 10 + 1)) in Hrun.
  assert (Hmod : rnd bn mod 10 < 10) by (apply Nat.mod_upper_bound; lia).
  assert (Hb : 1 <= b /\ b <= length items - processed /\ b <= 10)
    by (subst b; lia).
  assert (Hlen : length (take b (drop processed items)) = b).
  { rewrite length_take, length_drop. lia. }
  match type of Hrun with
  | context [option_map (cons ?r) _] => set (r0 := r) in Hrun
  end.
  assert (Hbi : batch_items r0 = take b (drop processed items)) by done.
  assert (Hn0 : r_batchNumber r0 = Some (bn + 1)) by done.
  assert (Ht0 : r_taskId r0 = t_taskId task) by done.
  assert (Hq0 : r_requestId r0 = t_requestId task) by done.
  assert (Hs0 : r_status r0 = if length items <=? processed + b
                              then completed else processing) by done.
  clearbody r0.
  destruct (Nat.ltb_spec (processed + b) (length items)) as [Hmore|Hdone].
  - destruct (sendNextBatch fuel rnd task items (processed + b) (bn + 1))
      as [rs'|] eqn:Hrest; [|done].
    injection Hrun as <-.
    destruct (IH _ _ _ Hmore Hrest) as (Hlo & Hhi & Hidx).
    split; [simpl; lia|]. split; [simpl; lia|].
    intros [|i] r Hr.
    + injection Hr as <-. rewrite Hbi, Hlen, Hn0, Hs0.
      split; [lia|]. split; [done|]. split; [done|]. split; [done|].
      destruct (Nat.leb_spec (length items) (processed + b)); [lia|].
      simpl. destruct (decide (1 = S (length rs'))); [lia|done].
    + destruct (Hidx i r Hr) as (H1 & H2 & H3 & H4 & H5).
      split; [done|]. split; [rewrite H2; f_equal; lia|].
      split; [done|]. split; [done|]. rewrite H5. simpl.
      destruct (decide (S i = length rs')), (decide (S (S i) = S (length rs')));
        (done || lia).
  - injection Hrun as <-. split; [simpl; lia|]. split; [simpl; lia|].
    intros [|i] r Hr; [|done].
    injection Hr as <-. rewrite Hbi, Hlen, Hn0, Hs0.
    split; [lia|]. split; [done|]. split; [done|]. split; [done|].
    destruct (Nat.leb_spec (length items) (processed + b)); [done|lia].
Qed.

(** X23. The batches sent for a dataset that is not empty.  Every batch
    holds between one and ten items and carries the task's id and request
    id; batches are numbered 1, 2, ... in the order sent; the status is
    [completed] on the last batch and [processing] on every other.  So a
    dataset of [n] items is sent in at least [n/10] and at most [n]
    results. *)
Theorem batches_are_small_and_numbered
    (rnd : nat -> nat) (task : Task) (data : JsonData) :
  items_of data ≠ [] ->
  exists rs,
    _sendDataInBatches rnd task data = Some rs
    /\ length rs <= length (items_of data) <= 10 * length rs
    /\ (forall i r, rs !! i = Some r ->
          1 <= length (batch_items r) <= 10
          /\ r_batchNumber r = Some (S i)
          /\ r_taskId r = t_taskId task
          /\ r_requestId r = t_requestId task
          /\ r_status r = (if decide (S i = length rs)
                           then completed else processing)).
Proof.
  intros Hne.
  assert (Hpos : 0 < length (items_of data)).
  { destruct (items_of data); [done|simpl; lia]. }
  destruct (sendNextBatch_spec rnd task (items_of data)
              (length (items_of data)) 0 0) as (rs & Hrun & _); [lia | lia |].
  exists rs. split.
  { unfold _sendDataInBatches. fold (items_of data). case_decide; [lia|done]. }
  destruct (sendNextBatch_shape rnd task (items_of data) _ 0 0 rs Hpos Hrun)
    as (Hlo & Hhi & Hidx).
  split; [lia|]. exact Hidx.
Qed.

(** Twelve items, every draw being 4: three batches, numbered 1 to 3. *)
Lemma batches_are_small_and_numbered_witness :
  exists rs,
    _sendDataInBatches (fun _ => 4) task_one (Arr (seq 0 12)) = Some rs
    /\ r_batchNumber <$> rs = [Some 1; Some 2; Some 3]
    /\ r_status <$> rs = [processing; processing; completed].
Proof.
  destruct (batches_are_small_and_numbered (fun _ => 4) task_one
              (Arr (seq 0 12))) as (rs & Hrun & _); [discriminate|].
  exists rs. split; [exact Hrun|].
  vm_compute in Hrun. injection Hrun as <-. split; reflexivity.
Defined.

Lemma elem_of_collect (x : Item) (ls : list Line) :
  x ∈ collect ls <-> Parses x ∈ ls \/ Repaired x ∈ ls.
Proof.
  induction ls as [|l ls IH].
  - simpl. rewrite !elem_of_nil. tauto.
  - change (collect (l :: ls))
      with ((match l with
             | Parses y | Repaired y => [y]
             | Blank | Broken => []
             end ++ collect ls)%list).
    rewrite elem_of_app, IH, !elem_of_cons.
    destruct l; rewrite ?elem_of_nil, ?list_elem_of_singleton;
      split; intros H; destruct_or?; subst; try discriminate;
        try (simplify_eq; tauto); tauto.
Qed.

(** X24. The data file read line by line.  The objects taken from the
    file are those of the lines that parse, as they are or once repaired;
    blank lines and lines beyond repair are skipped.  If no line yields an
    object the run reports one error result, which has no [data]; else it
    sends batches whose slices, end to end, are the objects in file order,
    none of them an error, the last one [completed].  In neither case is
    the no-data result of [_sendDataInBatches] sent. *)
Theorem line_by_line_file_yields_an_error_or_batches
    (rnd : nat -> nat) (task : Task) (ls : list Line) :
  (forall x, x ∈ collect ls <-> Parses x ∈ ls \/ Repaired x ∈ ls)
  /\ (collect ls = [] ->
        _processJsonFile rnd task (Present (Lines ls))
        = Ok (Some [error_result task]))
  /\ (collect ls ≠ [] ->
        exists rs,
          _processJsonFile rnd task (Present (Lines ls)) = Ok (Some rs)
          /\ concat (batch_items <$> rs) = collect ls
          /\ Forall (fun r => r_status r ≠ failed /\ r ≠ empty_result task) rs
          /\ exists r, last rs = Some r /\ r_status r = completed
                       /\ final_of r = Some true).
Proof.
  split; [intros x; apply elem_of_collect|].
  unfold _processJsonFile. cbn [open_file]. split.
  - intros Hnil. unfold readFile_callback. rewrite Hnil. done.
  - intros Hne. unfold readFile_callback.
    assert (Hpos : 0 < length (collect ls)).
    { destruct (collect ls); [done|simpl; lia]. }
    case_decide; [lia|].
    destruct (sendNextBatch_spec rnd task (collect ls)
                (length (collect ls)) 0 0)
      as (rs & Hrun & Hne' & Hcat & Hidx); [lia | lia |].
    assert (Hrun' : _sendDataInBatches rnd task (Arr (collect ls)) = Some rs).
    { unfold _sendDataInBatches. case_decide; [lia|done]. }
    destruct (sendNextBatch_shape rnd task (collect ls) _ 0 0 rs Hpos Hrun)
      as (_ & _ & Hshape).
    exists rs. split; [by rewrite Hrun'|]. split; [done|]. split.
    + apply Forall_lookup_2. intros i r Hr.
      destruct (Hshape i r Hr) as (_ & Hbn & _ & _ & Hst).
      split.
      * rewrite Hst. by case_decide.
      * intros ->. done.
    + destruct (last rs) as [r|] eqn:Hlast.
      * exists r. split; [done|].
        assert (Hr : rs !! (length rs - 1) = Some r).
        { rewrite <- Hlast. symmetry. rewrite last_lookup. f_equal. lia. }
        assert (Hlen : 0 < length rs) by (destruct rs; [done|simpl; lia]).
        destruct (Hshape _ _ Hr) as (_ & _ & _ & _ & Hst).
        destruct (Hidx _ _ Hr) as (_ & _ & Hfin).
        split.
        -- rewrite Hst. case_decide; [done|lia].
        -- apply Hfin. lia.
      * apply last_None in Hlast. contradiction.
Qed.

(** A file of five lines, two of them usable: one batch with items 7
    and 9. *)
Lemma line_by_line_file_witness :
  _processJsonFile (fun _ => 4) task_one (Present (Lines [Broken; Blank]))
  = Ok (Some [error_result task_one])
  /\ exists rs,
       _processJsonFile (fun _ => 4) task_one
         (Present (Lines [Parses 7; Blank; Broken; Repaired 9; Broken]))
       = Ok (Some rs)
       /\ concat (batch_items <$> rs) = [7; 9].
Proof.
  split.
  - apply (line_by_line_file_yields_an_error_or_batches (fun _ => 4) task_one
             [Broken; Blank]). reflexivity.
  - destruct (line_by_line_file_yields_an_error_or_batches (fun _ => 4)
                task_one [Parses 7; Blank; Broken; Repaired 9; Broken])
      as (_ & _ & Hrun).
    destruct Hrun as (rs & Hrs & Hcat & _); [discriminate|].
    exists rs. split; [exact Hrs|exact Hcat].
Defined.

(** The results of a run, whatever the file read. *)
Lemma readFile_callback_results rnd task file :
  exists rs,
    readFile_callback rnd task file = Some rs
    /\ rs ≠ []
    /\ ((exists r, last rs = Some r /\ final_of r = Some true)
        <-> reaches_completion file = true)
    /\ ((exists r, r ∈ rs /\ final_of r = Some true)
        -> reaches_completion file = true).
Proof.
  assert (Hbatches : forall items : list Item, items ≠ [] ->
            exists rs, sendNextBatch (length items) rnd task items 0 0 = Some rs
              /\ rs ≠ []
              /\ exists r, last rs = Some r /\ final_of r = Some true).
  { intros items Hne.
    assert (Hpos : 0 < length items) by (destruct items; [done|simpl; lia]).
    destruct (sendNextBatch_spec rnd task items (length items) 0 0)
      as (rs & Hrun & Hne' & _ & Hidx); [lia | lia |].
    exists rs. split; [done|]. split; [done|].
    destruct (last rs) as [r|] eqn:Hlast.
    - exists r. split; [done|].
      assert (Hr : rs !! (length rs - 1) = Some r).
      { rewrite <- Hlast. symmetry. rewrite last_lookup. f_equal. lia. }
      assert (Hlen : 0 < length rs) by (destruct rs; [done|simpl; lia]).
      destruct (Hidx _ _ Hr) as (_ & _ & Hfin). apply Hfin. lia.
    - apply last_None in Hlast. contradiction. }
  assert (Herr : forall r, r ∈ [error_result task] ->
                   final_of r = Some true -> False).
  { intros r Hr. apply list_elem_of_singleton in Hr as ->. done. }
  assert (Hemp : forall r, r ∈ [empty_result task] ->
                   final_of r = Some true -> False).
  { intros r Hr. apply list_elem_of_singleton in Hr as ->. done. }
  assert (Hlast_in : forall (rs : list Result) r, last rs = Some r -> r ∈ rs).
  { intros rs r Hl. rewrite last_lookup in Hl.
    by eapply list_elem_of_lookup_2. }
  destruct file as [|ls|[[elements|x]|]]; simpl.
  - exists [error_result task]. split; [done|]. split; [done|]. split.
    + split; [|done]. intros (r & Hl & Hf). exfalso.
      eapply Herr; [|exact Hf]. by apply Hlast_in.
    + intros (r & Hr & Hf). exfalso. by eapply Herr.
  - destruct (decide (length (collect ls) = 0)) as [Hz|Hnz].
    + exists [error_result task]. split; [done|]. split; [done|].
      rewrite bool_decide_eq_true_2 by done. simpl. split.
      * split; [|done]. intros (r & Hl & Hf). exfalso.
        eapply Herr; [|exact Hf]. by apply Hlast_in.
      * intros (r & Hr & Hf). exfalso. by eapply Herr.
    + destruct (Hbatches (collect ls)) as (rs & Hrun & Hne & Hfin).
      { intros E. by rewrite E in Hnz. }
      exists rs. unfold _sendDataInBatches. rewrite decide_False by done.
      rewrite bool_decide_eq_false_2 by done. done.
  - unfold _sendDataInBatches.
    destruct (decide (length elements = 0)) as [Hz|Hnz].
    + exists [empty_result task]. split; [done|]. split; [done|].
      rewrite bool_decide_eq_true_2 by done. simpl. split.
      * split; [|done]. intros (r & Hl & Hf). exfalso.
        eapply Hemp; [|exact Hf]. by apply Hlast_in.
      * intros (r & Hr & Hf). exfalso. by eapply Hemp.
    + destruct (Hbatches elements) as (rs & Hrun & Hne & Hfin).
      { intros E. by rewrite E in Hnz. }
      exists rs. rewrite bool_decide_eq_false_2 by done. done.
  - unfold _sendDataInBatches. simpl.
    destruct (Hbatches [x]) as (rs & Hrun & Hne & Hfin); [done|].
    exists rs. done.
  - exists [error_result task]. split; [done|]. split; [done|]. split.
    + split; [|done]. intros (r & Hl & Hf). exfalso.
      eapply Herr; [|exact Hf]. by apply Hlast_in.
    + intros (r & Hr & Hf). exfalso. by eapply Herr.
Qed.

Lemma processTask_run rnd taskId disk doneAt tasks :
  processTask rnd taskId disk doneAt tasks
  = match tasks !! taskId with
    | None => (Ok (false, Some []), tasks)
    | Some k =>
        match open_file disk with
        | Throw e =>
            (Throw e,
             <[taskId := with_status processing (k_completedAt k) k]> tasks)
        | Ok file =>
            (Ok (true, readFile_callback rnd (k_task k) file),
             <[taskId := if reaches_completion file
                         then with_status completed (Some doneAt) k
                         else with_status processing (k_completedAt k) k]>
               tasks)
        end
    end.
Proof.
  unfold processTask, bind, get, modify, _processJsonFile, completes. simpl.
  destruct (tasks !! taskId) as [k|]; [|done].
  destruct (open_file disk) as [file|e]; simpl; [|done].
  destruct (reaches_completion file); simpl; [|done].
  by rewrite insert_insert_eq.
Qed.

(** X25. What the task store says after [processTask].  A task that is
    not in the store is refused: [false], nothing sent or changed.  For a
    task in the store no other task is touched, and:
    - when the data file is missing and the sample file cannot be written,
      [processTask] throws: no result is sent and the task is left
      [processing];
    - otherwise [true] is returned and at least one result is sent.  The
      task ends [completed], with its completion time, if the last result
      sent is a final batch.  If no result sent is a final batch (the file
      could not be read or parsed, held no usable line, or held an empty
      array) the task stays [processing] for good, although an error, or a
      [completed] result without data, was sent for it. *)
Theorem task_is_completed_only_by_a_final_batch
    (rnd : nat -> nat) (taskId : string) (disk : Disk) (doneAt : Z)
    (tasks : gmap string TaskRecord) :
  match tasks !! taskId with
  | None =>
      processTask rnd taskId disk doneAt tasks = (Ok (false, Some []), tasks)
  | Some k =>
      match disk with
      | Missing _ true _ =>
          processTask rnd taskId disk doneAt tasks
          = (Throw WriteError,
             <[taskId := with_status processing (k_completedAt k) k]> tasks)
      | _ =>
          exists rs k',
            processTask rnd taskId disk doneAt tasks
            = (Ok (true, Some rs), <[taskId := k']> tasks)
            /\ rs ≠ []
            /\ k_task k' = k_task k /\ k_createdAt k' = k_createdAt k
            /\ ((exists r, last rs = Some r /\ final_of r = Some true) ->
                  k_status k' = completed /\ k_completedAt k' = Some doneAt)
            /\ (~ (exists r, r ∈ rs /\ final_of r = Some true) ->
                  k_status k' = processing
                  /\ k_completedAt k' = k_completedAt k)
      end
  end.
Proof.
  rewrite processTask_run.
  destruct (tasks !! taskId) as [k|]; [|done].
  assert (Hread : forall file,
    exists rs k',
      (Ok (true, readFile_callback rnd (k_task k) file),
       <[taskId := if reaches_completion file
                   then with_status completed (Some doneAt) k
                   else with_status processing (k_completedAt k) k]> tasks)
      = (Ok (true, Some rs), <[taskId := k']> tasks)
      /\ rs ≠ []
      /\ k_task k' = k_task k /\ k_createdAt k' = k_createdAt k
      /\ ((exists r, last rs = Some r /\ final_of r = Some true) ->
            k_status k' = completed /\ k_completedAt k' = Some doneAt)
      /\ (~ (exists r, r ∈ rs /\ final_of r = Some true) ->
            k_status k' = processing
            /\ k_completedAt k' = k_completedAt k)).
  { intros file.
    destruct (readFile_callback_results rnd (k_task k) file)
      as (rs & Hrun & Hne & Hlast & Hany).
    rewrite Hrun. eexists rs, _. split; [reflexivity|]. split; [done|].
    destruct (reaches_completion file) eqn:Hreach; simpl.
    - split; [done|]. split; [done|]. split; [done|].
      intros Hno. exfalso. apply Hno.
      destruct (proj2 Hlast eq_refl) as (r & Hl & Hf). exists r.
      split; [|done]. rewrite last_lookup in Hl.
      by eapply list_elem_of_lookup_2.
    - split; [done|]. split; [done|]. split; [|done].
      intros H. apply Hlast in H. done. }
  destruct disk as [file|variant [|] readFails]; cbn [open_file].
  - apply Hread.
  - reflexivity.
  - apply Hread.
Qed.

(** A store with one task, as [createTask] leaves it. *)
Definition store_one : gmap string TaskRecord :=
  (createTask (Some "1") (Some "req-1") "task-1" 0 ∅).2.

(** The file missing and not creatable: a throw, the store says
    [processing].  An empty array: the result sent says [completed], the
    store says [processing].  One usable line: the store says
    [completed]. *)
Lemma task_is_completed_witness :
  processTask (fun _ => 4) "task-1" (Missing LineByLine true false) 5 store_one
  = (Throw WriteError,
     <["task-1" := {| k_task := task_one; k_status := processing;
                      k_createdAt := 0; k_completedAt := None |}]> store_one)
  /\ getTaskStatus "task-1"
       (exec (processTask (fun _ => 4) "task-1"
                (Present (Whole (Some (Arr [])))) 5) store_one)
     = Some ("task-1", processing, 0%Z, None)
  /\ getTaskStatus "task-1"
       (exec (processTask (fun _ => 4) "task-1"
                (Present (Lines [Parses 7])) 5) store_one)
     = Some ("task-1", completed, 0%Z, Some 5%Z).
Proof.
  split; [|split].
  - pose proof (task_is_completed_only_by_a_final_batch (fun _ => 4) "task-1"
                  (Missing LineByLine true false) 5 store_one) as H.
    change (store_one !! "task-1")
      with (Some {| k_task := task_one; k_status := pending;
                    k_createdAt := 0; k_completedAt := None |}) in H.
    exact H.
  - pose proof (task_is_completed_only_by_a_final_batch (fun _ => 4) "task-1"
                  (Present (Whole (Some (Arr [])))) 5 store_one) as H.
    change (store_one !! "task-1")
      with (Some {| k_task := task_one; k_status := pending;
                    k_createdAt := 0; k_completedAt := None |}) in H.
    destruct H as (rs & k' & Hrun & _ & Htask & Hcreated & _ & Hstay).
    assert (Hrs : rs = [empty_result task_one]).
    { apply (f_equal fst) in Hrun. simpl in Hrun. by injection Hrun. }
    destruct Hstay as [Hs Hc].
    { subst rs. intros (r & Hr & Hf).
      apply list_elem_of_singleton in Hr as ->. discriminate. }
    unfold exec. rewrite Hrun. simpl. unfold getTaskStatus.
    rewrite lookup_insert_eq, Htask, Hs, Hcreated, Hc. reflexivity.
  - pose proof (task_is_completed_only_by_a_final_batch (fun _ => 4) "task-1"
                  (Present (Lines [Parses 7])) 5 store_one) as H.
    change (store_one !! "task-1")
      with (Some {| k_task := task_one; k_status := pending;
                    k_createdAt := 0; k_completedAt := None |}) in H.
    destruct H as (rs & k' & Hrun & _ & Htask & Hcreated & Hdone & _).
    assert (Hrs : exists r, last rs = Some r /\ final_of r = Some true).
    { apply (f_equal fst) in Hrun. simpl in Hrun. injection Hrun as <-.
      eexists. split; reflexivity. }
    destruct (Hdone Hrs) as [Hs Hc].
    unfold exec. rewrite Hrun. simpl. unfold getTaskStatus.
    rewrite lookup_insert_eq, Htask, Hs, Hcreated, Hc. reflexivity.
Defined.

End ProcessorMore.

(** * An explicit disconnect of the client *)

Section ClientDisconnect.

Import Client.
Local Open Scope Q_scope.

(** X26. [disconnect()] does not stop the client.  It empties the
    correlator, stops the heartbeat, drops the socket and clears the
    authentication, but the socket it closed still carries the close
    handler.  When that handler runs, and [onDisconnect] returns, a
    reconnect is scheduled as after any lost connection; when the timer
    fires, and [onReconnect] returns, [connect()] finds no socket and no
    attempt under way and opens a new one.  The attempt counter has gone up
    by one, the authentication token is still in the options for the next
    open. *)
Theorem disconnect_is_followed_by_a_reconnect (c : WSClient) :
  onDisconnect (options c) = Returns ->
  onReconnect (options c) = Returns ->
  let c1 := disconnect c in
  requestCallbacks c1 = ∅
  /\ socket c1 = None /\ authenticated c1 = false /\ heartbeatTimer c1 = false
  /\ exists c2,
       _handleClose_detached c1 = (Ok (reconnectDelay c), c2)
       /\ socket (exec reconnectTimeout c2) = Some CONNECTING
       /\ isConnecting (exec reconnectTimeout c2) = true
       /\ reconnectAttempts (exec reconnectTimeout c2)
          = S (reconnectAttempts c)
       /\ authToken (options (exec reconnectTimeout c2))
          = authToken (options c)
       /\ requestCallbacks (exec reconnectTimeout c2) = ∅.
Proof.
  intros Hd Hr c1. subst c1.
  split; [done|]. split; [done|]. split; [done|]. split; [done|].
  eexists. split.
  { unfold _handleClose_detached, call, bind, modify, get. simpl.
    rewrite Hd. simpl. reflexivity. }
  unfold exec, reconnectTimeout, call, bind, modify, get. simpl.
  rewrite Hr. simpl. unfold connect. simpl. done.
Qed.

(** A connected client with a pending request disconnects: the request is
    gone, and after the close event and the timer a new socket is
    connecting. *)
Lemma disconnect_is_followed_by_a_reconnect_witness :
  requestCallbacks (disconnect (awaiting (entry_of (Some Returns) None true)))
  = ∅
  /\ exists c2,
       _handleClose_detached
         (disconnect (awaiting (entry_of (Some Returns) None true)))
       = (Ok 3000, c2)
       /\ socket (exec reconnectTimeout c2) = Some CONNECTING.
Proof.
  destruct (disconnect_is_followed_by_a_reconnect
              (awaiting (entry_of (Some Returns) None true)) eq_refl eq_refl)
    as (Hcb & _ & _ & _ & c2 & Hclose & Hsock & _).
  split; [exact Hcb|]. exists c2. split; [|exact Hsock].
  rewrite Hclose. reflexivity.
Defined.

End ClientDisconnect.

(** * Properties of the test client *)

Section TestClientProperties.

Import TestClient.
Import Client (Callback, Returns, Throws).

Lemma settle_settled (ps : list Promise) p q v w :
  ps !! p = Some v -> v ≠ Pending -> settle q w ps !! p = Some v.
Proof.
  intros Hp Hv. unfold settle.
  destruct (ps !! q) as [[| |]|] eqn:Hq; try done.
  destruct (decide (p = q)) as [->|Hne].
  - rewrite Hq in Hp. by injection Hp as <-.
  - by rewrite list_lookup_insert_ne.
Qed.

Lemma settle_pending (ps : list Promise) p w :
  ps !! p = Some Pending -> settle p w ps !! p = Some w.
Proof.
  intros Hp. unfold settle. rewrite Hp.
  apply list_lookup_insert_eq. by eapply lookup_lt_Some.
Qed.

(** The state in which the [switch] of the message handler leaves the
    client, for a frame that is neither [welcome], [auth_success],
    [auth_failure] nor [pong]. *)
Definition after_default (message : Frame) (c : TestWSClient) : TestWSClient :=
  if truthy (frame_requestId message) then
    match messageHandlers c !! default "" (frame_requestId message) with
    | Some p =>
        with_requests
          (delete (default "" (frame_requestId message)) (messageHandlers c))
          (promises (handler p message c)) c
    | None => c
    end
  else c.

Lemma on_message_default message c :
  frame_type message ≠ "welcome" -> frame_type message ≠ "auth_success" ->
  frame_type message ≠ "auth_failure" -> frame_type message ≠ "pong" ->
  exec (on_message (FromServer message)) c = after_default message c.
Proof.
  intros H1 H2 H3 H4. unfold exec, on_message, after_default.
  rewrite !decide_False by done.
  unfold bind, modify, get, call. simpl.
  destruct (truthy (frame_requestId message)); simpl.
  - destruct (messageHandlers c !! default "" (frame_requestId message));
      simpl; by destruct (onMessage (options c)).
  - by destruct (onMessage (options c)).
Qed.

Lemma on_message_keeps_settled raw c p v :
  promises c !! p = Some v -> v ≠ Pending ->
  promises (exec (on_message raw) c) !! p = Some v.
Proof.
  intros Hp Hv. destruct raw as [| |message]; [done|done|].
  destruct (decide (frame_type message = "welcome")) as [E1|E1].
  { unfold exec, on_message. rewrite decide_True by done.
    unfold bind, get, call, ret. simpl. by destruct (onMessage (options c)). }
  destruct (decide (frame_type message = "auth_success")) as [E2|E2].
  { unfold exec, on_message. rewrite decide_False, decide_True by done.
    unfold bind, get, modify, call, ret. simpl.
    by destruct (onMessage (options c)). }
  destruct (decide (frame_type message = "auth_failure")) as [E3|E3].
  { unfold exec, on_message. rewrite !decide_False, decide_True by done.
    unfold bind, get, modify, call, ret. simpl.
    by destruct (onMessage (options c)). }
  destruct (decide (frame_type message = "pong")) as [E4|E4].
  { unfold exec, on_message. rewrite !decide_False, decide_True by done.
    unfold bind, get, call, ret. simpl. by destruct (onMessage (options c)). }
  rewrite on_message_default by done. unfold after_default.
  destruct (truthy (frame_requestId message)); [|done].
  destruct (messageHandlers c !! default "" (frame_requestId message));
    [|done].
  simpl. by apply settle_settled.
Qed.

(** X27. A promise of the test client's [requestData()] is settled by the
    first frame that carries its request id at the top level, or by its
    timeout.  A [request_accepted] frame resolves it, an [error] frame
    rejects it with the frame's text, and the handler is removed in both
    cases; the timeout rejects it and removes the handler.  A [data] frame
    never settles it, whatever its payload: the request id of a result is
    inside [payload], where the handler of the test client does not look.
    Once settled, the promise is not changed by any later message or by
    the timeout.  So the promise of an accepted request yields the
    acceptance, not the data. *)
Theorem test_promise_is_settled_by_the_acceptance
    (c : TestWSClient) (rid : string) (p : nat) :
  rid ≠ "" ->
  messageHandlers c !! rid = Some p ->
  promises c !! p = Some Pending ->
  (forall payload,
     messageHandlers (exec (on_message (FromServer (Data payload))) c)
       = messageHandlers c
     /\ promises (exec (on_message (FromServer (Data payload))) c)
        = promises c)
  /\ (forall taskId,
        let accepted := RequestAccepted (Some rid) taskId in
        let c' := exec (on_message (FromServer accepted)) c in
        promises c' !! p = Some (Resolved accepted)
        /\ messageHandlers c' !! rid = None
        /\ (forall raw,
              promises (exec (on_message raw) c') !! p
              = Some (Resolved accepted))
        /\ promises (requestTimeout rid p c') !! p = Some (Resolved accepted))
  /\ (forall text,
        let c' := exec (on_message (FromServer (ErrorFrame (Some rid) text))) c in
        promises c' !! p = Some (Rejected (Some text))
        /\ messageHandlers c' !! rid = None)
  /\ promises (requestTimeout rid p c) !! p
     = Some (Rejected (Some "Request timeout"))
  /\ messageHandlers (requestTimeout rid p c) !! rid = None.
Proof.
  intros Hne Hh Hp.
  assert (Ht : truthy (Some rid) = true) by exact (truthy_nonempty _ Hne).
  split; [|split; [|split; [|split]]].
  - intros payload. by rewrite on_message_default.
  - intros taskId accepted c'.
    assert (Hc' : c' = with_requests (delete rid (messageHandlers c))
                         (settle p (Resolved accepted) (promises c)) c).
    { subst c' accepted. rewrite on_message_default by done.
      unfold after_default. simpl frame_requestId. rewrite Ht. simpl.
      by rewrite Hh. }
    assert (Hres : promises c' !! p = Some (Resolved accepted)).
    { rewrite Hc'. simpl. by apply settle_pending. }
    split; [done|]. split; [|split].
    + rewrite Hc'. simpl. apply lookup_delete_eq.
    + intros raw. by apply on_message_keeps_settled.
    + unfold requestTimeout. rewrite Hc' at 1. simpl.
      by rewrite lookup_delete_eq.
  - intros text c'. subst c'. rewrite on_message_default by done.
    unfold after_default. simpl frame_requestId. rewrite Ht. simpl.
    rewrite Hh. simpl. split; [by apply settle_pending|].
    apply lookup_delete_eq.
  - unfold requestTimeout. rewrite Hh. simpl. by apply settle_pending.
  - unfold requestTimeout. rewrite Hh. simpl. apply lookup_delete_eq.
Qed.

(** A connected, authenticated test client with default options. *)
Definition ready_test_client : TestWSClient :=
  with_link true true true true
    (new_TestWSClient {| u_autoReconnect := None; u_token := None;
                         u_onOpen := None; u_onMessage := None;
                         u_onClose := None |}).

(** The client asks for data as "req-1"; the acceptance and then a result
    arrive: the promise holds the acceptance. *)
Lemma test_promise_witness :
  promises
    (exec (on_message (FromServer (Data (Tasks.empty_result task_one))))
       (exec (on_message (FromServer (RequestAccepted (Some "req-1") "task-1")))
          (exec (requestData "req-1") ready_test_client))) !! 0%nat
  = Some (Resolved (RequestAccepted (Some "req-1") "task-1")).
Proof.
  destruct (test_promise_is_settled_by_the_acceptance
              (exec (requestData "req-1") ready_test_client) "req-1" 0)
    as (_ & Hacc & _); [discriminate | reflexivity | reflexivity |].
  destruct (Hacc "task-1") as (_ & _ & Hlater & _).
  exact (Hlater (FromServer (Data (Tasks.empty_result task_one)))).
Defined.

(** X28. The test client cannot be told not to reconnect.  Whatever
    options it was built with, [autoReconnect: false] included, the close
    handler schedules a [connect()], also after [close()] and also when
    the [onClose] callback throws; [connect()] then creates a socket
    without looking at the state.  The close handler leaves the message
    handlers in place, so the promises of the requests under way stay
    pending until their timeouts. *)
Theorem test_client_always_reconnects (o : UserOptions) (c : TestWSClient) :
  options c = merge_options o ->
  scheduled (exec on_close c) = S (scheduled c)
  /\ scheduled (exec on_close (close c)) = S (scheduled c)
  /\ connected (exec on_close c) = false
  /\ authenticated (exec on_close c) = false
  /\ messageHandlers (exec on_close c) = messageHandlers c
  /\ promises (exec on_close c) = promises c
  /\ (forall c', hasSocket (connect c') = true
                 /\ sockets (connect c') = S (sockets c')).
Proof.
  intros Ho.
  assert (Hauto : autoReconnect (options c) = true).
  { rewrite Ho. simpl. apply orb_true_r. }
  unfold exec, on_close, bind, modify, get, call. simpl. rewrite Hauto. simpl.
  destruct (onClose (options c)); simpl; repeat split; done.
Qed.

Lemma test_client_always_reconnects_witness :
  scheduled
    (exec on_close
       (new_TestWSClient {| u_autoReconnect := Some false; u_token := None;
                            u_onOpen := None; u_onMessage := None;
                            u_onClose := None |}))
  = 1%nat.
Proof.
  destruct (test_client_always_reconnects
              {| u_autoReconnect := Some false; u_token := None;
                 u_onOpen := None; u_onMessage := None; u_onClose := None |}
              (new_TestWSClient
                 {| u_autoReconnect := Some false; u_token := None;
                    u_onOpen := None; u_onMessage := None;
                    u_onClose := None |}) eq_refl) as [H _].
  exact H.
Defined.

End TestClientProperties.

(** * Login, then authentication *)

Section LoginProperties.

Import Login.

Fixpoint no_space (s : string) : bool :=
  match s with
  | EmptyString => true
  | String ch rest => negb (Ascii.eqb ch Ascii.Space) && no_space rest
  end.

Lemma split_no_space (t : string) :
  no_space t = true -> split Ascii.Space t = [t].
Proof.
  induction t as [|ch rest IH]; [done|]. simpl.
  intros [Hch Hrest]%andb_true_iff.
  apply negb_true_iff in Hch. rewrite Hch, IH by done. done.
Qed.

Lemma bearer_token (t : string) :
  no_space t = true ->
  String.prefix "Bearer " ("Bearer " ++ t) = true
  /\ split Ascii.Space ("Bearer " ++ t) !! 1%nat = Some t.
Proof.
  intros Ht. split; [by destruct t|].
  simpl. by rewrite split_no_space.
Qed.

(** What the token library is relied on for, for the ids of the users
    there are: a token verifies to the payload it was signed for (until it
    expires), is not empty and holds no space. *)
Definition jwt_ok (sign : string -> string)
    (verifyToken : string -> option Decoded) : Prop :=
  Forall (fun user =>
            verifyToken (sign (user_id user))
            = Some {| dec_userId := Some (user_id user); dec_sub := None |}
            /\ sign (user_id user) ≠ ""
            /\ no_space (sign (user_id user)) = true)
    users.

(** X29. From the login to the registry.  A login succeeds exactly for
    the name and password of one of the users, and answers with a token
    signed for that user's id.  With that token as bearer, the user route
    answers with the same id and name; sent in an [auth] frame, it makes
    either WebSocket server register the connection for that id and answer
    [auth_success].  A login with any other name or password is answered
    with status 401. *)
Theorem login_token_authenticates_its_user
    (sign : string -> string) (verifyToken : string -> option Decoded)
    (username password : JsStr) :
  jwt_ok sign verifyToken ->
  match authenticateUser sign username password with
  | Some (token, (id, name)) =>
      (exists user,
         user ∈ users
         /\ username = Some (user_username user)
         /\ password = Some (user_password user)
         /\ id = user_id user /\ name = user_username user
         /\ token = sign id)
      /\ login sign username password = LoginJson token id name
      /\ api_user verifyToken (Some ("Bearer " ++ token)) = UserJson id name
      /\ forall s cid c,
           clients s !! cid = Some c ->
           (exists s',
              Direct.handleAuth verifyToken cid (auth_message token) s
              = (Ok tt, s')
              /\ registered (Some id) cid c s s')
           /\ (exists s',
                 Queued._handleAuth verifyToken (auth_message token) cid s
                 = (Ok tt, s')
                 /\ registered (Some id) cid c s s')
  | None =>
      (forall user, user ∈ users ->
         username ≠ Some (user_username user)
         \/ password ≠ Some (user_password user))
      /\ login sign username password = Status 401
  end.
Proof.
  intros Hjwt.
  assert (Hgood : forall user, user ∈ users ->
            user_id user = "1" \/ user_id user = "2" ->
            api_user verifyToken (Some ("Bearer " ++ sign (user_id user)))
               = UserJson (user_id user) (user_username user)
            /\ forall s cid c,
                 clients s !! cid = Some c ->
                 (exists s',
                    Direct.handleAuth verifyToken cid
                      (auth_message (sign (user_id user))) s = (Ok tt, s')
                    /\ registered (Some (user_id user)) cid c s s')
                 /\ (exists s',
                       Queued._handleAuth verifyToken
                         (auth_message (sign (user_id user))) cid s
                       = (Ok tt, s')
                       /\ registered (Some (user_id user)) cid c s s')).
  { intros user Hin Hid.
    pose proof (proj1 (Forall_forall _ _) Hjwt user Hin) as (Hver & Hne & Hsp).
    destruct (bearer_token _ Hsp) as [Hpre Htok].
    split.
    - assert (Htr : truthy (Some ("Bearer " ++ sign (user_id user))) = true).
      { apply truthy_nonempty. by destruct (sign (user_id user)). }
      unfold api_user. rewrite Htr. cbn [default from_option id negb orb].
      rewrite Hpre. cbn [negb]. rewrite Htok. cbn [mbind option_bind].
      rewrite Hver. cbn [dec_userId].
      apply elem_of_cons in Hin as [->|Hin]; [reflexivity|].
      apply list_elem_of_singleton in Hin as ->. reflexivity.
    - intros s cid c Hc. split.
      + eexists. split.
        * exact (Direct_handleAuth_success verifyToken s cid c
                   (auth_message (sign (user_id user))) _ _ Hc eq_refl Hne
                   Hver).
        * exact (deliver_authenticated_registered _ cid c s Hc).
      + assert (Hu : truthy (js_or (Some (user_id user)) None) = true).
        { by destruct Hid as [-> | ->]. }
        eexists. split.
        * exact (Queued_handleAuth_success verifyToken s cid c
                   (auth_message (sign (user_id user))) _ _ Hc eq_refl Hne
                   Hver Hu).
        * assert (E : js_or (Some (user_id user)) None = Some (user_id user)).
          { by destruct Hid as [-> | ->]. }
          cbn [dec_userId dec_sub]. rewrite E.
          exact (deliver_authenticated_registered _ cid c s Hc). }
  unfold login, authenticateUser, find_user, users. cbn [find].
  cbn [user_username user_password user_id].
  destruct (bool_decide (Some "user1" = username)
            && bool_decide (Some "password1" = password)) eqn:E1.
  { apply andb_true_iff in E1 as [Hu Hp].
    apply bool_decide_eq_true in Hu, Hp. subst username password.
    destruct (Hgood {| user_id := "1"; user_username := "user1";
                       user_password := "password1" |})
      as (H2 & H3); [by left | by left |].
    split; [|split; [done|split; [exact H2|exact H3]]].
    eexists. split; [by left|]. done. }
  destruct (bool_decide (Some "user2" = username)
            && bool_decide (Some "password2" = password)) eqn:E2.
  { apply andb_true_iff in E2 as [Hu Hp].
    apply bool_decide_eq_true in Hu, Hp. subst username password.
    destruct (Hgood {| user_id := "2"; user_username := "user2";
                       user_password := "password2" |})
      as (H2 & H3); [by right; left | by right |].
    split; [|split; [done|split; [exact H2|exact H3]]].
    eexists. split; [by right; left|]. done. }
  split; [|done]. intros user Hin.
  apply andb_false_iff in E1, E2.
  apply elem_of_cons in Hin as [->|Hin].
  - destruct E1 as [E|E]; apply bool_decide_eq_false in E;
      [left|right]; intros Heq; apply E; by rewrite Heq.
  - apply list_elem_of_singleton in Hin as ->.
    destruct E2 as [E|E]; apply bool_decide_eq_false in E;
      [left|right]; intros Heq; apply E; by rewrite Heq.
Qed.

(** A signer and a verifier for the witness: the token of user [i] is
    "t" followed by [i]. *)
Definition sign_two (userId : string) : string := "t" ++ userId.

Lemma login_token_witness :
  login sign_two (Some "user2") (Some "password2") = LoginJson "t2" "2" "user2"
  /\ api_user verify_two (Some "Bearer t2") = UserJson "2" "user2"
  /\ connectionsFor
       (exec (Queued._handleAuth verify_two (auth_message "t2") "c1")
          server_one) (Some "2") = ["c1"].
Proof.
  pose proof (login_token_authenticates_its_user sign_two verify_two
                (Some "user2") (Some "password2")) as H.
  change (authenticateUser sign_two (Some "user2") (Some "password2"))
    with (Some ("t2", ("2", "user2"))) in H.
  destruct H as (_ & Hlogin & Huser & Hws).
  { repeat constructor; discriminate. }
  split; [exact Hlogin|]. split; [exact Huser|].
  destruct (Hws server_one "c1" (fresh_client "c1") eq_refl)
    as (_ & s' & Hrun & _ & Hreg & _).
  unfold exec. rewrite Hrun. unfold connectionsFor. simpl. rewrite Hreg.
  reflexivity.
Defined.

End LoginProperties.
